(** * Calldata codec of the hylos-tank bot

    A shallow embedding of the hand-written ABI encoding layer
    (src/utils/encoding.js, the bridge, delegation and governance calldata
    builders and the bridge parameter validation) together with the parts
    of ECMAScript and of the ethers v6 library those functions run on.

    JavaScript strings are sequences of UTF-16 code units, so they are
    lists of [Z]; byte arrays are lists of [Z] below 256; BigInt values
    are [Z]; an exception is the [Throw] branch of [Result]. *)

From Stdlib Require Import ZArith List String Ascii Bool Lia.
Import ListNotations.
Open Scope Z_scope.

(* ===================================================================== *)
(** * Part 1: ECMAScript values and built-ins used by the code            *)
(* ===================================================================== *)

Module JS.

(** A string value: its UTF-16 code units, in order. *)
Definition JsString := list Z.

(** The JavaScript literal with the given ASCII text. *)
Definition js (s : string) : JsString :=
  map (fun a => Z.of_nat (nat_of_ascii a)) (list_ascii_of_string s).

(** [s.length] *)
Definition String_length (s : JsString) : Z := Z.of_nat (List.length s).

(** [s.slice(n)] and [s.substring(n)] for [0 <= n]. *)
Definition slice (n : nat) (s : JsString) : JsString := skipn n s.

(** [s.substring(a, b)] for [0 <= a <= b]. *)
Definition substring (a b : nat) (s : JsString) : JsString :=
  firstn (b - a) (skipn a s).

Fixpoint string_eqb (a b : JsString) : bool :=
  match a, b with
  | [], [] => true
  | x :: a', y :: b' => (x =? y) && string_eqb a' b'
  | _, _ => false
  end.

(** [s.startsWith(p)] *)
Fixpoint startsWith (p s : JsString) : bool :=
  match p, s with
  | [], _ => true
  | x :: p', y :: s' => (x =? y) && startsWith p' s'
  | _ :: _, [] => false
  end.

(** [parts.join(sep)] *)
Fixpoint join (sep : JsString) (parts : list JsString) : JsString :=
  match parts with
  | [] => []
  | [p] => p
  | p :: rest => p ++ sep ++ join sep rest
  end.

(** Number values, abstracted to what the calldata code observes of them
    (truthiness, comparison with 0, [Number.isInteger], the safe-integer
    range, conversion to BigInt).  [NInt z] is the integer-valued double
    [z] (-0 is identified with 0, which no operation used here tells
    apart); [NFrac neg] is a finite number that is not an integer, with
    its sign; [NInf neg] an infinity; [NNaN] is NaN. *)
Inductive JsNumber :=
| NInt (z : Z)
| NFrac (neg : bool)
| NInf (neg : bool)
| NNaN.

(** [Number.MAX_SAFE_INTEGER], 2^53 - 1. *)
Definition MAX_SAFE_INTEGER : Z := 9007199254740991.

(** ToBoolean on a number: false exactly for 0 and NaN. *)
Definition Number_truthy (n : JsNumber) : bool :=
  match n with
  | NInt z => negb (z =? 0)
  | NFrac _ | NInf _ => true
  | NNaN => false
  end.

(** [n <= 0] *)
Definition Number_le0 (n : JsNumber) : bool :=
  match n with
  | NInt z => z <=? 0
  | NFrac neg | NInf neg => neg
  | NNaN => false
  end.

(** [Number.isInteger(n)] *)
Definition Number_isInteger (n : JsNumber) : bool :=
  match n with NInt _ => true | _ => false end.

(** ToBoolean on a string: false exactly for the empty string. *)
Definition String_truthy (s : JsString) : bool :=
  match s with [] => false | _ => true end.

(** Error codes of ethers' [makeError]. *)
Inductive ErrorCode := INVALID_ARGUMENT | NUMERIC_FAULT | BUFFER_OVERRUN.

(** Thrown values. *)
Inductive JsError :=
| EthersError (code : ErrorCode) (message : string)
| SyntaxError (input : JsString)      (* BigInt() on a string that is no integer literal *)
| Error (message : JsString).         (* new Error(message) *)

(** The outcome of a call: a returned value or a thrown error. *)
Inductive Result (A : Type) :=
| Ok (a : A)
| Throw (e : JsError).
Arguments Ok {A} a.
Arguments Throw {A} e.

Definition bind {A B} (r : Result A) (k : A -> Result B) : Result B :=
  match r with
  | Ok a => k a
  | Throw e => Throw e
  end.

Definition returns {A} (r : Result A) : bool :=
  match r with Ok _ => true | Throw _ => false end.

(** ** BigInt *)

(** WhiteSpace and LineTerminator code points (StrWhiteSpaceChar). *)
Definition is_white_space (c : Z) : bool :=
  (c =? 9) || (c =? 10) || (c =? 11) || (c =? 12) || (c =? 13) || (c =? 32)
  || (c =? 160) || (c =? 5760) || ((8192 <=? c) && (c <=? 8202))
  || (c =? 8232) || (c =? 8233) || (c =? 8239) || (c =? 8287)
  || (c =? 12288) || (c =? 65279).

Fixpoint trim_start (s : JsString) : JsString :=
  match s with
  | c :: r => if is_white_space c then trim_start r else s
  | [] => []
  end.

Definition trim (s : JsString) : JsString :=
  rev (trim_start (rev (trim_start s))).

(** Value of the digit [c] in the given radix: 0-9, a-z, A-Z. *)
Definition digit_value (radix c : Z) : option Z :=
  let d := if (48 <=? c) && (c <=? 57) then c - 48
           else if (97 <=? c) && (c <=? 122) then c - 87
           else if (65 <=? c) && (c <=? 90) then c - 55
           else -1 in
  if (0 <=? d) && (d <? radix) then Some d else None.

Fixpoint parse_digits (radix : Z) (s : JsString) (acc : Z) : option Z :=
  match s with
  | [] => Some acc
  | c :: r =>
      match digit_value radix c with
      | Some d => parse_digits radix r (acc * radix + d)
      | None => None
      end
  end.

(** One or more digits. *)
Definition parse_integer (radix : Z) (s : JsString) : option Z :=
  match s with
  | [] => None
  | _ => parse_digits radix s 0
  end.

(** StringToBigInt: surrounding white space is dropped; the empty text is
    0; a decimal literal may carry a sign; 0x, 0o and 0b literals may not. *)
Definition StringToBigInt (s : JsString) : option Z :=
  match trim s with
  | [] => Some 0
  | c0 :: r0 =>
      match r0 with
      | c1 :: r1 =>
          if (c0 =? 48) && ((c1 =? 120) || (c1 =? 88)) then parse_integer 16 r1
          else if (c0 =? 48) && ((c1 =? 111) || (c1 =? 79)) then parse_integer 8 r1
          else if (c0 =? 48) && ((c1 =? 98) || (c1 =? 66)) then parse_integer 2 r1
          else if c0 =? 43 then parse_integer 10 r0
          else if c0 =? 45 then option_map Z.opp (parse_integer 10 r0)
          else parse_integer 10 (c0 :: r0)
      | [] => parse_integer 10 [c0]
      end
  end.

(** [BigInt(s)] for a string [s]. *)
Definition BigInt_of_string (s : JsString) : Result Z :=
  match StringToBigInt s with
  | Some z => Ok z
  | None => Throw (SyntaxError s)
  end.

(** The character of a digit below 36: 0-9 then a-z. *)
Definition digit_char (d : Z) : Z := if d <? 10 then 48 + d else 87 + d.

(** Digits of [z >= 0], least significant first; [fuel] bounds the number
    of digits produced. *)
Fixpoint digits_le (fuel : nat) (radix z : Z) : list Z :=
  match fuel with
  | O => []
  | S f => if z <? radix then [z]
           else (z mod radix) :: digits_le f radix (z / radix)
  end.

(** Digits of [z >= 0], most significant first.  A number has at most
    [log2 z + 1] digits in any radix, so the fuel is never exhausted. *)
Definition digits (radix z : Z) : list Z :=
  rev (digits_le (S (Z.to_nat (Z.log2 z))) radix z).

(** [z.toString(radix)] for a BigInt [z]. *)
Definition BigInt_toString (radix z : Z) : JsString :=
  (if z <? 0 then [45] else []) ++ map digit_char (digits radix (Z.abs z)).

(** [n.toString()] for a number [n]: the decimal digits of a safe
    integer; [inexact] stands for the digits of any other finite number. *)
Definition Number_toString (inexact : JsNumber -> JsString) (n : JsNumber) : JsString :=
  match n with
  | NInt z => if Z.abs z <=? MAX_SAFE_INTEGER then BigInt_toString 10 z
              else inexact n
  | NFrac _ => inexact n
  | NInf neg => if neg then js "-Infinity" else js "Infinity"
  | NNaN => js "NaN"
  end.

End JS.
Export JS.

Notation "x <- e ;; k" := (JS.bind e (fun x => k))
  (at level 61, e at next level, right associativity).

(* ===================================================================== *)
(** * Part 2: the ethers v6 functions the encoders call                   *)
(* ===================================================================== *)

(** [ethers] is an external dependency of the repository; the functions
    below follow the library's v6 sources (utils/maths, utils/data,
    utils/utf8, address/address, crypto/keccak). *)
Module ethers.

(** What ethers accepts as a number: a number, a string or a BigInt. *)
Inductive BigNumberish :=
| BNumber (n : JsNumber)
| BString (s : JsString)
| BBigInt (z : Z).

(** What ethers accepts as bytes: a hex string or a Uint8Array. *)
Inductive BytesLike :=
| BHex (s : JsString)
| BBytes (b : list Z).

Definition invalid_argument {A} (message : string) : Result A :=
  Throw (EthersError INVALID_ARGUMENT message).

(** getBigInt: a number must be an integer within the safe range; a
    string goes through BigInt(), a leading "-" being peeled off first. *)
Definition getBigInt (value : BigNumberish) : Result Z :=
  match value with
  | BBigInt z => Ok z
  | BNumber n =>
      match n with
      | NInt z =>
          if (- MAX_SAFE_INTEGER <=? z) && (z <=? MAX_SAFE_INTEGER) then Ok z
          else invalid_argument "overflow"
      | _ => invalid_argument "underflow"
      end
  | BString s =>
      match s with
      | [] => invalid_argument "invalid BigNumberish string: empty string"
      | c0 :: r =>
          let second_is_minus := match r with c1 :: _ => c1 =? 45 | [] => false end in
          if (c0 =? 45) && negb second_is_minus then
            match StringToBigInt r with
            | Some z => Ok (- z)
            | None => invalid_argument "invalid BigNumberish string"
            end
          else
            match StringToBigInt s with
            | Some z => Ok z
            | None => invalid_argument "invalid BigNumberish string"
            end
      end
  end.

(** getUint: getBigInt, then the value must not be negative. *)
Definition getUint (value : BigNumberish) : Result Z :=
  result <- getBigInt value ;;
  if 0 <=? result then Ok result
  else Throw (EthersError NUMERIC_FAULT "unsigned value cannot be negative").

(** toBeHex(value), no width: the hexadecimal digits of the value, with a
    leading 0 when their number is odd, after "0x". *)
Definition toBeHex (value : BigNumberish) : Result JsString :=
  v <- getUint value ;;
  let result := BigInt_toString 16 v in
  let result := if (String_length result) mod 2 =? 0 then result else 48 :: result in
  Ok (js "0x" ++ result).

Definition is_hex_digit (c : Z) : bool :=
  ((48 <=? c) && (c <=? 57)) || ((97 <=? c) && (c <=? 102)) || ((65 <=? c) && (c <=? 70)).

(** [(?:[0-9a-f][0-9a-f])*$], case-insensitive. *)
Fixpoint hex_pairs (s : JsString) : bool :=
  match s with
  | [] => true
  | a :: b :: r => is_hex_digit a && is_hex_digit b && hex_pairs r
  | [_] => false
  end.

(** [value.match(/^0x(?:[0-9a-f][0-9a-f])*$/i)] *)
Definition matches_bytes_regex (value : JsString) : bool :=
  match value with
  | c0 :: c1 :: r => (c0 =? 48) && ((c1 =? 120) || (c1 =? 88)) && hex_pairs r
  | _ => false
  end.

(** [parseInt(c, 16)] of one hexadecimal digit. *)
Definition hex_value (c : Z) : Z :=
  match digit_value 16 c with Some d => d | None => 0 end.

(** The loop of getBytes: [parseInt(value.substring(offset, offset + 2), 16)]
    for each pair of digits. *)
Fixpoint parse_pairs (s : JsString) : list Z :=
  match s with
  | a :: b :: r => (16 * hex_value a + hex_value b) :: parse_pairs r
  | _ => []
  end.

Definition getBytes (value : BytesLike) : Result (list Z) :=
  match value with
  | BBytes b => Ok b
  | BHex s =>
      if matches_bytes_regex s then Ok (parse_pairs (slice 2 s))
      else invalid_argument "invalid BytesLike value"
  end.

Definition HexCharacters : JsString := js "0123456789abcdef".

Definition hex_char (i : Z) : Z := nth (Z.to_nat i) HexCharacters 0.

(** The two characters hexlify emits for the byte [v]. *)
Definition hex_of_byte (v : Z) : JsString :=
  [hex_char (Z.shiftr (Z.land v 0xf0) 4); hex_char (Z.land v 0x0f)].

Definition hexlify (data : BytesLike) : Result JsString :=
  bytes <- getBytes data ;;
  Ok (js "0x" ++ flat_map hex_of_byte bytes).

(** zeroPad(data, length, left): the bytes of [data] set into a zero-filled
    array of [length] bytes, at the right end when [left] is true. *)
Definition zeroPad (data : BytesLike) (length : Z) (left : bool) : Result JsString :=
  bytes <- getBytes data ;;
  if String_length bytes <=? length then
    let fill := repeat 0 (Z.to_nat (length - String_length bytes)) in
    hexlify (BBytes (if left then fill ++ bytes else bytes ++ fill))
  else Throw (EthersError BUFFER_OVERRUN "padding exceeds data length").

Definition zeroPadValue (data : BytesLike) (length : Z) : Result JsString :=
  zeroPad data length true.

Definition zeroPadBytes (data : BytesLike) (length : Z) : Result JsString :=
  zeroPad data length false.

(** The loop of toUtf8Bytes over the code units of the string; [result]
    is the array built so far. *)
Fixpoint toUtf8Bytes_loop (str : JsString) (result : list Z) : Result (list Z) :=
  match str with
  | [] => Ok result
  | c :: rest =>
      if c <? 0x80 then
        toUtf8Bytes_loop rest (result ++ [c])
      else if c <? 0x800 then
        toUtf8Bytes_loop rest
          (result ++ [Z.lor (Z.shiftr c 6) 0xc0; Z.lor (Z.land c 0x3f) 0x80])
      else if Z.land c 0xfc00 =? 0xd800 then
        match rest with
        | c2 :: rest' =>
            if Z.land c2 0xfc00 =? 0xdc00 then
              let pair := 0x10000 + Z.shiftl (Z.land c 0x03ff) 10 + Z.land c2 0x03ff in
              toUtf8Bytes_loop rest'
                (result ++ [Z.lor (Z.shiftr pair 18) 0xf0;
                            Z.lor (Z.land (Z.shiftr pair 12) 0x3f) 0x80;
                            Z.lor (Z.land (Z.shiftr pair 6) 0x3f) 0x80;
                            Z.lor (Z.land pair 0x3f) 0x80])
            else invalid_argument "invalid surrogate pair"
        | [] => invalid_argument "invalid surrogate pair"
        end
      else
        toUtf8Bytes_loop rest
          (result ++ [Z.lor (Z.shiftr c 12) 0xe0;
                      Z.lor (Z.land (Z.shiftr c 6) 0x3f) 0x80;
                      Z.lor (Z.land c 0x3f) 0x80])
  end.

(** [new Uint8Array(array)]: every element is reduced modulo 256. *)
Definition Uint8Array (array : list Z) : list Z :=
  map (fun v => v mod 256) array.

Definition toUtf8Bytes (str : JsString) : Result (list Z) :=
  result <- toUtf8Bytes_loop str [] ;;
  Ok (Uint8Array result).

(** ** keccak256 (crypto/keccak): Keccak-f[1600] with rate 136 and the
    0x01 ... 0x80 padding. *)

Definition mask64 : Z := 0xFFFFFFFFFFFFFFFF.

Definition rotl64 (x n : Z) : Z :=
  Z.land (Z.lor (Z.shiftl x n) (Z.shiftr x (64 - n))) mask64.

Definition lane (A : list Z) (x y : nat) : Z := nth (x + 5 * y) A 0.

Definition keccak_rotations : list Z :=
  [ 0;  1; 62; 28; 27;
   36; 44;  6; 55; 20;
    3; 10; 43; 25; 39;
   41; 45; 15; 21;  8;
   18;  2; 61; 56; 14].

Definition keccak_round_constants : list Z :=
  [0x0000000000000001; 0x0000000000008082; 0x800000000000808A; 0x8000000080008000;
   0x000000000000808B; 0x0000000080000001; 0x8000000080008081; 0x8000000000008009;
   0x000000000000008A; 0x0000000000000088; 0x0000000080008009; 0x000000008000000A;
   0x000000008000808B; 0x800000000000008B; 0x8000000000008089; 0x8000000000008003;
   0x8000000000008002; 0x8000000000000080; 0x000000000000800A; 0x800000008000000A;
   0x8000000080008081; 0x8000000000008080; 0x0000000080000001; 0x8000000080008008].

Definition keccak_theta (A : list Z) : list Z :=
  let C := fun x => Z.lxor (lane A x 0) (Z.lxor (lane A x 1)
             (Z.lxor (lane A x 2) (Z.lxor (lane A x 3) (lane A x 4)))) in
  let D := fun x => Z.lxor (C ((x + 4) mod 5)%nat) (rotl64 (C ((x + 1) mod 5)%nat) 1) in
  map (fun i => Z.lxor (nth i A 0) (D (i mod 5)%nat)) (seq 0 25).

Definition keccak_rho_pi (A : list Z) : list Z :=
  map (fun i =>
         let X := (i mod 5)%nat in
         let Y := (i / 5)%nat in
         let x := ((X + 3 * Y) mod 5)%nat in
         rotl64 (lane A x X) (nth (x + 5 * X) keccak_rotations 0))
      (seq 0 25).

Definition keccak_chi (B : list Z) : list Z :=
  map (fun i =>
         let x := (i mod 5)%nat in
         let y := (i / 5)%nat in
         Z.lxor (lane B x y)
           (Z.land (Z.lxor (lane B ((x + 1) mod 5)%nat y) mask64)
                   (lane B ((x + 2) mod 5)%nat y)))
      (seq 0 25).

Definition keccak_iota (rc : Z) (A : list Z) : list Z :=
  match A with
  | a :: rest => Z.lxor a rc :: rest
  | [] => []
  end.

Definition keccak_f (A : list Z) : list Z :=
  fold_left (fun st rc => keccak_iota rc (keccak_chi (keccak_rho_pi (keccak_theta st))))
            keccak_round_constants A.

(** The lane held by eight bytes, least significant first. *)
Fixpoint lane_of_bytes (bs : list Z) : Z :=
  match bs with
  | [] => 0
  | b :: r => b + 256 * lane_of_bytes r
  end.

Fixpoint bytes_of_lane (n : nat) (l : Z) : list Z :=
  match n with
  | O => []
  | S n' => (l mod 256) :: bytes_of_lane n' (l / 256)
  end.

Fixpoint lanes_of_block (n : nat) (block : list Z) : list Z :=
  match n with
  | O => []
  | S n' => lane_of_bytes (firstn 8 block) :: lanes_of_block n' (skipn 8 block)
  end.

Fixpoint xor_lanes (st block : list Z) : list Z :=
  match st, block with
  | a :: st', b :: block' => Z.lxor a b :: xor_lanes st' block'
  | _, [] => st
  | [], _ => []
  end.

Fixpoint keccak_absorb (blocks : nat) (data st : list Z) : list Z :=
  match blocks with
  | O => st
  | S n =>
      keccak_absorb n (skipn 136 data)
        (keccak_f (xor_lanes st (lanes_of_block 17 (firstn 136 data))))
  end.

Definition keccak_pad (data : list Z) : list Z :=
  let q := (136 - (List.length data) mod 136)%nat in
  if (q =? 1)%nat then data ++ [0x81]
  else data ++ [0x01] ++ repeat 0 (q - 2) ++ [0x80].

(** The 32 bytes of the Keccak-256 digest. *)
Definition keccak256_bytes (data : list Z) : list Z :=
  let padded := keccak_pad data in
  let st := keccak_absorb (List.length padded / 136) padded (repeat 0 25%nat) in
  flat_map (bytes_of_lane 8) (firstn 4 st).

Definition keccak256 (data : BytesLike) : Result JsString :=
  bytes <- getBytes data ;;
  hexlify (BBytes (keccak256_bytes bytes)).

(** ** getAddress (address/address) *)

Definition toLowerCase_char (c : Z) : Z :=
  if (65 <=? c) && (c <=? 90) then c + 32 else c.

Definition toUpperCase_char (c : Z) : Z :=
  if (97 <=? c) && (c <=? 122) then c - 32 else c.

(** The loop of getChecksumAddress: the two characters of a byte of the
    address are upper-cased when the matching nibble of the hash is 8 or more. *)
Fixpoint checksum_chars (chars hashed : list Z) : list Z :=
  match chars, hashed with
  | c0 :: c1 :: chars', h :: hashed' =>
      (if 8 <=? Z.shiftr h 4 then toUpperCase_char c0 else c0)
      :: (if 8 <=? Z.land h 0x0f then toUpperCase_char c1 else c1)
      :: checksum_chars chars' hashed'
  | _, _ => chars
  end.

Definition getChecksumAddress (address : JsString) : JsString :=
  let address := map toLowerCase_char address in
  let chars := slice 2 address in
  let expanded := firstn 40 chars in
  let hashed := keccak256_bytes expanded in
  js "0x" ++ checksum_chars chars (firstn 20 hashed).

(** [/^(0x)?[0-9a-fA-F]{40}$/] *)
Definition matches_address_regex (address : JsString) : bool :=
  let digits40 := fun s => (List.length s =? 40)%nat && forallb is_hex_digit s in
  digits40 address || (startsWith (js "0x") address && digits40 (slice 2 address)).

(** [/([A-F].*[a-f])|([a-f].*[A-F])/] on a string without line breaks:
    an upper-case and a lower-case hexadecimal letter both occur. *)
Definition matches_mixed_case_regex (address : JsString) : bool :=
  existsb (fun c => (65 <=? c) && (c <=? 70)) address
  && existsb (fun c => (97 <=? c) && (c <=? 102)) address.

Definition is_decimal_digit (c : Z) : bool := (48 <=? c) && (c <=? 57).

Definition is_alphanumeric (c : Z) : bool :=
  is_decimal_digit c || ((65 <=? c) && (c <=? 90)) || ((97 <=? c) && (c <=? 122)).

(** [/^XE[0-9]{2}[0-9A-Za-z]{30,31}$/] *)
Definition matches_icap_regex (address : JsString) : bool :=
  match address with
  | 88 :: 69 :: d0 :: d1 :: rest =>
      is_decimal_digit d0 && is_decimal_digit d1
      && ((List.length rest =? 30)%nat || (List.length rest =? 31)%nat)
      && forallb is_alphanumeric rest
  | _ => false
  end.

(** [ibanLookup[c]]: a digit stands for itself, a letter for 10 to 35. *)
Definition ibanLookup (c : Z) : JsString :=
  if is_decimal_digit c then [c] else BigInt_toString 10 (c - 55).

(** The while loop of ibanChecksum: the first 15 digits are replaced by
    their value modulo 97 as long as 15 digits or more remain. *)
Fixpoint iban_reduce (fuel : nat) (expanded : JsString) : JsString :=
  match fuel with
  | O => expanded
  | S f =>
      if 15 <=? String_length expanded then
        let block := substring 0 15 expanded in
        let value := match parse_digits 10 block 0 with Some v => v | None => 0 end in
        iban_reduce f (BigInt_toString 10 (value mod 97) ++ slice 15 expanded)
      else expanded
  end.

Definition ibanChecksum (address : JsString) : JsString :=
  let address := map toUpperCase_char address in
  let address := slice 4 address ++ substring 0 2 address ++ js "00" in
  let expanded := flat_map ibanLookup address in
  let expanded := iban_reduce (List.length expanded) expanded in
  let value := match parse_digits 10 expanded 0 with Some v => v | None => 0 end in
  let checksum := BigInt_toString 10 (98 - value mod 97) in
  if String_length checksum <? 2 then 48 :: checksum else checksum.

Definition hex_value_36 (c : Z) : Z :=
  match digit_value 36 c with Some d => d | None => 0 end.

Definition fromBase36 (value : JsString) : Z :=
  fold_left (fun result c => result * 36 + hex_value_36 c) (map toLowerCase_char value) 0.

Definition getAddress (address : JsString) : Result JsString :=
  if matches_address_regex address then
    let address := if startsWith (js "0x") address then address else js "0x" ++ address in
    let result := getChecksumAddress address in
    if negb (matches_mixed_case_regex address) || string_eqb result address
    then Ok result
    else invalid_argument "bad address checksum"
  else if matches_icap_regex address then
    if string_eqb (substring 2 4 address) (ibanChecksum address) then
      let result := BigInt_toString 16 (fromBase36 (slice 4 address)) in
      let result := repeat 48 (40 - List.length result) ++ result in
      Ok (getChecksumAddress (js "0x" ++ result))
    else invalid_argument "bad icap checksum"
  else invalid_argument "invalid address".

End ethers.

(* ===================================================================== *)
(** * Part 3: src/utils/encoding.js                                       *)
(* ===================================================================== *)

Module EncodingUtils.
Import ethers.

(** The object [{ lengthHex, paddedData }]. *)
Record EncodedString := { lengthHex : JsString; paddedData : JsString }.

Definition encodeAddress (addr : JsString) : Result JsString :=
  padded <- zeroPadValue (BHex addr) 32 ;;
  hex <- hexlify (BHex padded) ;;
  Ok (slice 2 hex).

Definition encodeUint (value : BigNumberish) : Result JsString :=
  be <- toBeHex value ;;
  padded <- zeroPadValue (BHex be) 32 ;;
  hex <- hexlify (BHex padded) ;;
  Ok (slice 2 hex).

(** [Math.ceil(n / 32) * 32] for an array length [n]. *)
Definition ceil32 (n : Z) : Z := ((n + 31) / 32) * 32.

Definition encodeString (str : JsString) : Result EncodedString :=
  bytes <- toUtf8Bytes str ;;
  padded <- zeroPadBytes (BBytes bytes) (ceil32 (String_length bytes)) ;;
  lengthHex <- encodeUint (BNumber (NInt (String_length bytes))) ;;
  hex <- hexlify (BHex padded) ;;
  Ok {| lengthHex := lengthHex; paddedData := slice 2 hex |}.

Definition encodeBytes (bytes : list Z) : Result JsString :=
  hex <- hexlify (BBytes bytes) ;;
  Ok (slice 2 hex).

Definition encodeBool (value : bool) : Result JsString :=
  encodeUint (BNumber (NInt (if value then 1 else 0))).

End EncodingUtils.

(* ===================================================================== *)
(** * Part 4: utils/validation.js and utils/helpers.js                    *)
(* ===================================================================== *)

Module ValidationUtils.

(** [try { ethers.getAddress(address); return true } catch { return false }] *)
Definition isValidAddress (address : JsString) : bool :=
  match ethers.getAddress address with
  | Ok _ => true
  | Throw _ => false
  end.

(** [chainId && chainId > 0 && Number.isInteger(chainId)], as a truth value. *)
Definition isValidChainId (chainId : JsNumber) : bool :=
  Number_truthy chainId && negb (Number_le0 chainId) && Number_isInteger chainId.

End ValidationUtils.

Module Helpers.

(** A piece of a template literal: text, or an interpolated number. *)
Inductive Part :=
| Text (s : JsString)
| Num (n : JsNumber).

(** The second argument of [Helpers.log]: a level name, or, where a call
    passes the caught error in that position, the error. *)
Inductive LogType :=
| TypeName (s : JsString)
| TypeOf (e : JsError).

(** A line written to the console: the time read from the clock, the
    type and the message (colours are left out). *)
Record LogLine := { timestamp : Z; type : LogType; message : list Part }.

(** What a call can observe or change outside its arguments: the clock
    ([clock n] is the n-th reading of [new Date()]) and the console. *)
Record World := { clock : nat -> Z; readings : nat; console : list LogLine }.

Definition isValidAddress (address : JsString) : bool :=
  ValidationUtils.isValidAddress address.

(** [Helpers.log(message, type)]: reads the clock, writes one line. *)
Definition log (message : list Part) (type : LogType) (w : World) : World :=
  {| clock := clock w;
     readings := S (readings w);
     console := console w ++ [{| timestamp := clock w (readings w);
                                 type := type;
                                 message := message |}] |}.

End Helpers.

(* ===================================================================== *)
(** * Part 5: features/bridge/calldata-builder.js                         *)
(* ===================================================================== *)

Module BridgeCalldataBuilder.
Import ethers EncodingUtils Helpers.

(** The wrench emoji that opens the log line, U+1F527. *)
Definition built_message (destChainId : JsNumber) : list Part :=
  [Text ([0xD83D; 0xDD27] ++ js " Built bridge calldata for chain "); Num destChainId].

Definition buildBridgeCalldata
    (destChainId : JsNumber) (tokenAddress amountWei feeOrGas extraString : JsString)
    (w : World) : Result JsString * World :=
  let attempt :=
    let selector := js "0x7ae4a8ff" in
    encodedDest <- encodeUint (BNumber destChainId) ;;
    encodedOffset <- encodeUint (BNumber (NInt 0xa0)) ;;
    encodedToken <- encodeAddress tokenAddress ;;
    encodedAmount <- encodeUint (BString amountWei) ;;
    encodedFee <- encodeUint (BString feeOrGas) ;;
    encodedExtra <- encodeString extraString ;;
    let encodedLength := lengthHex encodedExtra in
    let encodedData := paddedData encodedExtra in
    Ok (selector ++ encodedDest ++ encodedOffset ++ encodedToken ++ encodedAmount
        ++ encodedFee ++ encodedLength ++ encodedData) in
  match attempt with
  | Ok calldata => (Ok calldata, log (built_message destChainId) (TypeName (js "INFO")) w)
  | Throw error =>
      (Throw error, log [Text (js "Failed to build bridge calldata")] (TypeOf error) w)
  end.

(** [errors.push(m)] when the test holds. *)
Definition push_if (test : bool) (m : JsString) (errors : list JsString) : list JsString :=
  if test then errors ++ [m] else errors.

Definition validateBridgeParams
    (destChainId : JsNumber) (tokenAddress amountWei feeOrGas extraString : JsString)
    : Result bool :=
  let errors := [] in
  let errors := push_if (negb (Number_truthy destChainId) || Number_le0 destChainId)
                  (js "Invalid destination chain ID") errors in
  let errors := push_if (negb (isValidAddress tokenAddress))
                  (js "Invalid token address") errors in
  badAmount <- (if negb (String_truthy amountWei) then Ok true
                else v <- BigInt_of_string amountWei ;; Ok (v <=? 0)) ;;
  let errors := push_if badAmount (js "Invalid amount") errors in
  badFee <- (if negb (String_truthy feeOrGas) then Ok true
             else v <- BigInt_of_string feeOrGas ;; Ok (v <? 0)) ;;
  let errors := push_if badFee (js "Invalid fee/gas amount") errors in
  let errors := push_if (negb (String_truthy extraString)
                         || negb (startsWith (js "0x") extraString))
                  (js "Invalid extra string (must be hex address)") errors in
  if (0 <? List.length errors)%nat then
    Throw (Error (js "Bridge validation failed: " ++ join (js ", ") errors))
  else Ok true.

End BridgeCalldataBuilder.

(* ===================================================================== *)
(** * Part 6: features/delegation/calldata-builder.js                     *)
(* ===================================================================== *)

Module DelegationCalldataBuilder.
Import ethers EncodingUtils.

(** The fields of an instance. *)
Record t := {
  TARGET_CONTRACT : JsString;
  DELEGATE_SELECTOR : JsString;
  CLAIM_SELECTOR : JsString
}.

(** [new DelegationCalldataBuilder()]; the argument stands for
    [DELEGATION_CONFIG.TARGET_CONTRACT], whose file is not part of the
    sources at hand. *)
Definition new (target : JsString) : t :=
  {| TARGET_CONTRACT := target;
     DELEGATE_SELECTOR := js "f5e56040";
     CLAIM_SELECTOR := js "2efe8a5f" |}.

(** [denom = "ahelios"]: the default applies when the argument is left out. *)
Definition buildDelegationCalldata (this : t)
    (delegator validator amount : JsString) (denom : option JsString)
    : Result JsString :=
  let denom := match denom with Some d => d | None => js "ahelios" end in
  encodedDelegator <- encodeAddress delegator ;;
  encodedValidator <- encodeAddress validator ;;
  encodedAmount <- encodeUint (BString amount) ;;
  encodedOffset <- encodeUint (BNumber (NInt 128)) ;;
  encodedString <- encodeString denom ;;
  let calldata := js "0x" ++ DELEGATE_SELECTOR this ++ encodedDelegator
                  ++ encodedValidator ++ encodedAmount ++ encodedOffset
                  ++ lengthHex encodedString ++ paddedData encodedString in
  Ok calldata.

(** The second argument of buildClaimCalldata: a string or a number. *)
Inductive AmountOrId :=
| IdString (s : JsString)
| IdNumber (n : JsNumber).

Section Claim.

(** Number.prototype.toString on a number that is not a safe integer
    (shortest round-trip digits, exponent notation): not modelled, every
    result below holds whatever it returns. *)
Variable inexact_toString : JsNumber -> JsString.

(** [claimAmountOrId.toString()] *)
Definition toString (v : AmountOrId) : JsString :=
  match v with
  | IdString s => s
  | IdNumber n => Number_toString inexact_toString n
  end.

Definition buildClaimCalldata (this : t)
    (delegator : JsString) (claimAmountOrId : AmountOrId) : Result JsString :=
  encodedDelegator <- encodeAddress delegator ;;
  encodedAmount <- encodeUint (BString (toString claimAmountOrId)) ;;
  let calldata := js "0x" ++ CLAIM_SELECTOR this ++ encodedDelegator ++ encodedAmount in
  Ok calldata.

End Claim.

Definition getTargetContract (this : t) : JsString := TARGET_CONTRACT this.

End DelegationCalldataBuilder.

(* ===================================================================== *)
(** * Part 7: features/governance/governance-service.js                   *)
(* ===================================================================== *)

Module GovernanceService.
Import ethers.
Import EncodingUtils (EncodedString, Build_EncodedString, lengthHex, paddedData, ceil32).

(** The fields of an instance that are plain data (the provider and the
    signer are handles on the network and are not read by the builders). *)
Record t := {
  isInitialized : bool;
  wallet : option JsString;      (* address of the connected wallet *)
  apiUrl : JsString
}.

Definition encodeAddress (this : t) (addr : JsString) : Result JsString :=
  padded <- zeroPadValue (BHex addr) 32 ;;
  hex <- hexlify (BHex padded) ;;
  Ok (slice 2 hex).

Definition encodeUint (this : t) (value : BigNumberish) : Result JsString :=
  be <- toBeHex value ;;
  padded <- zeroPadValue (BHex be) 32 ;;
  hex <- hexlify (BHex padded) ;;
  Ok (slice 2 hex).

Definition encodeBool (this : t) (value : bool) : Result JsString :=
  encodeUint this (BNumber (NInt (if value then 1 else 0))).

Definition encodeString (this : t) (str : JsString) : Result EncodedString :=
  bytes <- toUtf8Bytes str ;;
  be <- toBeHex (BNumber (NInt (String_length bytes))) ;;
  paddedLength <- zeroPadValue (BHex be) 32 ;;
  lengthHex <- hexlify (BHex paddedLength) ;;
  padded <- zeroPadBytes (BBytes bytes) (ceil32 (String_length bytes)) ;;
  paddedData <- hexlify (BHex padded) ;;
  Ok {| lengthHex := slice 2 lengthHex; paddedData := slice 2 paddedData |}.

Definition buildVoteCalldata (this : t)
    (voter : JsString) (proposalId : JsNumber) (support : bool) (reason : JsString)
    : Result JsString :=
  let selector := js "9ec4d363" in
  encodedVoter <- encodeAddress this voter ;;
  encodedProposalId <- encodeUint this (BNumber proposalId) ;;
  encodedSupport <- encodeBool this support ;;
  offsetToString <- encodeUint this (BNumber (NInt 128)) ;;
  encodedString <- encodeString this reason ;;
  let calldata := selector ++ encodedVoter ++ encodedProposalId ++ encodedSupport
                  ++ offsetToString ++ lengthHex encodedString
                  ++ paddedData encodedString in
  Ok (js "0x" ++ calldata).

Section CreateProposal.

(** The array of message objects and [JSON.stringify] on it are taken as
    given: the built-in either throws, or returns a string or undefined
    ([None]). *)
Variable Messages : Type.
Variable JSON_stringify : Messages -> Result (option JsString).

Definition encodeMessagesArray (this : t) (messages : Messages) : Result EncodedString :=
  messagesJson <- JSON_stringify messages ;;
  bytes <- match messagesJson with
           | Some str => toUtf8Bytes str
           | None => invalid_argument "invalid string value"
           end ;;
  be <- toBeHex (BNumber (NInt (String_length bytes))) ;;
  paddedLength <- zeroPadValue (BHex be) 32 ;;
  lengthHex <- hexlify (BHex paddedLength) ;;
  padded <- zeroPadBytes (BBytes bytes) (ceil32 (String_length bytes)) ;;
  paddedData <- hexlify (BHex padded) ;;
  Ok {| lengthHex := slice 2 lengthHex; paddedData := slice 2 paddedData |}.

(** The three offsets computed at the head of buildCreateProposalCalldata;
    [title.length] and [description.length] count UTF-16 code units. *)
Definition titleOffset : Z := 160.

Definition descriptionOffset (title : JsString) : Z :=
  titleOffset + 32 + ceil32 (String_length title).

Definition messagesOffset (title description : JsString) : Z :=
  descriptionOffset title + 32 + ceil32 (String_length description).

Definition buildCreateProposalCalldata (this : t)
    (title description : JsString) (messages : Messages) (deposit : JsString)
    : Result JsString :=
  let selector := js "cb0dddfe" in
  encodedTitleOffset <- encodeUint this (BNumber (NInt titleOffset)) ;;
  encodedDescriptionOffset <- encodeUint this (BNumber (NInt (descriptionOffset title))) ;;
  encodedMessagesOffset <-
    encodeUint this (BNumber (NInt (messagesOffset title description))) ;;
  encodedDeposit <- encodeUint this (BString deposit) ;;
  encodedProposer <-
    encodeAddress this (js "0x0000000000000000000000000000000000000000") ;;
  encodedTitle <- encodeString this title ;;
  encodedDescription <- encodeString this description ;;
  encodedMessages <- encodeMessagesArray this messages ;;
  let calldata := selector ++ encodedTitleOffset ++ encodedDescriptionOffset
                  ++ encodedMessagesOffset ++ encodedDeposit ++ encodedProposer
                  ++ lengthHex encodedTitle ++ paddedData encodedTitle
                  ++ lengthHex encodedDescription ++ paddedData encodedDescription
                  ++ lengthHex encodedMessages ++ paddedData encodedMessages in
  Ok (js "0x" ++ calldata).

End CreateProposal.

End GovernanceService.

(* ===================================================================== *)
(** * Part 8: features/bridge/bridge-service.js and config/bridge-config.js *)
(* ===================================================================== *)

Module BridgeService.
Import Helpers.

(** An entry of [supportedChains]. *)
Record Chain := { chain_key : Z; chain_name : JsString }.

(** [BRIDGE_CONFIGS['helios-testnet']], the fields read below. *)
Record Config := {
  bridgeContract : JsString;
  chainId : Z;
  supportedChains : list Chain;
  gasLimit_default : Z
}.

Definition helios_testnet : Config :=
  {| bridgeContract := js "0x0000000000000000000000000000000000000900";
     chainId := 42000;
     supportedChains := [ {| chain_key := 11155111; chain_name := js "Sepolia" |};
                          {| chain_key := 137; chain_name := js "Polygon" |};
                          {| chain_key := 56; chain_name := js "BSC" |} ];
     gasLimit_default := 1500000 |}.

(** [config.supportedChains[destChainId]], as a truth value: the property
    named by the number exists. *)
Definition supported (config : Config) (destChainId : JsNumber) : bool :=
  match destChainId with
  | NInt z => existsb (fun c => chain_key c =? z) (supportedChains config)
  | _ => false
  end.

Record BridgeParams := {
  destChainId : JsNumber;
  tokenAddress : JsString;
  amountWei : JsString;
  feeOrGas : JsString;
  extraString : JsString;
  gasLimit : option Z
}.

Section Service.

(** The signer, the receipt of a confirmed transaction and the network
    round trip of bridgeTokens (gas estimation, the progress line,
    [wallet.sendTransaction], [tx.wait]) are taken as given. *)
Variable Wallet : Type.
Variable Receipt : Type.
Variable sendTransaction :
  Wallet -> Config -> JsString -> BridgeParams -> World -> Result Receipt * World.
Variable inexact_toString : JsNumber -> JsString.

Record t := {
  config : Config;
  isInitialized : bool;
  wallet : option Wallet
}.

(** The object bridgeTokens resolves to; [Failure error] stands for
    [{ success: false, error: error.message }]. *)
Inductive BridgeResult :=
| Success (receipt : Receipt) (destChainId : JsNumber) (amount : JsString)
| Failure (error : JsError).

Definition bridgeTokens (this : t) (params : BridgeParams) (w : World)
    : Result BridgeResult * World :=
  if negb (isInitialized this) then (Throw (Error (js "Bridge Service not initialized")), w)
  else
    match wallet this with
    | None => (Throw (Error (js "Wallet not connected")), w)
    | Some signer =>
        let attempt :=
          match BridgeCalldataBuilder.validateBridgeParams (destChainId params)
                  (tokenAddress params) (amountWei params) (feeOrGas params)
                  (extraString params) with
          | Throw error => (Throw error, w)
          | Ok _ =>
              if negb (supported (config this) (destChainId params)) then
                (Throw (Error (js "Unsupported destination chain: "
                               ++ Number_toString inexact_toString (destChainId params))), w)
              else
                match BridgeCalldataBuilder.buildBridgeCalldata (destChainId params)
                        (tokenAddress params) (amountWei params) (feeOrGas params)
                        (extraString params) w with
                | (Throw error, w1) => (Throw error, w1)
                | (Ok calldata, w1) =>
                    sendTransaction signer (config this) calldata params w1
                end
          end in
        match attempt with
        | (Ok receipt, w') =>
            (Ok (Success receipt (destChainId params) (amountWei params)), w')
        | (Throw error, w') =>
            (Ok (Failure error),
             log [Text (js "Bridge transaction failed")] (TypeOf error) w')
        end
    end.

(** The object estimateBridgeGas resolves to and its two calls on the
    provider ([estimateGas] on the transaction and [getFeeData]) are taken
    as given. *)
Variable GasEstimate : Type.
Variable estimateGas : t -> JsString -> World -> Result GasEstimate * World.


End Service.

End BridgeService.

(* ===================================================================== *)
(** * Part 9: notions the statements below are phrased with               *)
(* ===================================================================== *)

Module Spec.
Import ethers.

(** ** UTF-8, after the Unicode standard *)

(** The code points of a UTF-16 string; [None] when a surrogate is
    unpaired or a unit is no 16-bit value. *)
Fixpoint utf16_decode (s : JsString) : option (list Z) :=
  match s with
  | [] => Some []
  | c :: rest =>
      if (0 <=? c) && (c <? 0xD800) || (0xE000 <=? c) && (c <? 0x10000) then
        option_map (cons c) (utf16_decode rest)
      else if (0xD800 <=? c) && (c <? 0xDC00) then
        match rest with
        | c2 :: rest' =>
            if (0xDC00 <=? c2) && (c2 <? 0xE000) then
              option_map (cons (0x10000 + (c - 0xD800) * 0x400 + (c2 - 0xDC00)))
                         (utf16_decode rest')
            else None
        | [] => None
        end
      else None
  end.

(** The UTF-8 bytes of one code point. *)
Definition utf8_of_code_point (cp : Z) : list Z :=
  if cp <? 0x80 then [cp]
  else if cp <? 0x800 then [0xC0 + cp / 64; 0x80 + cp mod 64]
  else if cp <? 0x10000 then
    [0xE0 + cp / 4096; 0x80 + (cp / 64) mod 64; 0x80 + cp mod 64]
  else
    [0xF0 + cp / 262144; 0x80 + (cp / 4096) mod 64;
     0x80 + (cp / 64) mod 64; 0x80 + cp mod 64].

(** The UTF-8 bytes of a string, when it is well-formed UTF-16. *)
Definition utf8 (s : JsString) : option (list Z) :=
  option_map (flat_map utf8_of_code_point) (utf16_decode s).

(** [n] rounded up to a multiple of 32. *)
Definition roundUpTo32 (n : Z) : Z := 32 * ((n + 31) / 32).

(** ** Words and hex strings *)

(** The lower-case hexadecimal digits. *)
Definition is_lower_hex (c : Z) : bool :=
  ((48 <=? c) && (c <=? 57)) || ((97 <=? c) && (c <=? 102)).

(** A 20-byte hex address: "0x" and forty hexadecimal digits. *)
Definition is_address (a : JsString) : bool :=
  startsWith (js "0x") a && (List.length a =? 42)%nat && forallb is_hex_digit (slice 2 a).

(** A hex string of [n] bytes: "0x" (or "0X") and [2 * n] hexadecimal digits. *)
Definition is_hex_of_bytes (n : nat) (a : JsString) : bool :=
  matches_bytes_regex a && (List.length a =? 2 + 2 * n)%nat.

(** The word that holds [v]: 64 lower-case hexadecimal digits, most
    significant first. *)
Definition word_of (v : Z) : JsString :=
  let ds := digits 16 v in
  repeat 48 (64 - List.length ds) ++ map digit_char ds.

(** The integer a word of hexadecimal digits stands for. *)
Definition decode_word (w : JsString) : Result Z := BigInt_of_string (js "0x" ++ w).

(** The hexadecimal text of a byte sequence, two lower-case digits a byte. *)
Definition hex_of_bytes (bs : list Z) : JsString := flat_map hex_of_byte bs.

(** The parameter area of a calldata string: what follows "0x" and the
    eight digits of the selector. *)
Definition parameter_area (calldata : JsString) : JsString := skipn 10 calldata.

(** The digits of the parameter area from byte offset [n] on. *)
Definition from_byte (n : Z) (area : JsString) : JsString := skipn (Z.to_nat (2 * n)) area.

(** The word that starts at byte offset [n] of the parameter area. *)
Definition word_at (n : Z) (area : JsString) : JsString := firstn 64 (from_byte n area).

(** ** The constraints of bridge validation, as the code tests them *)

(** BigInt(s) of a non-empty string compared with 0 by [test]; true for
    the empty string. *)
Definition amount_fails (test : Z -> bool) (s : JsString) : bool :=
  match s with
  | [] => true
  | _ => match StringToBigInt s with Some v => test v | None => false end
  end.

(** The messages of the checks that fail, in the order of the checks. *)
Definition violations
    (destChainId : JsNumber) (tokenAddress amountWei feeOrGas extraString : JsString)
    : list JsString :=
  (if negb (Number_truthy destChainId) || Number_le0 destChainId
   then [js "Invalid destination chain ID"] else [])
  ++ (if negb (Helpers.isValidAddress tokenAddress)
      then [js "Invalid token address"] else [])
  ++ (if amount_fails (fun v => v <=? 0) amountWei then [js "Invalid amount"] else [])
  ++ (if amount_fails (fun v => v <? 0) feeOrGas then [js "Invalid fee/gas amount"] else [])
  ++ (if negb (startsWith (js "0x") extraString)
      then [js "Invalid extra string (must be hex address)"] else []).

(** A string BigInt() accepts (the empty string is one, and stands for 0). *)
Definition numeric (s : JsString) : Prop :=
  exists v, StringToBigInt s = Some v.

(** The error zeroPad throws when the data is longer than the width. *)
Definition padding_error : JsError :=
  EthersError BUFFER_OVERRUN "padding exceeds data length".

(** The hexadecimal digits toBeHex emits after "0x": those of [v], with a
    leading 0 when their number is odd. *)
Definition even_hex (v : Z) : JsString :=
  let h := map digit_char (digits 16 v) in
  if String_length h mod 2 =? 0 then h else 48 :: h.

(** A decimal digit character. *)
Definition decimal_char (c : Z) : Prop := 48 <= c <= 57.

(** The bytes one turn of the loop of toUtf8Bytes appends for a code unit
    that does not open a surrogate pair, and for a surrogate pair. *)
Definition unit_bytes (c : Z) : list Z :=
  if c <? 0x80 then [c]
  else if c <? 0x800 then [Z.lor (Z.shiftr c 6) 0xc0; Z.lor (Z.land c 0x3f) 0x80]
  else [Z.lor (Z.shiftr c 12) 0xe0;
        Z.lor (Z.land (Z.shiftr c 6) 0x3f) 0x80;
        Z.lor (Z.land c 0x3f) 0x80].

Definition pair_bytes (c c2 : Z) : list Z :=
  let pair := 0x10000 + Z.shiftl (Z.land c 0x03ff) 10 + Z.land c2 0x03ff in
  [Z.lor (Z.shiftr pair 18) 0xf0;
   Z.lor (Z.land (Z.shiftr pair 12) 0x3f) 0x80;
   Z.lor (Z.land (Z.shiftr pair 6) 0x3f) 0x80;
   Z.lor (Z.land pair 0x3f) 0x80].

(** A word as the encoders return it: 64 lower-case hexadecimal digits. *)
Definition is_word (w : JsString) : Prop :=
  List.length w = 64%nat /\ forallb is_lower_hex w = true.

(** The value of a digit list, least significant first. *)
Fixpoint value_le (radix : Z) (ds : list Z) : Z :=
  match ds with
  | [] => 0
  | d :: r => d + radix * value_le radix r
  end.

(** ** Inputs of the kind the bot passes, used in the examples *)

Definition world0 : Helpers.World :=
  {| Helpers.clock := fun n => Z.of_nat n + 1700000000000;
     Helpers.readings := 0;
     Helpers.console := [] |}.

Definition token_HLS : JsString := js "0xd4949664cd82660aae99bedc034a0dea8a0bd517".

Definition recipient : JsString := js "0x8ba1f109551bD432803012645Ac136ddd64DBA72".

Definition validator : JsString := js "0x5aAeb6053F3E94C9b9A09f33669435E7Ef1BeAed".

Definition governance0 : GovernanceService.t :=
  {| GovernanceService.isInitialized := true;
     GovernanceService.wallet := Some recipient;
     GovernanceService.apiUrl := js "https://testnet1.helioschainlabs.org/" |}.

Definition delegation0 : DelegationCalldataBuilder.t :=
  DelegationCalldataBuilder.new (js "0x0000000000000000000000000000000000000800").

(** A bridge service with a signer and a network that confirms every
    transaction, and two parameter objects. *)
Definition service0 : BridgeService.t unit :=
  {| BridgeService.config := BridgeService.helios_testnet;
     BridgeService.isInitialized := true;
     BridgeService.wallet := Some tt |}.

Definition send0 (signer : unit) (c : BridgeService.Config) (calldata : JsString)
    (params : BridgeService.BridgeParams) (w : Helpers.World)
    : Result unit * Helpers.World := (Ok tt, w).

Definition bridge_params (amountWei : JsString) : BridgeService.BridgeParams :=
  {| BridgeService.destChainId := NInt 11155111;
     BridgeService.tokenAddress := token_HLS;
     BridgeService.amountWei := amountWei;
     BridgeService.feeOrGas := js "500000000000000000";
     BridgeService.extraString := recipient;
     BridgeService.gasLimit := None |}.

(** A title the generator of utils/helpers.js can return (its first
    format, first emoji entry, "Streamline", "Transaction"): the emoji entry
    is the four characters U+00F0 U+0178 U+0161 U+20AC in the source file,
    so the title has 32 code units and 37 UTF-8 bytes. *)
Definition generated_title : JsString :=
  [0xF0; 0x178; 0x161; 0x20AC] ++ js " Streamline Transaction #123".

(** A description the generator can return (its second format). *)
Definition generated_description : JsString := js "Update fee settings for better speed".

(** The offsets as the specification words them, on UTF-8 byte lengths. *)
Definition byteLength (s : JsString) : Z :=
  match utf8 s with Some bs => String_length bs | None => 0 end.

Definition spec_descriptionOffset (title : JsString) : Z :=
  160 + 32 + roundUpTo32 (byteLength title).

Definition spec_messagesOffset (title description : JsString) : Z :=
  spec_descriptionOffset title + 32 + roundUpTo32 (byteLength description).

(** A string of ASCII characters only. *)
Definition ascii_only (s : JsString) : bool :=
  forallb (fun c => (0 <=? c) && (c <? 0x80)) s.

(** Forty hexadecimal digits without upper-case letters. *)
Definition lower_hex40 (h : JsString) : bool :=
  (List.length h =? 40)%nat && forallb is_lower_hex h.





(** Number.prototype.toString on the integers between 2^53 and 10^21
    whose shortest decimal text is the integer itself, as for 2^53. *)
Definition decimal_toString (n : JsNumber) : JsString :=
  match n with
  | NInt z => BigInt_toString 10 z
  | _ => []
  end.




End Spec.

(* ===================================================================== *)
(** * Part 10: lemmas on digits and hexadecimal text                      *)
(* ===================================================================== *)

Import ethers EncodingUtils Spec.

(** A boolean property checked on 0 .. n-1 holds on that range. *)
Lemma range_check (P : Z -> bool) (n : nat) :
  forallb P (map Z.of_nat (seq 0 n)) = true ->
  forall x, 0 <= x < Z.of_nat n -> P x = true.
Proof.
  intros H x Hx. rewrite forallb_forall in H. apply H.
  apply in_map_iff. exists (Z.to_nat x). split; [lia|].
  apply in_seq. lia.
Qed.

Lemma bind_Ok {A B} (a : A) (k : A -> Result B) : bind (Ok a) k = k a.
Proof. reflexivity. Qed.

Lemma Ok_inj {A} (a b : A) : Ok a = Ok b -> a = b.
Proof. intros H. inversion H. reflexivity. Qed.

Lemma String_length_app (a b : JsString) :
  String_length (a ++ b) = String_length a + String_length b.
Proof. unfold String_length. rewrite length_app. lia. Qed.

Lemma String_length_nonneg (a : JsString) : 0 <= String_length a.
Proof. unfold String_length. lia. Qed.

(** ** Digit characters *)

Lemma digit_value_digit_char radix d :
  0 <= d < radix -> radix <= 36 -> digit_value radix (digit_char d) = Some d.
Proof.
  intros Hd Hr. unfold digit_value, digit_char.
  destruct (Z.ltb_spec d 10).
  - replace ((48 <=? 48 + d) && (48 + d <=? 57)) with true
      by (symmetry; apply andb_true_iff; split; apply Z.leb_le; lia).
    replace (48 + d - 48) with d by lia.
    replace ((0 <=? d) && (d <? radix)) with true; [reflexivity|].
    symmetry. apply andb_true_iff. split; [apply Z.leb_le | apply Z.ltb_lt]; lia.
  - replace ((48 <=? 87 + d) && (87 + d <=? 57)) with false
      by (symmetry; apply andb_false_iff; right; apply Z.leb_gt; lia).
    replace ((97 <=? 87 + d) && (87 + d <=? 122)) with true
      by (symmetry; apply andb_true_iff; split; apply Z.leb_le; lia).
    replace (87 + d - 87) with d by lia.
    replace ((0 <=? d) && (d <? radix)) with true; [reflexivity|].
    symmetry. apply andb_true_iff. split; [apply Z.leb_le | apply Z.ltb_lt]; lia.
Qed.

Lemma digit_char_facts d :
  0 <= d < 16 ->
  hex_char d = digit_char d /\ is_lower_hex (digit_char d) = true
  /\ is_hex_digit (digit_char d) = true /\ is_white_space (digit_char d) = false.
Proof.
  intros Hd.
  pose (P := fun d => (hex_char d =? digit_char d) && is_lower_hex (digit_char d)
                      && is_hex_digit (digit_char d)
                      && negb (is_white_space (digit_char d))).
  assert (H : P d = true)
    by (apply (range_check P 16); [vm_compute; reflexivity | lia]).
  unfold P in H. rewrite !andb_true_iff, negb_true_iff, Z.eqb_eq in H. tauto.
Qed.

Lemma lower_hex_is_hex c : is_lower_hex c = true -> is_hex_digit c = true.
Proof.
  unfold is_lower_hex, is_hex_digit.
  destruct ((48 <=? c) && (c <=? 57)), ((97 <=? c) && (c <=? 102)); simpl;
    intros H; congruence.
Qed.

(** ** Positional digits *)

Lemma digits_le_spec fuel : forall radix z,
  2 <= radix -> 0 <= z < radix ^ Z.of_nat (S fuel) ->
  value_le radix (digits_le (S fuel) radix z) = z
  /\ Forall (fun d => 0 <= d < radix) (digits_le (S fuel) radix z)
  /\ digits_le (S fuel) radix z <> [].
Proof.
  induction fuel as [|f IH]; intros radix z Hr Hz.
  - change (radix ^ Z.of_nat 1) with (radix ^ 1) in Hz. rewrite Z.pow_1_r in Hz.
    simpl. replace (z <? radix) with true by (symmetry; apply Z.ltb_lt; lia).
    simpl. repeat split; [lia | repeat constructor; lia | discriminate].
  - change (digits_le (S (S f)) radix z)
      with (if z <? radix then [z]
            else (z mod radix) :: digits_le (S f) radix (z / radix)).
    destruct (Z.ltb_spec z radix).
    + simpl. repeat split; [lia | repeat constructor; lia | discriminate].
    + assert (Hq : 0 <= z / radix < radix ^ Z.of_nat (S f)).
      { split; [apply Z.div_pos; lia|].
        apply Z.div_lt_upper_bound; [lia|].
        rewrite (Nat2Z.inj_succ (S f)), Z.pow_succ_r in Hz; lia. }
      destruct (IH radix (z / radix) Hr Hq) as (Hv & Hall & _).
      cbn [value_le]. rewrite Hv. repeat split.
      * rewrite Z.add_comm. symmetry. apply Z.div_mod. lia.
      * constructor; [apply Z.mod_pos_bound; lia | exact Hall].
      * discriminate.
Qed.

(** The number of digits is at most [n] exactly when the value is below
    [radix ^ n]. *)
Lemma digits_le_length fuel : forall radix z n,
  2 <= radix -> 0 <= z < radix ^ Z.of_nat (S fuel) -> (1 <= n)%nat ->
  (List.length (digits_le (S fuel) radix z) <= n)%nat <-> z < radix ^ Z.of_nat n.
Proof.
  induction fuel as [|f IH]; intros radix z n Hr Hz Hn.
  - change (radix ^ Z.of_nat 1) with (radix ^ 1) in Hz. rewrite Z.pow_1_r in Hz.
    simpl. replace (z <? radix) with true by (symmetry; apply Z.ltb_lt; lia).
    simpl. split; intros _; [|lia].
    apply Z.lt_le_trans with (radix ^ 1); [lia|].
    apply Z.pow_le_mono_r; lia.
  - change (digits_le (S (S f)) radix z)
      with (if z <? radix then [z]
            else (z mod radix) :: digits_le (S f) radix (z / radix)).
    destruct (Z.ltb_spec z radix).
    + simpl. split; intros _; [|lia].
      apply Z.lt_le_trans with (radix ^ 1); [lia|].
      apply Z.pow_le_mono_r; lia.
    + assert (Hq : 0 <= z / radix < radix ^ Z.of_nat (S f)).
      { split; [apply Z.div_pos; lia|].
        apply Z.div_lt_upper_bound; [lia|].
        rewrite (Nat2Z.inj_succ (S f)), Z.pow_succ_r in Hz; lia. }
      destruct (digits_le_spec f radix (z / radix) Hr Hq) as (_ & _ & Hne).
      cbn [List.length].
      destruct n as [|[|m]]; [lia | |].
      * change (radix ^ Z.of_nat 1) with (radix ^ 1). rewrite Z.pow_1_r.
        split; [|lia]. intros Hlen.
        destruct (digits_le (S f) radix (z / radix)); [congruence | simpl in Hlen; lia].
      * specialize (IH radix (z / radix) (S m) Hr Hq ltac:(lia)).
        rewrite (Nat2Z.inj_succ (S m)), Z.pow_succ_r by lia.
        split.
        -- intros Hlen. assert (Hd : z / radix < radix ^ Z.of_nat (S m)) by (apply IH; lia).
           pose proof (Z.div_mod z radix ltac:(lia)).
           pose proof (Z.mod_pos_bound z radix ltac:(lia)). nia.
        -- intros Hlt. apply le_n_S. apply IH.
           apply Z.div_lt_upper_bound; lia.
Qed.

Lemma digits_fuel radix z :
  2 <= radix -> 0 <= z -> 0 <= z < radix ^ Z.of_nat (S (Z.to_nat (Z.log2 z))).
Proof.
  intros Hr Hz. split; [lia|].
  rewrite Nat2Z.inj_succ, Z2Nat.id by apply Z.log2_nonneg.
  destruct (Z.eq_dec z 0) as [->|Hnz].
  - apply Z.pow_pos_nonneg; simpl; lia.
  - apply Z.lt_le_trans with (2 ^ Z.succ (Z.log2 z)).
    + apply Z.log2_spec. lia.
    + apply Z.pow_le_mono_l. lia.
Qed.

Lemma digits_range radix z :
  2 <= radix -> 0 <= z -> Forall (fun d => 0 <= d < radix) (digits radix z).
Proof.
  intros Hr Hz. unfold digits. apply Forall_rev.
  apply digits_le_spec; [lia | apply digits_fuel; lia].
Qed.

Lemma digits_nonempty radix z : 2 <= radix -> 0 <= z -> digits radix z <> [].
Proof.
  intros Hr Hz. unfold digits. intros H.
  destruct (digits_le_spec _ radix z Hr (digits_fuel radix z Hr Hz)) as (_ & _ & Hne).
  apply Hne. rewrite <- (rev_involutive (digits_le _ radix z)), H. reflexivity.
Qed.

Lemma digits_length radix z n :
  2 <= radix -> 0 <= z -> (1 <= n)%nat ->
  (List.length (digits radix z) <= n)%nat <-> z < radix ^ Z.of_nat n.
Proof.
  intros Hr Hz Hn. unfold digits. rewrite length_rev.
  apply digits_le_length; [lia | apply digits_fuel; lia | lia].
Qed.

(** ** Reading digits back *)

Lemma parse_digits_app radix a : forall b acc,
  parse_digits radix (a ++ b) acc =
  match parse_digits radix a acc with
  | Some v => parse_digits radix b v
  | None => None
  end.
Proof.
  induction a as [|c a IH]; intros b acc; simpl; [reflexivity|].
  destruct (digit_value radix c); [apply IH | reflexivity].
Qed.

Lemma parse_digits_rev radix ds :
  radix <= 36 -> Forall (fun d => 0 <= d < radix) ds ->
  parse_digits radix (map digit_char (rev ds)) 0 = Some (value_le radix ds).
Proof.
  intros Hr Hall. induction Hall as [|d ds Hd Hall IH]; [reflexivity|].
  simpl rev. rewrite map_app, parse_digits_app, IH. simpl.
  rewrite digit_value_digit_char by lia. f_equal. lia.
Qed.

Lemma parse_digits_zeros radix k s :
  1 <= radix -> parse_digits radix (repeat 48 k ++ s) 0 = parse_digits radix s 0.
Proof.
  intros Hr. induction k as [|k IH]; [reflexivity|].
  simpl. unfold digit_value. simpl.
  replace (0 <? radix) with true by (symmetry; apply Z.ltb_lt; lia).
  simpl. exact IH.
Qed.

(** Reading the digits of [z] gives [z] back. *)
Lemma parse_digits_digits radix z :
  2 <= radix <= 36 -> 0 <= z ->
  parse_digits radix (map digit_char (digits radix z)) 0 = Some z.
Proof.
  intros Hr Hz. unfold digits.
  destruct (digits_le_spec _ radix z ltac:(lia) (digits_fuel radix z ltac:(lia) Hz))
    as (Hv & Hall & _).
  rewrite parse_digits_rev by (lia || assumption). rewrite Hv. reflexivity.
Qed.

(** ** Bytes and their hexadecimal text *)

Ltac bool_hyp H :=
  repeat (rewrite ?orb_true_iff, ?andb_true_iff, ?negb_true_iff, ?Z.leb_le,
            ?Z.ltb_lt, ?Z.eqb_eq, ?Nat.eqb_eq in H).

Lemma hex_of_byte_eq v :
  hex_of_byte v = [hex_char ((v / 16) mod 16); hex_char (v mod 16)].
Proof.
  unfold hex_of_byte. rewrite Z.shiftr_land.
  change (Z.shiftr 0xf0 4) with (Z.ones 4). change 0x0f with (Z.ones 4).
  rewrite !Z.land_ones, Z.shiftr_div_pow2 by lia. reflexivity.
Qed.

Lemma hex_of_byte_mod v : hex_of_byte (v mod 256) = hex_of_byte v.
Proof.
  rewrite !hex_of_byte_eq.
  change 256 with (16 * 16). rewrite Z.rem_mul_r by lia.
  pose proof (Z.mod_pos_bound v 16 ltac:(lia)) as Ha.
  pose proof (Z.mod_pos_bound (v / 16) 16 ltac:(lia)) as Hb.
  replace ((v mod 16 + 16 * ((v / 16) mod 16)) / 16) with ((v / 16) mod 16)
    by (apply Z.div_unique with (v mod 16); lia).
  replace ((v mod 16 + 16 * ((v / 16) mod 16)) mod 16) with (v mod 16)
    by (apply Z.mod_unique with ((v / 16) mod 16); lia).
  rewrite Z.mod_mod by lia. reflexivity.
Qed.

Lemma hex_of_bytes_length bs : List.length (hex_of_bytes bs) = (2 * List.length bs)%nat.
Proof. induction bs as [|b bs IH]; simpl; lia. Qed.

Lemma hex_of_bytes_app a b : hex_of_bytes (a ++ b) = hex_of_bytes a ++ hex_of_bytes b.
Proof. apply flat_map_app. Qed.

Lemma hex_of_bytes_zeros k : hex_of_bytes (repeat 0 k) = repeat 48 (2 * k).
Proof.
  induction k as [|k IH]; [reflexivity|].
  replace (2 * S k)%nat with (S (S (2 * k))) by lia. simpl repeat.
  change (hex_of_bytes (0 :: repeat 0 k)) with (48 :: 48 :: hex_of_bytes (repeat 0 k)).
  rewrite IH. reflexivity.
Qed.

Lemma hex_char_lower x : 0 <= x < 16 -> is_lower_hex (hex_char x) = true.
Proof. intros H. destruct (digit_char_facts x H) as (-> & Hl & _). exact Hl. Qed.

Lemma hex_value_hex_char x : 0 <= x < 16 -> hex_value (hex_char x) = x.
Proof.
  intros H. destruct (digit_char_facts x H) as (-> & _).
  unfold hex_value. rewrite digit_value_digit_char by lia. reflexivity.
Qed.

Lemma hex_of_bytes_lower bs : forallb is_lower_hex (hex_of_bytes bs) = true.
Proof.
  induction bs as [|b bs IH]; [reflexivity|].
  change (hex_of_bytes (b :: bs)) with (hex_of_byte b ++ hex_of_bytes bs).
  rewrite forallb_app, IH, hex_of_byte_eq. simpl.
  rewrite !hex_char_lower by (apply Z.mod_pos_bound; lia). reflexivity.
Qed.

Lemma hex_pairs_lower h :
  Nat.even (List.length h) = true -> forallb is_lower_hex h = true -> hex_pairs h = true.
Proof.
  revert h. fix IH 1. intros [|a [|b r]] He Hl; [reflexivity | discriminate |].
  simpl in Hl. apply andb_true_iff in Hl. destruct Hl as [Ha Hl].
  apply andb_true_iff in Hl. destruct Hl as [Hb Hl].
  simpl. rewrite (lower_hex_is_hex a Ha), (lower_hex_is_hex b Hb). simpl.
  apply IH; [exact He | exact Hl].
Qed.

Lemma hex_pairs_hex_of_bytes bs : hex_pairs (hex_of_bytes bs) = true.
Proof.
  apply hex_pairs_lower; [|apply hex_of_bytes_lower].
  rewrite hex_of_bytes_length, Nat.even_mul. reflexivity.
Qed.

Lemma parse_pairs_hex_of_bytes bs :
  parse_pairs (hex_of_bytes bs) = map (fun v => v mod 256) bs.
Proof.
  induction bs as [|b bs IH]; [reflexivity|].
  change (hex_of_bytes (b :: bs)) with (hex_of_byte b ++ hex_of_bytes bs).
  rewrite hex_of_byte_eq. cbn [app parse_pairs map]. rewrite IH.
  rewrite !hex_value_hex_char by (apply Z.mod_pos_bound; lia).
  f_equal. change 256 with (16 * 16). rewrite Z.rem_mul_r by lia. lia.
Qed.

Lemma hex_of_bytes_mod bs : hex_of_bytes (map (fun v => v mod 256) bs) = hex_of_bytes bs.
Proof.
  induction bs as [|b bs IH]; [reflexivity|].
  simpl map. change (hex_of_bytes (?x :: ?l)) with (hex_of_byte x ++ hex_of_bytes l).
  rewrite IH, hex_of_byte_mod. reflexivity.
Qed.

(** A hexadecimal digit reads as a value below 16 and prints back in
    lower case. *)
Lemma hex_digit_facts a :
  is_hex_digit a = true ->
  0 <= hex_value a < 16 /\ hex_char (hex_value a) = toLowerCase_char a.
Proof.
  intros Ha.
  assert (Hr : 0 <= a < Z.of_nat 128).
  { unfold is_hex_digit in Ha. bool_hyp Ha. lia. }
  pose (P := fun a => implb (is_hex_digit a)
                        ((0 <=? hex_value a) && (hex_value a <? 16)
                         && (hex_char (hex_value a) =? toLowerCase_char a))).
  assert (H : P a = true)
    by (apply (range_check P 128); [vm_compute; reflexivity | exact Hr]).
  unfold P in H. rewrite Ha in H. simpl in H. bool_hyp H. tauto.
Qed.

Lemma lower_hex_toLowerCase a : is_lower_hex a = true -> toLowerCase_char a = a.
Proof.
  intros Ha. unfold is_lower_hex in Ha. bool_hyp Ha. unfold toLowerCase_char.
  destruct (Z.leb_spec 65 a), (Z.leb_spec a 90); simpl; lia.
Qed.

Lemma hex_of_bytes_parse_pairs h :
  hex_pairs h = true -> hex_of_bytes (parse_pairs h) = map toLowerCase_char h.
Proof.
  revert h. fix IH 1. intros [|a [|b r]] H; [reflexivity | discriminate |].
  simpl in H. bool_hyp H. destruct H as [[Ha Hb] Hr].
  change (parse_pairs (a :: b :: r))
    with ((16 * hex_value a + hex_value b) :: parse_pairs r).
  change (hex_of_bytes (?x :: ?l)) with (hex_of_byte x ++ hex_of_bytes l).
  rewrite (IH r Hr), hex_of_byte_eq.
  destruct (hex_digit_facts a Ha) as [Hra Hca].
  destruct (hex_digit_facts b Hb) as [Hrb Hcb].
  replace ((16 * hex_value a + hex_value b) / 16) with (hex_value a)
    by (apply Z.div_unique with (hex_value b); lia).
  replace ((16 * hex_value a + hex_value b) mod 16) with (hex_value b)
    by (apply Z.mod_unique with (hex_value a); lia).
  rewrite Z.mod_small by lia. rewrite Hca, Hcb. reflexivity.
Qed.

Lemma parse_pairs_length h :
  hex_pairs h = true -> (2 * List.length (parse_pairs h) = List.length h)%nat.
Proof.
  revert h. fix IH 1. intros [|a [|b r]] H; [reflexivity | discriminate |].
  simpl in H. bool_hyp H. destruct H as [_ Hr].
  change (parse_pairs (a :: b :: r))
    with ((16 * hex_value a + hex_value b) :: parse_pairs r).
  simpl List.length. specialize (IH r Hr). lia.
Qed.

Lemma map_lower_id h : forallb is_lower_hex h = true -> map toLowerCase_char h = h.
Proof.
  induction h as [|a h IH]; [reflexivity|]. simpl. intros H.
  apply andb_true_iff in H. destruct H as [Ha Hh].
  rewrite lower_hex_toLowerCase, IH by assumption. reflexivity.
Qed.

(** ** hexlify, zeroPad and the 32-byte word *)

Lemma hexlify_bytes bs : hexlify (BBytes bs) = Ok (js "0x" ++ hex_of_bytes bs).
Proof. reflexivity. Qed.

Lemma getBytes_hex h :
  getBytes (BHex (js "0x" ++ h)) =
  if hex_pairs h then Ok (parse_pairs h) else invalid_argument "invalid BytesLike value".
Proof. reflexivity. Qed.

(** hexlify leaves the text of a byte sequence as it is. *)
Lemma hexlify_hex_of_bytes bs :
  hexlify (BHex (js "0x" ++ hex_of_bytes bs)) = Ok (js "0x" ++ hex_of_bytes bs).
Proof.
  unfold hexlify. rewrite getBytes_hex, hex_pairs_hex_of_bytes. cbn [bind].
  rewrite parse_pairs_hex_of_bytes.
  change (flat_map hex_of_byte ?l) with (hex_of_bytes l).
  rewrite hex_of_bytes_mod. reflexivity.
Qed.

(** [hexlify(zeroPad(data, n, left)).slice(2)] in one step. *)
Lemma zeroPad_hexlify data n left :
  (padded <- zeroPad data n left ;; hex <- hexlify (BHex padded) ;; Ok (slice 2 hex)) =
  (bytes <- getBytes data ;;
   if String_length bytes <=? n then
     let fill := repeat 0 (Z.to_nat (n - String_length bytes)) in
     Ok (hex_of_bytes (if left then fill ++ bytes else bytes ++ fill))
   else Throw padding_error).
Proof.
  unfold zeroPad. destruct (getBytes data) as [bytes|e]; [|reflexivity].
  cbn [bind]. destruct (String_length bytes <=? n); [|reflexivity].
  cbv zeta. rewrite hexlify_bytes. cbn [bind].
  rewrite hexlify_hex_of_bytes. reflexivity.
Qed.

(** ** The encoders of utils/encoding.js *)

Lemma ceil32_bounds n : 0 <= n -> n <= ceil32 n < n + 32 /\ ceil32 n mod 32 = 0.
Proof.
  intros Hn. unfold ceil32.
  pose proof (Z.div_mod (n + 31) 32 ltac:(lia)).
  pose proof (Z.mod_pos_bound (n + 31) 32 ltac:(lia)).
  split; [lia | apply Z.mod_mul; lia].
Qed.

Lemma ceil32_roundUpTo32 n : ceil32 n = roundUpTo32 n.
Proof. unfold ceil32, roundUpTo32. lia. Qed.

Lemma encodeAddress_eq addr :
  encodeAddress addr =
  (bytes <- getBytes (BHex addr) ;;
   if String_length bytes <=? 32 then
     Ok (hex_of_bytes (repeat 0 (Z.to_nat (32 - String_length bytes)) ++ bytes))
   else Throw padding_error).
Proof. unfold encodeAddress, zeroPadValue. apply zeroPad_hexlify. Qed.

Lemma getUint_nonneg value v : getUint value = Ok v -> 0 <= v.
Proof.
  unfold getUint. destruct (getBigInt value) as [z|e]; [|discriminate].
  cbn [bind]. destruct (Z.leb_spec 0 z) as [Hz|Hz]; [|discriminate].
  intros H. injection H as <-. assumption.
Qed.

Lemma hex_digits_lower v : 0 <= v -> forallb is_lower_hex (map digit_char (digits 16 v)) = true.
Proof.
  intros Hv. pose proof (digits_range 16 v ltac:(lia) Hv) as Hall.
  induction Hall as [|d ds Hd Hall IH]; [reflexivity|].
  simpl. rewrite IH. destruct (digit_char_facts d Hd) as (_ & -> & _). reflexivity.
Qed.

Lemma even_hex_facts v :
  0 <= v ->
  forallb is_lower_hex (even_hex v) = true
  /\ Nat.even (List.length (even_hex v)) = true
  /\ (v < 2 ^ 256 -> repeat 48 (64 - List.length (even_hex v)) ++ even_hex v = word_of v)
  /\ ((List.length (even_hex v) <= 64)%nat <-> v < 2 ^ 256).
Proof.
  intros Hv. unfold even_hex, word_of.
  pose proof (hex_digits_lower v Hv) as Hl.
  pose proof (digits_length 16 v 64 ltac:(lia) Hv ltac:(lia)) as Hlen.
  change (16 ^ Z.of_nat 64) with (2 ^ 256) in Hlen.
  unfold String_length. rewrite length_map in *.
  set (ds := digits 16 v) in *.
  pose proof (Nat.even_spec (List.length ds)) as Hev.
  pose proof (Nat.odd_spec (List.length ds)) as Hod.
  rewrite <- Nat.negb_even in Hod.
  destruct (Z.eqb_spec (Z.of_nat (List.length ds) mod 2) 0) as [Hm|Hm].
  - assert (He : Nat.even (List.length ds) = true).
    { apply Hev. exists (Z.to_nat (Z.of_nat (List.length ds) / 2)).
      pose proof (Z.div_mod (Z.of_nat (List.length ds)) 2 ltac:(lia)). lia. }
    rewrite length_map. repeat split; try assumption; try tauto.
  - assert (He : Nat.even (List.length ds) = false).
    { destruct (Nat.even (List.length ds)) eqn:E; [|reflexivity].
      destruct (proj1 Hev eq_refl) as [k Hk]. exfalso. apply Hm.
      rewrite Hk, Nat2Z.inj_mul. rewrite Z.mul_comm. apply Z.mod_mul. lia. }
    cbn [forallb List.length]. rewrite length_map.
    assert (Hodd : Nat.Odd (List.length ds)) by (apply Hod; rewrite He; reflexivity).
    destruct Hodd as [k Hk].
    repeat split.
    + exact Hl.
    + rewrite Nat.even_succ, <- Nat.negb_even, He. reflexivity.
    + intros Hlt. apply Hlen in Hlt.
      replace (64 - List.length ds)%nat with (S (64 - S (List.length ds))) by lia.
      cbn [repeat]. rewrite repeat_cons, <- app_assoc. reflexivity.
    + intros H. apply Hlen. lia.
    + intros H. apply Hlen in H. lia.
Qed.

Lemma toBeHex_ok value v :
  getUint value = Ok v -> toBeHex value = Ok (js "0x" ++ even_hex v).
Proof.
  intros H. pose proof (getUint_nonneg value v H) as Hv.
  unfold toBeHex. rewrite H. cbn [bind]. unfold BigInt_toString, even_hex.
  replace (v <? 0) with false by (symmetry; apply Z.ltb_ge; lia).
  rewrite Z.abs_eq by lia. reflexivity.
Qed.

(** encodeUint on a value getUint accepts: the word of the value when it
    fits 256 bits, the padding error otherwise. *)
Lemma encodeUint_spec value v :
  getUint value = Ok v ->
  encodeUint value = if v <? 2 ^ 256 then Ok (word_of v) else Throw padding_error.
Proof.
  intros H. pose proof (getUint_nonneg value v H) as Hv.
  unfold encodeUint. rewrite (toBeHex_ok value v H). cbn [bind].
  unfold zeroPadValue. rewrite zeroPad_hexlify.
  destruct (even_hex_facts v Hv) as (Hl & He & Hw & Hlen).
  rewrite getBytes_hex, (hex_pairs_lower _ He Hl). cbn [bind].
  pose proof (parse_pairs_length _ (hex_pairs_lower _ He Hl)) as Hpl.
  destruct (Z.ltb_spec v (2 ^ 256)) as [Hlt|Hge].
  - replace (String_length (parse_pairs (even_hex v)) <=? 32) with true
      by (symmetry; apply Z.leb_le; unfold String_length; apply Hlen in Hlt; lia).
    rewrite hex_of_bytes_app, hex_of_bytes_zeros,
      (hex_of_bytes_parse_pairs _ (hex_pairs_lower _ He Hl)), (map_lower_id _ Hl).
    rewrite <- (Hw Hlt). do 2 f_equal. f_equal.
    apply Hlen in Hlt. unfold String_length. lia.
  - replace (String_length (parse_pairs (even_hex v)) <=? 32) with false; [reflexivity|].
    symmetry. apply Z.leb_gt. unfold String_length.
    destruct (Nat.le_gt_cases (List.length (even_hex v)) 64) as [Hle|Hgt]; [|lia].
    apply Hlen in Hle. lia.
Qed.

Lemma encodeUint_throw value e : getUint value = Throw e -> encodeUint value = Throw e.
Proof. intros H. unfold encodeUint, toBeHex. rewrite H. reflexivity. Qed.

Lemma word_of_length v : 0 <= v < 2 ^ 256 -> List.length (word_of v) = 64%nat.
Proof.
  intros Hv. unfold word_of.
  pose proof (digits_length 16 v 64 ltac:(lia) ltac:(lia) ltac:(lia)) as Hlen.
  change (16 ^ Z.of_nat 64) with (2 ^ 256) in Hlen.
  rewrite length_app, repeat_length, length_map.
  assert (List.length (digits 16 v) <= 64)%nat by (apply Hlen; lia). lia.
Qed.

Lemma word_of_lower v : 0 <= v -> forallb is_lower_hex (word_of v) = true.
Proof.
  intros Hv. unfold word_of. rewrite forallb_app, hex_digits_lower by lia.
  rewrite andb_true_r. induction (64 - List.length (digits 16 v))%nat; simpl; auto.
Qed.

(** ** Reading a word back with BigInt() *)

Lemma trim_start_id c s : is_white_space c = false -> trim_start (c :: s) = c :: s.
Proof. intros H. simpl. rewrite H. reflexivity. Qed.

(** A text that neither starts nor ends with white space is its own trim. *)
Lemma trim_id c s d :
  is_white_space c = false -> is_white_space d = false ->
  trim (c :: s ++ [d]) = c :: s ++ [d].
Proof.
  intros Hc Hd. unfold trim. rewrite trim_start_id by assumption.
  change (c :: s ++ [d]) with ((c :: s) ++ [d]).
  rewrite rev_app_distr. cbn [rev app].
  rewrite (trim_start_id d) by assumption.
  change (d :: rev s ++ [c]) with ([d] ++ rev (c :: s)).
  rewrite rev_app_distr, rev_involutive. reflexivity.
Qed.

Lemma digits_split radix v :
  2 <= radix -> 0 <= v ->
  exists ds d, digits radix v = ds ++ [d] /\ 0 <= d < radix.
Proof.
  intros Hr Hv. pose proof (digits_nonempty radix v Hr Hv) as Hne.
  pose proof (digits_range radix v Hr Hv) as Hall.
  destruct (exists_last Hne) as (ds & d & E). exists ds, d. split; [exact E|].
  rewrite E in Hall. apply Forall_app in Hall. destruct Hall as [_ Hd].
  inversion Hd. assumption.
Qed.

Lemma decode_word_of v : 0 <= v -> decode_word (word_of v) = Ok v.
Proof.
  intros Hv. unfold decode_word, BigInt_of_string, StringToBigInt.
  destruct (digits_split 16 v ltac:(lia) Hv) as (ds & d & E & Hd).
  assert (Hw : js "0x" ++ word_of v
               = 48 :: (120 :: repeat 48 (64 - List.length (digits 16 v))
                        ++ map digit_char ds) ++ [digit_char d]).
  { unfold word_of. rewrite E, map_app. cbn [map js list_ascii_of_string app].
    change (Z.of_nat (nat_of_ascii "0")) with 48.
    change (Z.of_nat (nat_of_ascii "x")) with 120.
    rewrite <- !app_assoc. reflexivity. }
  rewrite Hw, trim_id;
    [| reflexivity | destruct (digit_char_facts d Hd) as (_ & _ & _ & Hws); exact Hws].
  cbn [app]. cbn [Z.eqb Pos.eqb andb orb].
  rewrite <- app_assoc.
  change (map digit_char ds ++ [digit_char d]) with (map digit_char ds ++ map digit_char [d]).
  rewrite <- map_app, <- E.
  unfold parse_integer.
  destruct (repeat 48 (64 - List.length (digits 16 v)) ++ map digit_char (digits 16 v)) eqn:El.
  - exfalso. apply app_eq_nil in El. destruct El as [_ El].
    apply map_eq_nil in El. exact (digits_nonempty 16 v ltac:(lia) Hv El).
  - rewrite <- El, parse_digits_zeros, parse_digits_digits by lia. reflexivity.
Qed.

(** ** Decimal strings *)

Lemma trim_start_no_space s :
  Forall (fun c => is_white_space c = false) s -> trim_start s = s.
Proof. intros H. destruct H as [|c s Hc _]; [reflexivity|]. simpl. rewrite Hc. reflexivity. Qed.

Lemma trim_no_space s :
  Forall (fun c => is_white_space c = false) s -> trim s = s.
Proof.
  intros H. unfold trim. rewrite (trim_start_no_space s H).
  rewrite trim_start_no_space by (apply Forall_rev; exact H).
  apply rev_involutive.
Qed.

Lemma decimal_char_no_space c : decimal_char c -> is_white_space c = false.
Proof.
  intros Hc. pose (P := fun c => implb (is_decimal_digit c) (negb (is_white_space c))).
  assert (H : P c = true)
    by (apply (range_check P 64); [vm_compute; reflexivity | unfold decimal_char in Hc; lia]).
  unfold P, is_decimal_digit in H.
  replace ((48 <=? c) && (c <=? 57)) with true in H
    by (symmetry; apply andb_true_iff; split; apply Z.leb_le; unfold decimal_char in Hc; lia).
  simpl in H. apply negb_true_iff in H. exact H.
Qed.

Lemma StringToBigInt_decimal s :
  s <> [] -> Forall decimal_char s -> StringToBigInt s = parse_digits 10 s 0.
Proof.
  intros Hne Hall. unfold StringToBigInt.
  rewrite trim_no_space
    by (eapply Forall_impl; [|exact Hall]; intros c Hc; apply decimal_char_no_space, Hc).
  destruct Hall as [|c0 r0 Hc0 Hall]; [congruence|].
  unfold decimal_char in Hc0.
  destruct Hall as [|c1 r1 Hc1 Hall]; [reflexivity|].
  unfold decimal_char in Hc1.
  replace (c1 =? 120) with false by (symmetry; apply Z.eqb_neq; lia).
  replace (c1 =? 88) with false by (symmetry; apply Z.eqb_neq; lia).
  replace (c1 =? 111) with false by (symmetry; apply Z.eqb_neq; lia).
  replace (c1 =? 79) with false by (symmetry; apply Z.eqb_neq; lia).
  replace (c1 =? 98) with false by (symmetry; apply Z.eqb_neq; lia).
  replace (c1 =? 66) with false by (symmetry; apply Z.eqb_neq; lia).
  replace (c0 =? 43) with false by (symmetry; apply Z.eqb_neq; lia).
  replace (c0 =? 45) with false by (symmetry; apply Z.eqb_neq; lia).
  rewrite !andb_false_r. reflexivity.
Qed.

Lemma decimal_digits_chars v :
  0 <= v -> Forall decimal_char (map digit_char (digits 10 v)).
Proof.
  intros Hv. apply Forall_map.
  eapply Forall_impl; [|apply (digits_range 10 v); lia].
  intros d Hd. cbv beta in Hd. unfold decimal_char, digit_char.
  destruct (Z.ltb_spec d 10); lia.
Qed.

Lemma StringToBigInt_digits v :
  0 <= v -> StringToBigInt (map digit_char (digits 10 v)) = Some v.
Proof.
  intros Hv. rewrite StringToBigInt_decimal.
  - apply parse_digits_digits; lia.
  - intros E. apply map_eq_nil in E. exact (digits_nonempty 10 v ltac:(lia) Hv E).
  - apply decimal_digits_chars, Hv.
Qed.

(** ethers reads the decimal text of any integer back as that integer. *)
Lemma getBigInt_decimal z : getBigInt (BString (BigInt_toString 10 z)) = Ok z.
Proof.
  unfold BigInt_toString. destruct (Z.ltb_spec z 0) as [Hneg|Hpos].
  - cbn [app getBigInt]. cbn [Z.eqb Pos.eqb andb].
    pose proof (decimal_digits_chars (Z.abs z) ltac:(lia)) as Hall.
    pose proof (StringToBigInt_digits (Z.abs z) ltac:(lia)) as Hp.
    destruct (map digit_char (digits 10 (Z.abs z))) as [|c1 r] eqn:E.
    + cbn. f_equal. simpl in Hp. injection Hp. lia.
    + inversion Hall as [|? ? Hc1 _]; subst. unfold decimal_char in Hc1.
      replace (c1 =? 45) with false by (symmetry; apply Z.eqb_neq; lia).
      cbn [negb]. rewrite Hp. f_equal. lia.
  - cbn [app]. rewrite Z.abs_eq by lia.
    pose proof (decimal_digits_chars z Hpos) as Hall.
    pose proof (StringToBigInt_digits z Hpos) as Hp.
    destruct (map digit_char (digits 10 z)) as [|c0 r] eqn:E.
    + exfalso. apply map_eq_nil in E. exact (digits_nonempty 10 z ltac:(lia) Hpos E).
    + inversion Hall as [|? ? Hc0 _]; subst. unfold decimal_char in Hc0.
      cbn [getBigInt].
      replace (c0 =? 45) with false by (symmetry; apply Z.eqb_neq; lia).
      cbn [andb]. rewrite Hp. reflexivity.
Qed.

Lemma getUint_of_getBigInt value z :
  getBigInt value = Ok z ->
  getUint value = if 0 <=? z then Ok z
                  else Throw (EthersError NUMERIC_FAULT "unsigned value cannot be negative").
Proof. intros H. unfold getUint. rewrite H. reflexivity. Qed.

(** ** encodeString *)

Lemma encodeString_eq str :
  encodeString str =
  (bytes <- toUtf8Bytes str ;;
   lengthHex <- encodeUint (BNumber (NInt (String_length bytes))) ;;
   Ok {| lengthHex := lengthHex;
         paddedData := hex_of_bytes
           (bytes ++ repeat 0 (Z.to_nat (ceil32 (String_length bytes) - String_length bytes))) |}).
Proof.
  unfold encodeString. destruct (toUtf8Bytes str) as [bytes|e]; [|reflexivity].
  cbn [bind]. unfold zeroPadBytes, zeroPad. cbn [getBytes bind].
  pose proof (ceil32_bounds (String_length bytes) (String_length_nonneg bytes)) as [Hc _].
  replace (String_length bytes <=? ceil32 (String_length bytes)) with true
    by (symmetry; apply Z.leb_le; lia).
  cbv zeta. rewrite hexlify_bytes. cbn [bind].
  destruct (encodeUint (BNumber (NInt (String_length bytes)))) as [l|e]; [|reflexivity].
  cbn [bind]. rewrite hexlify_hex_of_bytes. reflexivity.
Qed.

(** The governance service carries copies of the encoders. *)
Lemma governance_encodeAddress this addr :
  GovernanceService.encodeAddress this addr = encodeAddress addr.
Proof. reflexivity. Qed.

Lemma governance_encodeUint this value :
  GovernanceService.encodeUint this value = encodeUint value.
Proof. reflexivity. Qed.

Lemma governance_encodeBool this value :
  GovernanceService.encodeBool this value = encodeBool value.
Proof. reflexivity. Qed.

Lemma governance_encodeString this str :
  GovernanceService.encodeString this str = encodeString str.
Proof.
  rewrite encodeString_eq. unfold GovernanceService.encodeString.
  destruct (toUtf8Bytes str) as [bytes|e]; [|reflexivity].
  cbn [bind]. unfold encodeUint.
  destruct (toBeHex (BNumber (NInt (String_length bytes)))) as [be|e]; [|reflexivity].
  cbn [bind]. destruct (zeroPadValue (BHex be) 32) as [p|e]; [|reflexivity].
  cbn [bind]. destruct (hexlify (BHex p)) as [h|e]; [|reflexivity].
  cbn [bind]. unfold zeroPadBytes, zeroPad. cbn [getBytes bind].
  pose proof (ceil32_bounds (String_length bytes) (String_length_nonneg bytes)) as [Hc _].
  replace (String_length bytes <=? ceil32 (String_length bytes)) with true
    by (symmetry; apply Z.leb_le; lia).
  cbv zeta. rewrite hexlify_bytes. cbn [bind].
  rewrite hexlify_hex_of_bytes. reflexivity.
Qed.

(* ===================================================================== *)
(** * Part 11: toUtf8Bytes produces UTF-8                                 *)
(* ===================================================================== *)

Lemma lor_marker x :
  (0 <= x < 64 -> Z.lor x 0x80 = 0x80 + x)
  /\ (0 <= x < 32 -> Z.lor x 0xc0 = 0xc0 + x)
  /\ (0 <= x < 16 -> Z.lor x 0xe0 = 0xe0 + x)
  /\ (0 <= x < 8 -> Z.lor x 0xf0 = 0xf0 + x).
Proof.
  pose (P := fun x => (Z.lor x 0x80 =? 0x80 + x)
                      && (implb (x <? 32) (Z.lor x 0xc0 =? 0xc0 + x))
                      && (implb (x <? 16) (Z.lor x 0xe0 =? 0xe0 + x))
                      && (implb (x <? 8) (Z.lor x 0xf0 =? 0xf0 + x))).
  assert (H : 0 <= x < 64 -> P x = true)
    by (intros Hx; apply (range_check P 64); [vm_compute; reflexivity | lia]).
  unfold P in H.
  repeat split; intros Hx; specialize (H ltac:(lia)); bool_hyp H;
    destruct H as [[[H0 H1] H2] H3]; try exact H0.
  - replace (x <? 32) with true in H1 by (symmetry; apply Z.ltb_lt; lia).
    simpl in H1. apply Z.eqb_eq, H1.
  - replace (x <? 16) with true in H2 by (symmetry; apply Z.ltb_lt; lia).
    simpl in H2. apply Z.eqb_eq, H2.
  - replace (x <? 8) with true in H3 by (symmetry; apply Z.ltb_lt; lia).
    simpl in H3. apply Z.eqb_eq, H3.
Qed.

Lemma land_3f x : Z.land x 0x3f = x mod 64.
Proof. change 0x3f with (Z.ones 6). rewrite Z.land_ones by lia. reflexivity. Qed.

Lemma land_3ff x : Z.land x 0x03ff = x mod 1024.
Proof. change 0x03ff with (Z.ones 10). rewrite Z.land_ones by lia. reflexivity. Qed.

(** The six bits the loop tests to recognise a surrogate. *)
Lemma land_fc00 c : 0 <= c < 65536 -> Z.land c 0xfc00 = 1024 * (c / 1024).
Proof.
  intros Hc. set (x := Z.land c 0xfc00).
  assert (Hd : x / 1024 = c / 1024).
  { unfold x. change 1024 with (2 ^ 10). rewrite <- !Z.shiftr_div_pow2 by lia.
    rewrite Z.shiftr_land. change (Z.shiftr 0xfc00 10) with (Z.ones 6).
    rewrite Z.land_ones, Z.shiftr_div_pow2 by lia.
    apply Z.mod_small. split; [apply Z.div_pos; lia|].
    apply Z.div_lt_upper_bound; lia. }
  assert (Hm : x mod 1024 = 0).
  { unfold x. change 1024 with (2 ^ 10). rewrite <- Z.land_ones by lia.
    rewrite <- Z.land_assoc. change (Z.land 0xfc00 (Z.ones 10)) with 0.
    apply Z.land_0_r. }
  pose proof (Z.div_mod x 1024 ltac:(lia)). lia.
Qed.

Lemma div_range a b lo hi : 0 < b -> lo * b <= a < hi * b -> lo <= a / b < hi.
Proof.
  intros Hb Ha. split.
  - apply Z.div_le_lower_bound; lia.
  - apply Z.div_lt_upper_bound; lia.
Qed.

(** A code unit outside the surrogate range: the loop takes one of the
    one-unit branches and appends the UTF-8 bytes of the code point. *)
Lemma unit_bytes_utf8 c :
  0 <= c < 0xD800 \/ 0xE000 <= c < 0x10000 ->
  unit_bytes c = utf8_of_code_point c
  /\ (c <? 0x800) || negb (Z.land c 0xfc00 =? 0xd800) = true
  /\ Forall (fun b => 0 <= b < 256) (utf8_of_code_point c).
Proof.
  intros Hc. unfold unit_bytes, utf8_of_code_point.
  replace (c <? 0x10000) with true by (symmetry; apply Z.ltb_lt; lia).
  rewrite !land_3f, !Z.shiftr_div_pow2 by lia.
  change (2 ^ 6) with 64. change (2 ^ 12) with 4096.
  pose proof (Z.mod_pos_bound c 64 ltac:(lia)).
  pose proof (Z.mod_pos_bound (c / 64) 64 ltac:(lia)).
  destruct (Z.ltb_spec c 0x80) as [H80|H80]; [|destruct (Z.ltb_spec c 0x800) as [H800|H800]].
  - split; [reflexivity|]. split; [|repeat constructor; lia].
    replace (c <? 0x800) with true by (symmetry; apply Z.ltb_lt; lia). reflexivity.
  - pose proof (div_range c 64 0 32 ltac:(lia) ltac:(lia)).
    rewrite (proj1 (lor_marker (c mod 64))), (proj1 (proj2 (lor_marker (c / 64)))) by lia.
    split; [reflexivity|]. split; [reflexivity | repeat constructor; lia].
  - pose proof (div_range c 4096 0 16 ltac:(lia) ltac:(lia)).
    rewrite (proj1 (lor_marker (c mod 64))), (proj1 (lor_marker ((c / 64) mod 64))),
      (proj1 (proj2 (proj2 (lor_marker (c / 4096))))) by lia.
    split; [reflexivity|]. split; [| repeat constructor; lia].
    rewrite land_fc00 by lia. cbn [orb]. apply negb_true_iff, Z.eqb_neq.
    pose proof (Z.div_mod c 1024 ltac:(lia)).
    pose proof (Z.mod_pos_bound c 1024 ltac:(lia)). lia.
Qed.

(** A surrogate pair: the loop recognises both halves and appends the
    four UTF-8 bytes of the code point they stand for. *)
Lemma pair_bytes_utf8 c c2 :
  0xD800 <= c < 0xDC00 -> 0xDC00 <= c2 < 0xE000 ->
  let cp := 0x10000 + (c - 0xD800) * 0x400 + (c2 - 0xDC00) in
  pair_bytes c c2 = utf8_of_code_point cp
  /\ (c <? 0x80) = false /\ (c <? 0x800) = false
  /\ (Z.land c 0xfc00 =? 0xd800) = true
  /\ (Z.land c2 0xfc00 =? 0xdc00) = true
  /\ Forall (fun b => 0 <= b < 256) (utf8_of_code_point cp).
Proof.
  intros Hc Hc2 cp.
  assert (Hhi : c mod 1024 = c - 0xD800)
    by (symmetry; apply Z.mod_unique with 54; lia).
  assert (Hlo : c2 mod 1024 = c2 - 0xDC00)
    by (symmetry; apply Z.mod_unique with 55; lia).
  assert (Hcp : 0x10000 <= cp < 0x110000) by (unfold cp; lia).
  unfold pair_bytes. rewrite !land_3ff, Z.shiftl_mul_pow2, Hhi, Hlo by lia.
  change (2 ^ 10) with 0x400. fold cp.
  unfold utf8_of_code_point.
  replace (cp <? 0x80) with false by (symmetry; apply Z.ltb_ge; lia).
  replace (cp <? 0x800) with false by (symmetry; apply Z.ltb_ge; lia).
  replace (cp <? 0x10000) with false by (symmetry; apply Z.ltb_ge; lia).
  rewrite !land_3f, !Z.shiftr_div_pow2 by lia.
  change (2 ^ 6) with 64. change (2 ^ 12) with 4096. change (2 ^ 18) with 262144.
  pose proof (Z.mod_pos_bound cp 64 ltac:(lia)).
  pose proof (Z.mod_pos_bound (cp / 64) 64 ltac:(lia)).
  pose proof (Z.mod_pos_bound (cp / 4096) 64 ltac:(lia)).
  pose proof (div_range cp 262144 0 8 ltac:(lia) ltac:(lia)).
  rewrite (proj1 (lor_marker (cp mod 64))), (proj1 (lor_marker ((cp / 64) mod 64))),
    (proj1 (lor_marker ((cp / 4096) mod 64))),
    (proj2 (proj2 (proj2 (lor_marker (cp / 262144))))) by lia.
  split; [reflexivity|].
  split; [apply Z.ltb_ge; lia|].
  split; [apply Z.ltb_ge; lia|].
  split; [|split].
  - rewrite land_fc00 by lia. apply Z.eqb_eq.
    replace (c / 1024) with 54 by (apply Z.div_unique with (c - 0xD800); lia). reflexivity.
  - rewrite land_fc00 by lia. apply Z.eqb_eq.
    replace (c2 / 1024) with 55 by (apply Z.div_unique with (c2 - 0xDC00); lia). reflexivity.
  - repeat constructor; lia.
Qed.

Lemma loop_cons_unit c rest acc :
  (c <? 0x800) || negb (Z.land c 0xfc00 =? 0xd800) = true ->
  toUtf8Bytes_loop (c :: rest) acc = toUtf8Bytes_loop rest (acc ++ unit_bytes c).
Proof.
  intros H. cbn [toUtf8Bytes_loop]. unfold unit_bytes.
  destruct (c <? 0x80); [reflexivity|].
  destruct (c <? 0x800); [reflexivity|].
  cbn [orb] in H. apply negb_true_iff in H. rewrite H. reflexivity.
Qed.

Lemma loop_cons_pair c c2 rest acc :
  (c <? 0x80) = false -> (c <? 0x800) = false ->
  (Z.land c 0xfc00 =? 0xd800) = true -> (Z.land c2 0xfc00 =? 0xdc00) = true ->
  toUtf8Bytes_loop (c :: c2 :: rest) acc = toUtf8Bytes_loop rest (acc ++ pair_bytes c c2).
Proof.
  intros H1 H2 H3 H4. cbn [toUtf8Bytes_loop]. rewrite H1, H2, H3, H4. reflexivity.
Qed.

Lemma Some_inj {A} (a b : A) : Some a = Some b -> a = b.
Proof. intros H. inversion H. reflexivity. Qed.

(** On a well-formed string the loop appends the UTF-8 bytes, all below 256. *)
Lemma toUtf8Bytes_loop_utf8 n : forall s cps acc,
  (List.length s <= n)%nat -> utf16_decode s = Some cps ->
  toUtf8Bytes_loop s acc = Ok (acc ++ flat_map utf8_of_code_point cps)
  /\ Forall (fun b => 0 <= b < 256) (flat_map utf8_of_code_point cps).
Proof.
  induction n as [|n IH]; intros s cps acc Hlen Hdec.
  - destruct s; [|simpl in Hlen; lia]. apply Some_inj in Hdec. subst cps.
    cbn [flat_map toUtf8Bytes_loop]. rewrite app_nil_r. split; [reflexivity | constructor].
  - destruct s as [|c rest].
    + apply Some_inj in Hdec. subst cps.
      cbn [flat_map toUtf8Bytes_loop]. rewrite app_nil_r. split; [reflexivity | constructor].
    + cbn [utf16_decode] in Hdec.
      destruct ((0 <=? c) && (c <? 0xD800) || (0xE000 <=? c) && (c <? 0x10000)) eqn:Hbmp.
      * bool_hyp Hbmp.
        destruct (utf16_decode rest) as [cps'|] eqn:Hrest; [|discriminate].
        apply Some_inj in Hdec. subst cps.
        destruct (unit_bytes_utf8 c ltac:(lia)) as (Hb & Hbr & Hrange).
        destruct (IH rest cps' (acc ++ unit_bytes c) ltac:(simpl in Hlen; lia) Hrest)
          as [Hl Hr].
        split.
        -- etransitivity; [apply (loop_cons_unit c rest acc Hbr)|].
           etransitivity; [exact Hl|]. rewrite Hb, <- app_assoc. reflexivity.
        -- change (flat_map utf8_of_code_point (c :: cps'))
             with (utf8_of_code_point c ++ flat_map utf8_of_code_point cps').
           apply Forall_app. split; assumption.
      * destruct ((0xD800 <=? c) && (c <? 0xDC00)) eqn:Hhi; [|discriminate].
        destruct rest as [|c2 rest']; [discriminate|].
        destruct ((0xDC00 <=? c2) && (c2 <? 0xE000)) eqn:Hlo; [|discriminate].
        bool_hyp Hhi. bool_hyp Hlo.
        destruct (utf16_decode rest') as [cps'|] eqn:Hrest; [|discriminate].
        apply Some_inj in Hdec. subst cps.
        pose proof (pair_bytes_utf8 c c2 ltac:(lia) ltac:(lia)) as Hpair.
        cbv zeta in Hpair.
        set (cp := 0x10000 + (c - 0xD800) * 0x400 + (c2 - 0xDC00)) in *.
        destruct Hpair as (Hb & H1 & H2 & H3 & H4 & Hrange).
        destruct (IH rest' cps' (acc ++ pair_bytes c c2) ltac:(simpl in Hlen; lia) Hrest)
          as [Hl Hr].
        split.
        -- etransitivity; [apply (loop_cons_pair c c2 rest' acc H1 H2 H3 H4)|].
           etransitivity; [exact Hl|]. rewrite Hb, <- app_assoc. reflexivity.
        -- change (flat_map utf8_of_code_point (cp :: cps'))
             with (utf8_of_code_point cp ++ flat_map utf8_of_code_point cps').
           apply Forall_app. split; assumption.
Qed.

Lemma Uint8Array_id bs : Forall (fun b => 0 <= b < 256) bs -> Uint8Array bs = bs.
Proof.
  intros H. induction H as [|b bs Hb _ IH]; [reflexivity|].
  unfold Uint8Array in *. simpl. rewrite IH, Z.mod_small by lia. reflexivity.
Qed.

(** toUtf8Bytes returns the UTF-8 bytes of a well-formed string. *)
Lemma toUtf8Bytes_utf8 s bs : utf8 s = Some bs -> toUtf8Bytes s = Ok bs.
Proof.
  unfold utf8. destruct (utf16_decode s) as [cps|] eqn:Hdec; [|discriminate].
  intros H. injection H as <-.
  destruct (toUtf8Bytes_loop_utf8 (List.length s) s cps [] (Nat.le_refl _) Hdec) as [Hl Hr].
  unfold toUtf8Bytes. rewrite Hl. cbn [bind app]. rewrite Uint8Array_id by exact Hr.
  reflexivity.
Qed.

(* ===================================================================== *)
(** * Part 12: shape of the encoded pieces                                *)
(* ===================================================================== *)

Lemma hex_pairs_iff h :
  hex_pairs h = Nat.even (List.length h) && forallb is_hex_digit h.
Proof.
  revert h. fix IH 1. intros [|a [|b r]]; [reflexivity | | ].
  - reflexivity.
  - change (hex_pairs (a :: b :: r)) with (is_hex_digit a && is_hex_digit b && hex_pairs r).
    rewrite (IH r). cbn [List.length forallb Nat.even].
    destruct (is_hex_digit a), (is_hex_digit b), (Nat.even (List.length r)); reflexivity.
Qed.

Lemma skipn_exact {A} (a b : list A) n : List.length a = n -> skipn n (a ++ b) = b.
Proof.
  intros <-. rewrite skipn_app, skipn_all, Nat.sub_diag. reflexivity.
Qed.

Lemma firstn_exact {A} (a b : list A) n : List.length a = n -> firstn n (a ++ b) = a.
Proof.
  intros <-. rewrite firstn_app, firstn_all, Nat.sub_diag, firstn_O. apply app_nil_r.
Qed.

Lemma skipn_plus {A} (a b : list A) n m :
  List.length a = n -> skipn (n + m) (a ++ b) = skipn m b.
Proof.
  intros <-. rewrite skipn_app, skipn_all2 by lia.
  replace (List.length a + m - List.length a)%nat with m by lia. reflexivity.
Qed.

Lemma encodeAddress_word addr w : encodeAddress addr = Ok w -> is_word w.
Proof.
  rewrite encodeAddress_eq. destruct (getBytes (BHex addr)) as [bytes|e]; [|discriminate].
  rewrite bind_Ok. destruct (Z.leb_spec (String_length bytes) 32) as [Hle|Hgt]; [|discriminate].
  intros H. apply Ok_inj in H. subst w. split; [|apply hex_of_bytes_lower].
  rewrite hex_of_bytes_length, length_app, repeat_length. unfold String_length in *. lia.
Qed.

(** What encodeUint returns is the word of the value getUint read. *)
Lemma encodeUint_Ok value w :
  encodeUint value = Ok w ->
  exists v, getUint value = Ok v /\ 0 <= v < 2 ^ 256 /\ w = word_of v.
Proof.
  destruct (getUint value) as [v|e] eqn:Hg.
  - rewrite (encodeUint_spec value v Hg).
    pose proof (getUint_nonneg value v Hg).
    destruct (Z.ltb_spec v (2 ^ 256)); [|discriminate].
    intros H'. injection H' as <-. exists v. repeat split; (assumption || lia).
  - rewrite (encodeUint_throw value e Hg). discriminate.
Qed.

Lemma encodeUint_word value w : encodeUint value = Ok w -> is_word w.
Proof.
  intros H. destruct (encodeUint_Ok value w H) as (v & _ & Hv & ->).
  split; [apply word_of_length; lia | apply word_of_lower; lia].
Qed.

Lemma encodeUint_safe n :
  0 <= n <= MAX_SAFE_INTEGER -> encodeUint (BNumber (NInt n)) = Ok (word_of n).
Proof.
  intros Hn. rewrite (encodeUint_spec _ n).
  - replace (n <? 2 ^ 256) with true; [reflexivity|].
    symmetry. apply Z.ltb_lt. unfold MAX_SAFE_INTEGER in Hn. lia.
  - unfold getUint, getBigInt.
    replace ((- MAX_SAFE_INTEGER <=? n) && (n <=? MAX_SAFE_INTEGER)) with true
      by (symmetry; apply andb_true_iff; split; apply Z.leb_le;
          unfold MAX_SAFE_INTEGER in *; lia).
    cbn [bind]. replace (0 <=? n) with true by (symmetry; apply Z.leb_le; lia).
    reflexivity.
Qed.

(** What encodeString returns: the word of the byte length, then the
    bytes and their zero fill up to a multiple of 32. *)
Lemma encodeString_Ok str e :
  encodeString str = Ok e ->
  exists bytes k,
    toUtf8Bytes str = Ok bytes
    /\ String_length bytes <= MAX_SAFE_INTEGER
    /\ lengthHex e = word_of (String_length bytes)
    /\ paddedData e = hex_of_bytes (bytes ++ repeat 0 k)
    /\ (String_length bytes + Z.of_nat k) mod 32 = 0 /\ (k < 32)%nat.
Proof.
  rewrite encodeString_eq. destruct (toUtf8Bytes str) as [bytes|err]; [|discriminate].
  cbn [bind].
  destruct (encodeUint (BNumber (NInt (String_length bytes)))) as [l|err] eqn:Hl;
    [|discriminate].
  cbn [bind]. intros H. injection H as <-.
  destruct (encodeUint_Ok _ _ Hl) as (v & Hg & _ & ->).
  unfold getUint, getBigInt in Hg.
  destruct ((- MAX_SAFE_INTEGER <=? String_length bytes)
            && (String_length bytes <=? MAX_SAFE_INTEGER)) eqn:Hs; [|discriminate].
  bool_hyp Hs.
  cbn [bind] in Hg. destruct (0 <=? String_length bytes); [|discriminate].
  injection Hg as <-.
  pose proof (ceil32_bounds (String_length bytes) (String_length_nonneg bytes)) as [Hc Hm].
  exists bytes, (Z.to_nat (ceil32 (String_length bytes) - String_length bytes)).
  cbn [lengthHex paddedData].
  split; [reflexivity|]. split; [lia|]. split; [reflexivity|]. split; [reflexivity|].
  split; [|lia].
  rewrite Z2Nat.id by lia.
  replace (String_length bytes + (ceil32 (String_length bytes) - String_length bytes))
    with (ceil32 (String_length bytes)) by lia.
  exact Hm.
Qed.

Lemma encodeString_words str e :
  encodeString str = Ok e ->
  is_word (lengthHex e) /\ forallb is_lower_hex (paddedData e) = true.
Proof.
  intros H. destruct (encodeString_Ok str e H) as (bytes & k & _ & Hs & -> & -> & _ & _).
  pose proof (String_length_nonneg bytes). unfold MAX_SAFE_INTEGER in Hs.
  split; [|apply hex_of_bytes_lower].
  split; [apply word_of_length; lia | apply word_of_lower; lia].
Qed.

(* ===================================================================== *)
(** * Part 13: encodeAddress, encodeUint, encodeString                    *)
(* ===================================================================== *)

(** encodeAddress on any text: a "0x" hex string of at most 32 bytes is
    left-padded with zeros and lower-cased, a longer one overruns the
    padding, anything else is no BytesLike value. *)
Lemma encodeAddress_cases a :
  encodeAddress a =
  if matches_bytes_regex a then
    if (List.length a <=? 66)%nat
    then Ok (repeat 48 (66 - List.length a) ++ map toLowerCase_char (slice 2 a))
    else Throw padding_error
  else invalid_argument "invalid BytesLike value".
Proof.
  rewrite encodeAddress_eq. unfold getBytes.
  destruct (matches_bytes_regex a) eqn:Hm; [|reflexivity].
  rewrite bind_Ok. destruct a as [|c0 [|c1 r]]; try discriminate.
  unfold matches_bytes_regex in Hm. bool_hyp Hm. destruct Hm as [_ Hr].
  change (slice 2 (c0 :: c1 :: r)) with r.
  pose proof (parse_pairs_length r Hr) as Hl.
  cbn [List.length]. unfold String_length.
  destruct (Nat.leb_spec (S (S (List.length r))) 66) as [Hle|Hgt].
  - replace (Z.of_nat (List.length (parse_pairs r)) <=? 32) with true
      by (symmetry; apply Z.leb_le; lia).
    rewrite hex_of_bytes_app, hex_of_bytes_zeros, (hex_of_bytes_parse_pairs r Hr).
    do 2 f_equal. f_equal. lia.
  - replace (Z.of_nat (List.length (parse_pairs r)) <=? 32) with false
      by (symmetry; apply Z.leb_gt; lia).
    reflexivity.
Qed.

Lemma startsWith_0x a : startsWith (js "0x") a = true -> a = js "0x" ++ slice 2 a.
Proof.
  destruct a as [|c0 [|c1 r]]; cbn; intros H; try discriminate.
  - bool_hyp H. destruct H as [_ H]. discriminate.
  - bool_hyp H. destruct H as [<- [<- _]]. reflexivity.
Qed.

Lemma is_address_hex_of_bytes a : is_address a = true -> is_hex_of_bytes 20 a = true.
Proof.
  unfold is_address, is_hex_of_bytes. intros H. bool_hyp H. destruct H as [[Hp Hl] Hd].
  rewrite (startsWith_0x a Hp) in Hl |- *.
  change (slice 2 (js "0x" ++ slice 2 a)) with (slice 2 a) in *.
  change (matches_bytes_regex (js "0x" ++ slice 2 a)) with (hex_pairs (slice 2 a)).
  rewrite hex_pairs_iff, Hd, andb_true_r.
  cbn [List.length app js map list_ascii_of_string] in Hl |- *.
  apply andb_true_iff. split; [|apply Nat.eqb_eq; lia].
  replace (List.length (slice 2 a)) with 40%nat by lia. reflexivity.
Qed.

(** C2 (as amended): encodeAddress turns a 20-byte hex address into 64
    hexadecimal digits, 24 zeros and then the 40 digits of the address in
    lower case; it checks no length of 20 bytes: every "0x" hex string of
    n <= 32 bytes (19 and 21 among them) is accepted and left-padded the
    same way; it throws exactly when the input is no "0x" string of an
    even number of hexadecimal digits, or is longer than 32 bytes. *)
Theorem C2_encodeAddress_pads_any_hex :
  (forall a, is_address a = true ->
     encodeAddress a = Ok (repeat 48 24 ++ map toLowerCase_char (slice 2 a)))
  /\ (forall n a, (n <= 32)%nat -> is_hex_of_bytes n a = true ->
        encodeAddress a = Ok (repeat 48 (64 - 2 * n) ++ map toLowerCase_char (slice 2 a)))
  /\ (forall a, returns (encodeAddress a) = false <->
        ~ exists n, (n <= 32)%nat /\ is_hex_of_bytes n a = true).
Proof.
  assert (Hgen : forall n a, (n <= 32)%nat -> is_hex_of_bytes n a = true ->
            encodeAddress a = Ok (repeat 48 (64 - 2 * n) ++ map toLowerCase_char (slice 2 a))).
  { intros n a Hn H. unfold is_hex_of_bytes in H. bool_hyp H. destruct H as [Hm Hl].
    rewrite encodeAddress_cases, Hm, Hl.
    replace (2 + 2 * n <=? 66)%nat with true by (symmetry; apply Nat.leb_le; lia).
    do 2 f_equal; lia. }
  split; [|split].
  - intros a Ha. apply (Hgen 20%nat a); [lia | apply is_address_hex_of_bytes, Ha].
  - exact Hgen.
  - intros a. rewrite encodeAddress_cases. unfold is_hex_of_bytes.
    destruct (matches_bytes_regex a) eqn:Hm.
    + destruct (Nat.leb_spec (List.length a) 66) as [Hle|Hgt]; cbn [returns].
      * split; [discriminate|]. intros Hno. exfalso. apply Hno.
        destruct a as [|c0 [|c1 r]]; try discriminate.
        unfold matches_bytes_regex in Hm. bool_hyp Hm. destruct Hm as [_ Hr].
        pose proof (parse_pairs_length r Hr) as Hl.
        exists (List.length (parse_pairs r)). cbn [List.length] in *.
        split; [lia|]. apply Nat.eqb_eq. lia.
      * split; [|reflexivity]. intros _ (n & Hn & H). bool_hyp H. lia.
    + cbn [returns invalid_argument]. split; [|reflexivity].
      intros _ (n & _ & H). discriminate.
Qed.

(** A 20-byte address in mixed case, as the bridge is given one. *)
Lemma C2_witness :
  encodeAddress (js "0xD4949664cD82660AaE99bEdc034a0deA8A0bd517")
  = Ok (js "000000000000000000000000d4949664cd82660aae99bedc034a0dea8a0bd517").
Proof.
  exact (proj1 C2_encodeAddress_pads_any_hex
           (js "0xD4949664cD82660AaE99bEdc034a0deA8A0bd517") eq_refl).
Defined.

(** C2 (as stated) fails: a hex string of 19 bytes and one of 21 bytes are
    no 20-byte addresses, and encodeAddress returns a word for each. *)
Lemma C2_counterexample :
  is_address (js "0x11223344556677889900aabbccddeeff112233") = false
  /\ encodeAddress (js "0x11223344556677889900aabbccddeeff112233")
     = Ok (js "0000000000000000000000000011223344556677889900aabbccddeeff112233")
  /\ is_address (js "0x11223344556677889900aabbccddeeff1122334455") = false
  /\ encodeAddress (js "0x11223344556677889900aabbccddeeff1122334455")
     = Ok (js "000000000000000000000011223344556677889900aabbccddeeff1122334455").
Proof. vm_compute. repeat split. Qed.

Lemma getUint_bigint v :
  getUint (BBigInt v) = if 0 <=? v then Ok v
                        else Throw (EthersError NUMERIC_FAULT "unsigned value cannot be negative").
Proof. reflexivity. Qed.

Lemma getUint_decimal v :
  getUint (BString (BigInt_toString 10 v)) =
  if 0 <=? v then Ok v
  else Throw (EthersError NUMERIC_FAULT "unsigned value cannot be negative").
Proof. apply getUint_of_getBigInt, getBigInt_decimal. Qed.

(** C5 (as amended): for every integer v with 0 <= v <= 2^256 - 1, given
    as a BigInt or as its decimal string, and also as a number when
    v <= 2^53 - 1, encodeUint returns the 64-digit word of v, and reading
    the word back as a hexadecimal integer yields v; a negative value and
    a value above 2^256 - 1 make encodeUint throw in each of the three
    forms; a number above 2^53 - 1 is refused as an overflow whatever its
    size. *)
Theorem C5_encodeUint_round_trip (v : Z) :
  (0 <= v <= 2 ^ 256 - 1 ->
     encodeUint (BBigInt v) = Ok (word_of v)
     /\ encodeUint (BString (BigInt_toString 10 v)) = Ok (word_of v)
     /\ (v <= MAX_SAFE_INTEGER -> encodeUint (BNumber (NInt v)) = Ok (word_of v))
     /\ List.length (word_of v) = 64%nat
     /\ decode_word (word_of v) = Ok v)
  /\ (v < 0 ->
     encodeUint (BBigInt v)
       = Throw (EthersError NUMERIC_FAULT "unsigned value cannot be negative")
     /\ encodeUint (BString (BigInt_toString 10 v))
       = Throw (EthersError NUMERIC_FAULT "unsigned value cannot be negative")
     /\ returns (encodeUint (BNumber (NInt v))) = false)
  /\ (2 ^ 256 - 1 < v ->
     encodeUint (BBigInt v) = Throw padding_error
     /\ encodeUint (BString (BigInt_toString 10 v)) = Throw padding_error)
  /\ (MAX_SAFE_INTEGER < v ->
     encodeUint (BNumber (NInt v)) = invalid_argument "overflow").
Proof.
  split; [|split; [|split]].
  - intros Hv.
    assert (Hlt : (v <? 2 ^ 256) = true) by (apply Z.ltb_lt; lia).
    assert (Hge : (0 <=? v) = true) by (apply Z.leb_le; lia).
    split; [|split; [|split; [|split]]].
    + rewrite (encodeUint_spec _ v), Hlt; [reflexivity|].
      rewrite getUint_bigint, Hge. reflexivity.
    + rewrite (encodeUint_spec _ v), Hlt; [reflexivity|].
      rewrite getUint_decimal, Hge. reflexivity.
    + intros Hs. apply encodeUint_safe. lia.
    + apply word_of_length. lia.
    + apply decode_word_of. lia.
  - intros Hv.
    assert (Hge : (0 <=? v) = false) by (apply Z.leb_gt; lia).
    split; [|split].
    + apply encodeUint_throw. rewrite getUint_bigint, Hge. reflexivity.
    + apply encodeUint_throw. rewrite getUint_decimal, Hge. reflexivity.
    + unfold encodeUint, toBeHex, getUint, getBigInt.
      destruct ((- MAX_SAFE_INTEGER <=? v) && (v <=? MAX_SAFE_INTEGER)); [|reflexivity].
      rewrite bind_Ok, Hge. reflexivity.
  - intros Hv.
    assert (Hlt : (v <? 2 ^ 256) = false) by (apply Z.ltb_ge; lia).
    assert (Hge : (0 <=? v) = true) by (apply Z.leb_le; lia).
    split.
    + rewrite (encodeUint_spec _ v), Hlt; [reflexivity|].
      rewrite getUint_bigint, Hge. reflexivity.
    + rewrite (encodeUint_spec _ v), Hlt; [reflexivity|].
      rewrite getUint_decimal, Hge. reflexivity.
  - intros Hv. unfold encodeUint, toBeHex, getUint, getBigInt.
    replace (v <=? MAX_SAFE_INTEGER) with false by (symmetry; apply Z.leb_gt; lia).
    rewrite andb_false_r. reflexivity.
Qed.

(** The amount of the bridge example, 10^15 wei. *)
Lemma C5_witness :
  encodeUint (BString (BigInt_toString 10 1000000000000000))
  = Ok (js "00000000000000000000000000000000000000000000000000038d7ea4c68000")
  /\ decode_word (js "00000000000000000000000000000000000000000000000000038d7ea4c68000")
     = Ok 1000000000000000.
Proof.
  pose proof (proj1 (C5_encodeUint_round_trip 1000000000000000)
                ltac:(split; [discriminate | discriminate]))
    as (_ & H & _ & _ & Hd).
  split; [exact H | exact Hd].
Defined.

(** C5 (as stated) fails: 2^53 is an unsigned integer below 2^256 and a
    number, and encodeUint throws on it. *)
Lemma C5_counterexample :
  0 <= 9007199254740992 <= 2 ^ 256 - 1
  /\ encodeUint (BNumber (NInt 9007199254740992)) = invalid_argument "overflow".
Proof. split; [split; discriminate | reflexivity]. Qed.


Lemma getBytes_hex_of_bytes bs :
  Forall (fun b => 0 <= b < 256) bs ->
  getBytes (BHex (js "0x" ++ hex_of_bytes bs)) = Ok bs.
Proof.
  intros H. rewrite getBytes_hex, hex_pairs_hex_of_bytes, parse_pairs_hex_of_bytes.
  f_equal. apply Uint8Array_id, H.
Qed.











(* ===================================================================== *)
(** * Part 14: layout of the calldata of each builder                     *)
(* ===================================================================== *)

Ltac invert_binds H :=
  repeat match type of H with
         | bind (Ok _) _ = Ok _ => rewrite bind_Ok in H; cbv beta in H
         | bind ?e _ = Ok _ =>
             let x := fresh "w" in
             let E := fresh "E" in
             destruct e as [x|] eqn:E;
             [rewrite bind_Ok in H; cbv beta in H | discriminate H]
         end.

(** The value buildBridgeCalldata returns does not depend on the world. *)
Lemma buildBridgeCalldata_value d t a f x w :
  fst (BridgeCalldataBuilder.buildBridgeCalldata d t a f x w) =
  (encodedDest <- encodeUint (BNumber d) ;;
   encodedOffset <- encodeUint (BNumber (NInt 0xa0)) ;;
   encodedToken <- encodeAddress t ;;
   encodedAmount <- encodeUint (BString a) ;;
   encodedFee <- encodeUint (BString f) ;;
   encodedExtra <- encodeString x ;;
   Ok (js "0x7ae4a8ff" ++ encodedDest ++ encodedOffset ++ encodedToken ++ encodedAmount
       ++ encodedFee ++ lengthHex encodedExtra ++ paddedData encodedExtra)).
Proof.
  unfold BridgeCalldataBuilder.buildBridgeCalldata. cbv zeta.
  match goal with |- fst (match ?r with _ => _ end) = _ => destruct r end; reflexivity.
Qed.

Lemma bridge_layout d t a f x w cd :
  fst (BridgeCalldataBuilder.buildBridgeCalldata d t a f x w) = Ok cd ->
  exists w1 w3 w4 w5 e,
    encodeUint (BNumber d) = Ok w1 /\ encodeAddress t = Ok w3
    /\ encodeUint (BString a) = Ok w4 /\ encodeUint (BString f) = Ok w5
    /\ encodeString x = Ok e
    /\ cd = js "0x7ae4a8ff" ++ w1 ++ word_of 160 ++ w3 ++ w4 ++ w5
            ++ lengthHex e ++ paddedData e.
Proof.
  rewrite buildBridgeCalldata_value. intros H.
  rewrite (encodeUint_safe 0xa0) in H by (unfold MAX_SAFE_INTEGER; lia).
  invert_binds H. apply Ok_inj in H. subst cd.
  eexists _, _, _, _, _. repeat (split; [eassumption || reflexivity|]). reflexivity.
Qed.

Lemma delegation_layout this dl v a denom cd :
  DelegationCalldataBuilder.buildDelegationCalldata this dl v a denom = Ok cd ->
  exists w1 w2 w3 e,
    encodeAddress dl = Ok w1 /\ encodeAddress v = Ok w2
    /\ encodeUint (BString a) = Ok w3
    /\ encodeString (match denom with Some d => d | None => js "ahelios" end) = Ok e
    /\ cd = js "0x" ++ DelegationCalldataBuilder.DELEGATE_SELECTOR this
            ++ w1 ++ w2 ++ w3 ++ word_of 128 ++ lengthHex e ++ paddedData e.
Proof.
  unfold DelegationCalldataBuilder.buildDelegationCalldata. cbv zeta. intros H.
  rewrite (encodeUint_safe 128) in H by (unfold MAX_SAFE_INTEGER; lia).
  invert_binds H. apply Ok_inj in H. subst cd.
  eexists _, _, _, _. repeat (split; [eassumption || reflexivity|]). reflexivity.
Qed.

Lemma vote_layout this voter pid support reason cd :
  GovernanceService.buildVoteCalldata this voter pid support reason = Ok cd ->
  exists w1 w2 e,
    encodeAddress voter = Ok w1 /\ encodeUint (BNumber pid) = Ok w2
    /\ encodeString reason = Ok e
    /\ cd = js "0x" ++ js "9ec4d363" ++ w1 ++ w2
            ++ word_of (if support then 1 else 0) ++ word_of 128
            ++ lengthHex e ++ paddedData e.
Proof.
  unfold GovernanceService.buildVoteCalldata. cbv zeta.
  rewrite governance_encodeAddress, governance_encodeBool, governance_encodeString.
  rewrite !governance_encodeUint. unfold encodeBool. intros H.
  rewrite (encodeUint_safe 128) in H by (unfold MAX_SAFE_INTEGER; lia).
  rewrite (encodeUint_safe (if support then 1 else 0)) in H
    by (unfold MAX_SAFE_INTEGER; destruct support; lia).
  invert_binds H. apply Ok_inj in H. subst cd.
  eexists _, _, _. repeat (split; [eassumption || reflexivity|]). reflexivity.
Qed.

Lemma claim_layout inexact this dl amount cd :
  DelegationCalldataBuilder.buildClaimCalldata inexact this dl amount = Ok cd ->
  exists w1 w2,
    encodeAddress dl = Ok w1
    /\ encodeUint (BString (DelegationCalldataBuilder.toString inexact amount)) = Ok w2
    /\ cd = js "0x" ++ DelegationCalldataBuilder.CLAIM_SELECTOR this ++ w1 ++ w2.
Proof.
  unfold DelegationCalldataBuilder.buildClaimCalldata. cbv zeta. intros H.
  invert_binds H. apply Ok_inj in H. subst cd.
  eexists _, _. repeat (split; [eassumption || reflexivity|]). reflexivity.
Qed.

Lemma encodeUint_number_Ok n w :
  encodeUint (BNumber (NInt n)) = Ok w -> w = word_of n /\ 0 <= n <= MAX_SAFE_INTEGER.
Proof.
  intros H. destruct (encodeUint_Ok _ _ H) as (v & Hg & _ & ->).
  unfold getUint, getBigInt in Hg.
  destruct ((- MAX_SAFE_INTEGER <=? n) && (n <=? MAX_SAFE_INTEGER)) eqn:Hs; [|discriminate].
  rewrite bind_Ok in Hg. destruct (Z.leb_spec 0 n); [|discriminate].
  apply Ok_inj in Hg. subst v. bool_hyp Hs. split; [reflexivity | lia].
Qed.

Lemma encodeMessagesArray_eq (Messages : Type) J this (m : Messages) :
  GovernanceService.encodeMessagesArray Messages J this m =
  (messagesJson <- J m ;;
   match messagesJson with
   | Some str => encodeString str
   | None => invalid_argument "invalid string value"
   end).
Proof.
  unfold GovernanceService.encodeMessagesArray.
  destruct (J m) as [[str|]|e]; [|reflexivity|reflexivity].
  rewrite !bind_Ok. exact (governance_encodeString this str).
Qed.

Lemma encodeMessagesArray_words (Messages : Type) J this (m : Messages) e :
  GovernanceService.encodeMessagesArray Messages J this m = Ok e ->
  is_word (lengthHex e) /\ forallb is_lower_hex (paddedData e) = true.
Proof.
  rewrite encodeMessagesArray_eq. destruct (J m) as [[str|]|err]; try discriminate.
  rewrite bind_Ok. apply encodeString_words.
Qed.

Lemma create_proposal_layout (Messages : Type) J this title description (m : Messages)
    deposit cd :
  GovernanceService.buildCreateProposalCalldata Messages J this title description m deposit
    = Ok cd ->
  exists w4 et ed em,
    encodeUint (BString deposit) = Ok w4
    /\ encodeString title = Ok et /\ encodeString description = Ok ed
    /\ GovernanceService.encodeMessagesArray Messages J this m = Ok em
    /\ 0 <= GovernanceService.descriptionOffset title <= MAX_SAFE_INTEGER
    /\ 0 <= GovernanceService.messagesOffset title description <= MAX_SAFE_INTEGER
    /\ cd = js "0x" ++ js "cb0dddfe" ++ word_of 160
            ++ word_of (GovernanceService.descriptionOffset title)
            ++ word_of (GovernanceService.messagesOffset title description)
            ++ w4 ++ word_of 0
            ++ lengthHex et ++ paddedData et ++ lengthHex ed ++ paddedData ed
            ++ lengthHex em ++ paddedData em.
Proof.
  unfold GovernanceService.buildCreateProposalCalldata. cbv zeta.
  rewrite governance_encodeAddress, !governance_encodeString, !governance_encodeUint.
  intros H. unfold GovernanceService.titleOffset in H.
  rewrite (encodeUint_safe 160) in H by (unfold MAX_SAFE_INTEGER; lia).
  change (encodeAddress (js "0x0000000000000000000000000000000000000000"))
    with (Ok (A := JsString) (word_of 0)) in H.
  invert_binds H. apply Ok_inj in H. subst cd.
  match goal with
  | E1 : encodeUint (BNumber (NInt (GovernanceService.descriptionOffset title))) = Ok ?a,
    E2 : encodeUint (BNumber (NInt (GovernanceService.messagesOffset title description)))
         = Ok ?b |- _ =>
      apply encodeUint_number_Ok in E1; apply encodeUint_number_Ok in E2;
      destruct E1 as [-> Hd]; destruct E2 as [-> Hm]
  end.
  eexists _, _, _, _. repeat (split; [eassumption || reflexivity|]). reflexivity.
Qed.

(** ** Reading words out of a calldata string *)

Lemma word_of_length' v : 0 <= v <= MAX_SAFE_INTEGER -> List.length (word_of v) = 64%nat.
Proof. intros H. apply word_of_length. unfold MAX_SAFE_INTEGER in H. lia. Qed.

Lemma word_at_0 (w rest : JsString) : List.length w = 64%nat -> word_at 0 (w ++ rest) = w.
Proof. intros H. unfold word_at, from_byte. cbn [Z.mul Z.to_nat skipn]. apply firstn_exact, H. Qed.

Lemma from_byte_skip (w rest : JsString) n :
  List.length w = 64%nat -> 0 <= n ->
  from_byte (32 + n) (w ++ rest) = from_byte n rest.
Proof.
  intros H Hn. unfold from_byte.
  replace (Z.to_nat (2 * (32 + n))) with (64 + Z.to_nat (2 * n))%nat by lia.
  apply skipn_plus, H.
Qed.

Lemma word_at_skip (w rest : JsString) n :
  List.length w = 64%nat -> 0 <= n ->
  word_at (32 + n) (w ++ rest) = word_at n rest.
Proof. intros H Hn. unfold word_at. rewrite from_byte_skip by assumption. reflexivity. Qed.

Lemma from_byte_0 (area : JsString) : from_byte 0 area = area.
Proof. reflexivity. Qed.

Lemma parameter_area_0x (sel rest : JsString) :
  List.length sel = 8%nat -> parameter_area (js "0x" ++ sel ++ rest) = rest.
Proof.
  intros H. unfold parameter_area.
  change (skipn 10 (js "0x" ++ sel ++ rest)) with (skipn 8 (sel ++ rest)).
  apply skipn_exact, H.
Qed.

Lemma js_selector_split :
  js "0x7ae4a8ff" = js "0x" ++ js "7ae4a8ff".
Proof. reflexivity. Qed.

Lemma is_word_word_of n : 0 <= n <= MAX_SAFE_INTEGER -> is_word (word_of n).
Proof.
  intros H. split; [apply word_of_length', H | apply word_of_lower; lia].
Qed.

(* ===================================================================== *)
(** * Part 15: the offset word and the place of the dynamic field         *)
(* ===================================================================== *)

(** C4: whenever the bridge builder returns a calldata, the second head
    word (the only offset word) holds 160 and the length word of the extra
    string, followed by its padded data, starts at byte 160 of the
    parameter area; whenever the delegation builder or the vote builder
    returns one, the fourth head word holds 128 and the length word of the
    denom, respectively of the reason, starts at byte 128. *)
Theorem C4_offset_word_points_at_length_word :
  (forall d t a f x w cd,
     fst (BridgeCalldataBuilder.buildBridgeCalldata d t a f x w) = Ok cd ->
     word_at 32 (parameter_area cd) = word_of 160
     /\ exists e, encodeString x = Ok e
          /\ word_at 160 (parameter_area cd) = lengthHex e
          /\ from_byte 160 (parameter_area cd) = lengthHex e ++ paddedData e)
  /\ (forall target dl v a denom cd,
        DelegationCalldataBuilder.buildDelegationCalldata
          (DelegationCalldataBuilder.new target) dl v a denom = Ok cd ->
        word_at 96 (parameter_area cd) = word_of 128
        /\ exists e,
             encodeString (match denom with Some d => d | None => js "ahelios" end) = Ok e
             /\ word_at 128 (parameter_area cd) = lengthHex e
             /\ from_byte 128 (parameter_area cd) = lengthHex e ++ paddedData e)
  /\ (forall this voter pid support reason cd,
        GovernanceService.buildVoteCalldata this voter pid support reason = Ok cd ->
        word_at 96 (parameter_area cd) = word_of 128
        /\ exists e, encodeString reason = Ok e
             /\ word_at 128 (parameter_area cd) = lengthHex e
             /\ from_byte 128 (parameter_area cd) = lengthHex e ++ paddedData e).
Proof.
  assert (H160 : List.length (word_of 160) = 64%nat) by reflexivity.
  assert (H128 : List.length (word_of 128) = 64%nat) by reflexivity.
  split; [|split].
  - intros d t a f x w cd H.
    destruct (bridge_layout d t a f x w cd H) as (w1 & w3 & w4 & w5 & e & E1 & E3 & E4 & E5 & Ee & ->).
    apply encodeUint_word in E1, E4, E5. apply encodeAddress_word in E3.
    destruct (encodeString_words x e Ee) as [[Hl _] _].
    destruct E1 as [L1 _], E3 as [L3 _], E4 as [L4 _], E5 as [L5 _].
    rewrite js_selector_split, <- app_assoc, parameter_area_0x by reflexivity.
    split.
    + change 32 with (32 + 0). rewrite word_at_skip by (assumption || lia).
      apply word_at_0, H160.
    + exists e. split; [exact Ee|].
      change 160 with (32 + (32 + (32 + (32 + (32 + 0))))).
      unfold word_at. rewrite !from_byte_skip by (assumption || lia).
      rewrite from_byte_0. split; [apply firstn_exact, Hl | reflexivity].
  - intros target dl v a denom cd H.
    destruct (delegation_layout _ dl v a denom cd H) as (w1 & w2 & w3 & e & E1 & E2 & E3 & Ee & ->).
    apply encodeAddress_word in E1, E2. apply encodeUint_word in E3.
    destruct (encodeString_words _ e Ee) as [[Hl _] _].
    destruct E1 as [L1 _], E2 as [L2 _], E3 as [L3 _].
    rewrite parameter_area_0x by reflexivity.
    split.
    + change 96 with (32 + (32 + (32 + 0))). rewrite !word_at_skip by (assumption || lia).
      apply word_at_0, H128.
    + exists e. split; [exact Ee|].
      change 128 with (32 + (32 + (32 + (32 + 0)))).
      unfold word_at. rewrite !from_byte_skip by (assumption || lia).
      rewrite from_byte_0. split; [apply firstn_exact, Hl | reflexivity].
  - intros this voter pid support reason cd H.
    destruct (vote_layout this voter pid support reason cd H) as (w1 & w2 & e & E1 & E2 & Ee & ->).
    apply encodeAddress_word in E1. apply encodeUint_word in E2.
    destruct (encodeString_words _ e Ee) as [[Hl _] _].
    destruct E1 as [L1 _], E2 as [L2 _].
    assert (L3 : List.length (word_of (if support then 1 else 0)) = 64%nat)
      by (destruct support; reflexivity).
    rewrite parameter_area_0x by reflexivity.
    split.
    + change 96 with (32 + (32 + (32 + 0))). rewrite !word_at_skip by (assumption || lia).
      apply word_at_0, H128.
    + exists e. split; [exact Ee|].
      change 128 with (32 + (32 + (32 + (32 + 0)))).
      unfold word_at. rewrite !from_byte_skip by (assumption || lia).
      rewrite from_byte_0. split; [apply firstn_exact, Hl | reflexivity].
Qed.

Lemma encodeString_even str e :
  encodeString str = Ok e -> Nat.even (List.length (paddedData e)) = true.
Proof.
  intros H. destruct (encodeString_Ok str e H) as (bytes & k & _ & _ & _ & -> & _).
  rewrite hex_of_bytes_length, Nat.even_mul. reflexivity.
Qed.

Lemma encodeMessagesArray_even (Messages : Type) J this (m : Messages) e :
  GovernanceService.encodeMessagesArray Messages J this m = Ok e ->
  Nat.even (List.length (paddedData e)) = true.
Proof.
  rewrite encodeMessagesArray_eq. destruct (J m) as [[str|]|err]; try discriminate.
  rewrite bind_Ok. apply encodeString_even.
Qed.

(** A run of whole bytes in lower-case hexadecimal digits. *)
Lemma hex_run_app a b :
  (forallb is_lower_hex a = true /\ Nat.even (List.length a) = true) ->
  (forallb is_lower_hex b = true /\ Nat.even (List.length b) = true) ->
  forallb is_lower_hex (a ++ b) = true /\ Nat.even (List.length (a ++ b)) = true.
Proof.
  intros [Ha Ea] [Hb Eb]. rewrite forallb_app, Ha, Hb, length_app, Nat.even_add, Ea, Eb.
  split; reflexivity.
Qed.

Lemma hex_run_word w :
  is_word w -> forallb is_lower_hex w = true /\ Nat.even (List.length w) = true.
Proof. intros [Hl Hh]. rewrite Hl. split; [exact Hh | reflexivity]. Qed.

Lemma hex_run_string str e :
  encodeString str = Ok e ->
  forallb is_lower_hex (lengthHex e ++ paddedData e) = true
  /\ Nat.even (List.length (lengthHex e ++ paddedData e)) = true.
Proof.
  intros H. destruct (encodeString_words str e H) as [Hw Hp].
  apply hex_run_app; [apply hex_run_word, Hw|].
  split; [exact Hp | apply (encodeString_even str e H)].
Qed.

(* ===================================================================== *)
(** * Part 16: selectors                                                  *)
(* ===================================================================== *)

(** C7: whatever a builder returns is "0x", then the eight digits of its
    selector (7ae4a8ff for bridge, f5e56040 for delegate, 2efe8a5f for
    claim, 9ec4d363 for vote, cb0dddfe for create-proposal), then an even
    number of lower-case hexadecimal digits. *)
Theorem C7_selector_prefix :
  (forall d t a f x w cd,
     fst (BridgeCalldataBuilder.buildBridgeCalldata d t a f x w) = Ok cd ->
     exists rest, cd = js "0x" ++ js "7ae4a8ff" ++ rest
       /\ forallb is_lower_hex rest = true /\ Nat.even (List.length rest) = true)
  /\ (forall target dl v a denom cd,
        DelegationCalldataBuilder.buildDelegationCalldata
          (DelegationCalldataBuilder.new target) dl v a denom = Ok cd ->
        exists rest, cd = js "0x" ++ js "f5e56040" ++ rest
          /\ forallb is_lower_hex rest = true /\ Nat.even (List.length rest) = true)
  /\ (forall inexact target dl amount cd,
        DelegationCalldataBuilder.buildClaimCalldata inexact
          (DelegationCalldataBuilder.new target) dl amount = Ok cd ->
        exists rest, cd = js "0x" ++ js "2efe8a5f" ++ rest
          /\ forallb is_lower_hex rest = true /\ Nat.even (List.length rest) = true)
  /\ (forall this voter pid support reason cd,
        GovernanceService.buildVoteCalldata this voter pid support reason = Ok cd ->
        exists rest, cd = js "0x" ++ js "9ec4d363" ++ rest
          /\ forallb is_lower_hex rest = true /\ Nat.even (List.length rest) = true)
  /\ (forall (Messages : Type) J this title description (m : Messages) deposit cd,
        GovernanceService.buildCreateProposalCalldata Messages J this title description
          m deposit = Ok cd ->
        exists rest, cd = js "0x" ++ js "cb0dddfe" ++ rest
          /\ forallb is_lower_hex rest = true /\ Nat.even (List.length rest) = true).
Proof.
  assert (Hw : forall n, 0 <= n <= MAX_SAFE_INTEGER ->
             forallb is_lower_hex (word_of n) = true
             /\ Nat.even (List.length (word_of n)) = true)
    by (intros n Hn; apply hex_run_word, is_word_word_of, Hn).
  split; [|split; [|split; [|split]]].
  - intros d t a f x w cd H.
    destruct (bridge_layout d t a f x w cd H)
      as (w1 & w3 & w4 & w5 & e & E1 & E3 & E4 & E5 & Ee & ->).
    apply encodeUint_word, hex_run_word in E1, E4, E5.
    apply encodeAddress_word, hex_run_word in E3.
    eexists. split; [reflexivity|].
    repeat (apply hex_run_app; [assumption|]).
    apply hex_run_app; [apply Hw; unfold MAX_SAFE_INTEGER; lia|].
    repeat (apply hex_run_app; [assumption|]).
    apply (hex_run_string x e Ee).
  - intros target dl v a denom cd H.
    destruct (delegation_layout _ dl v a denom cd H)
      as (w1 & w2 & w3 & e & E1 & E2 & E3 & Ee & ->).
    apply encodeAddress_word, hex_run_word in E1, E2.
    apply encodeUint_word, hex_run_word in E3.
    eexists. split; [reflexivity|].
    repeat (apply hex_run_app; [assumption|]).
    apply hex_run_app; [apply Hw; unfold MAX_SAFE_INTEGER; lia|].
    apply (hex_run_string _ e Ee).
  - intros inexact target dl amount cd H.
    destruct (claim_layout inexact _ dl amount cd H) as (w1 & w2 & E1 & E2 & ->).
    apply encodeAddress_word, hex_run_word in E1.
    apply encodeUint_word, hex_run_word in E2.
    eexists. split; [reflexivity|]. apply hex_run_app; assumption.
  - intros this voter pid support reason cd H.
    destruct (vote_layout this voter pid support reason cd H)
      as (w1 & w2 & e & E1 & E2 & Ee & ->).
    apply encodeAddress_word, hex_run_word in E1.
    apply encodeUint_word, hex_run_word in E2.
    eexists. split; [reflexivity|].
    repeat (apply hex_run_app; [assumption|]).
    apply hex_run_app; [apply Hw; unfold MAX_SAFE_INTEGER; destruct support; lia|].
    apply hex_run_app; [apply Hw; unfold MAX_SAFE_INTEGER; lia|].
    apply (hex_run_string _ e Ee).
  - intros Messages J this title description m deposit cd H.
    destruct (create_proposal_layout Messages J this title description m deposit cd H)
      as (w4 & et & ed & em & E4 & Et & Ed & Em & Hd & Hm & ->).
    apply encodeUint_word, hex_run_word in E4.
    eexists. split; [reflexivity|].
    apply hex_run_app; [apply Hw; unfold MAX_SAFE_INTEGER; lia|].
    apply hex_run_app; [apply Hw, Hd|].
    apply hex_run_app; [apply Hw, Hm|].
    apply hex_run_app; [assumption|].
    apply hex_run_app; [apply Hw; unfold MAX_SAFE_INTEGER; lia|].
    rewrite (app_assoc (lengthHex et)), (app_assoc (lengthHex ed)).
    apply hex_run_app; [apply (hex_run_string _ et Et)|].
    apply hex_run_app; [apply (hex_run_string _ ed Ed)|].
    destruct (encodeMessagesArray_words Messages J this m em Em) as [Hw' Hp'].
    apply hex_run_app; [apply hex_run_word, Hw'|].
    split; [exact Hp' | apply (encodeMessagesArray_even Messages J this m em Em)].
Qed.

(** The bridge call of the specification's example, a delegation with the
    default denom and a vote with a reason. *)
Lemma C4_witness :
  (exists cd,
     fst (BridgeCalldataBuilder.buildBridgeCalldata (NInt 11155111) token_HLS
            (js "1000000000000000") (js "500000000000000000") recipient world0) = Ok cd
     /\ word_at 32 (parameter_area cd) = word_of 160
     /\ word_at 160 (parameter_area cd) = word_of 42)
  /\ (exists cd,
        DelegationCalldataBuilder.buildDelegationCalldata delegation0 recipient validator
          (js "10000000000000000") None = Ok cd
        /\ word_at 96 (parameter_area cd) = word_of 128
        /\ word_at 128 (parameter_area cd) = word_of 7)
  /\ (exists cd,
        GovernanceService.buildVoteCalldata governance0 recipient (NInt 12) true
          (js "Vote on proposal 12") = Ok cd
        /\ word_at 96 (parameter_area cd) = word_of 128
        /\ word_at 128 (parameter_area cd) = word_of 19).
Proof.
  split; [|split].
  - destruct (fst (BridgeCalldataBuilder.buildBridgeCalldata (NInt 11155111) token_HLS
                     (js "1000000000000000") (js "500000000000000000") recipient world0))
      as [cd|err] eqn:E; [|vm_compute in E; discriminate E].
    exists cd. split; [reflexivity|].
    destruct (proj1 C4_offset_word_points_at_length_word _ _ _ _ _ _ cd E)
      as (H1 & e & He & H2 & _).
    split; [exact H1|]. rewrite H2.
    assert (He' : encodeString recipient
                  = Ok {| lengthHex := word_of 42; paddedData := paddedData e |})
      by (rewrite He; vm_compute in He; apply Ok_inj in He; rewrite <- He; reflexivity).
    rewrite He in He'. apply Ok_inj in He'. rewrite He'. reflexivity.
  - destruct (DelegationCalldataBuilder.buildDelegationCalldata delegation0 recipient
                validator (js "10000000000000000") None)
      as [cd|err] eqn:E; [|vm_compute in E; discriminate E].
    exists cd. split; [reflexivity|].
    destruct (proj1 (proj2 C4_offset_word_points_at_length_word) _ _ _ _ _ cd E)
      as (H1 & e & He & H2 & _).
    split; [exact H1|]. rewrite H2.
    assert (He' : encodeString (js "ahelios")
                  = Ok {| lengthHex := word_of 7; paddedData := paddedData e |})
      by (rewrite He; vm_compute in He; apply Ok_inj in He; rewrite <- He; reflexivity).
    rewrite He in He'. apply Ok_inj in He'. rewrite He'. reflexivity.
  - destruct (GovernanceService.buildVoteCalldata governance0 recipient (NInt 12) true
                (js "Vote on proposal 12"))
      as [cd|err] eqn:E; [|vm_compute in E; discriminate E].
    exists cd. split; [reflexivity|].
    destruct (proj2 (proj2 C4_offset_word_points_at_length_word) _ _ _ _ _ cd E)
      as (H1 & e & He & H2 & _).
    split; [exact H1|]. rewrite H2.
    assert (He' : encodeString (js "Vote on proposal 12")
                  = Ok {| lengthHex := word_of 19; paddedData := paddedData e |})
      by (rewrite He; vm_compute in He; apply Ok_inj in He; rewrite <- He; reflexivity).
    rewrite He in He'. apply Ok_inj in He'. rewrite He'. reflexivity.
Defined.

(** One call of each builder, with the arguments the bot passes. *)
Lemma C7_witness :
  (exists cd rest,
     fst (BridgeCalldataBuilder.buildBridgeCalldata (NInt 11155111) token_HLS
            (js "1000000000000000") (js "500000000000000000") recipient world0) = Ok cd
     /\ cd = js "0x7ae4a8ff" ++ rest)
  /\ (exists cd rest,
        DelegationCalldataBuilder.buildDelegationCalldata delegation0 recipient validator
          (js "10000000000000000") None = Ok cd
        /\ cd = js "0xf5e56040" ++ rest)
  /\ (exists cd rest,
        DelegationCalldataBuilder.buildClaimCalldata (fun _ => []) delegation0 recipient
          (DelegationCalldataBuilder.IdNumber (NInt 10)) = Ok cd
        /\ cd = js "0x2efe8a5f" ++ rest)
  /\ (exists cd rest,
        GovernanceService.buildVoteCalldata governance0 recipient (NInt 12) true
          (js "Vote on proposal 12") = Ok cd
        /\ cd = js "0x9ec4d363" ++ rest)
  /\ (exists cd rest,
        GovernanceService.buildCreateProposalCalldata unit (fun _ => Ok (Some (js "[]")))
          governance0 (js "Governance Proposal: Fix Gas")
          (js "Update fee settings for better speed") tt (js "1000000000000000000") = Ok cd
        /\ cd = js "0xcb0dddfe" ++ rest).
Proof.
  split; [|split; [|split; [|split]]].
  - destruct (fst (BridgeCalldataBuilder.buildBridgeCalldata (NInt 11155111) token_HLS
                     (js "1000000000000000") (js "500000000000000000") recipient world0))
      as [cd|err] eqn:E; [|vm_compute in E; discriminate E].
    destruct (proj1 C7_selector_prefix _ _ _ _ _ _ cd E) as (rest & Hcd & _).
    exists cd, rest. split; [reflexivity | exact Hcd].
  - destruct (DelegationCalldataBuilder.buildDelegationCalldata delegation0 recipient
                validator (js "10000000000000000") None)
      as [cd|err] eqn:E; [|vm_compute in E; discriminate E].
    destruct (proj1 (proj2 C7_selector_prefix) _ _ _ _ _ cd E) as (rest & Hcd & _).
    exists cd, rest. split; [reflexivity | exact Hcd].
  - destruct (DelegationCalldataBuilder.buildClaimCalldata (fun _ => []) delegation0
                recipient (DelegationCalldataBuilder.IdNumber (NInt 10)))
      as [cd|err] eqn:E; [|vm_compute in E; discriminate E].
    destruct (proj1 (proj2 (proj2 C7_selector_prefix)) _ _ _ _ cd E) as (rest & Hcd & _).
    exists cd, rest. split; [reflexivity | exact Hcd].
  - destruct (GovernanceService.buildVoteCalldata governance0 recipient (NInt 12) true
                (js "Vote on proposal 12"))
      as [cd|err] eqn:E; [|vm_compute in E; discriminate E].
    destruct (proj1 (proj2 (proj2 (proj2 C7_selector_prefix))) _ _ _ _ _ cd E)
      as (rest & Hcd & _).
    exists cd, rest. split; [reflexivity | exact Hcd].
  - destruct (GovernanceService.buildCreateProposalCalldata unit
                (fun _ => Ok (Some (js "[]"))) governance0
                (js "Governance Proposal: Fix Gas")
                (js "Update fee settings for better speed") tt (js "1000000000000000000"))
      as [cd|err] eqn:E; [|vm_compute in E; discriminate E].
    destruct (proj2 (proj2 (proj2 (proj2 C7_selector_prefix))) _ _ _ _ _ _ _ cd E)
      as (rest & Hcd & _).
    exists cd, rest. split; [reflexivity | exact Hcd].
Defined.

(* ===================================================================== *)
(** * Part 17: the default denom and the claim call                       *)
(* ===================================================================== *)

Lemma toString_same_word inexact amount w :
  encodeUint (match amount with
              | DelegationCalldataBuilder.IdString s => BString s
              | DelegationCalldataBuilder.IdNumber n => BNumber n
              end) = Ok w ->
  encodeUint (BString (DelegationCalldataBuilder.toString inexact amount)) = Ok w.
Proof.
  destruct amount as [s|n]; [exact (fun H => H)|].
  intros H. destruct (encodeUint_Ok _ _ H) as (v & Hg & Hv & ->).
  unfold getUint, getBigInt in Hg. destruct n as [z| | |]; try discriminate.
  destruct ((- MAX_SAFE_INTEGER <=? z) && (z <=? MAX_SAFE_INTEGER)) eqn:Hs; [|discriminate].
  rewrite bind_Ok in Hg. destruct (Z.leb_spec 0 z) as [Hz|Hz]; [|discriminate].
  apply Ok_inj in Hg. subst v. bool_hyp Hs.
  unfold DelegationCalldataBuilder.toString, Number_toString.
  replace (Z.abs z <=? MAX_SAFE_INTEGER) with true by (symmetry; apply Z.leb_le; lia).
  rewrite (encodeUint_spec _ z).
  - replace (z <? 2 ^ 256) with true by (symmetry; apply Z.ltb_lt; lia). reflexivity.
  - rewrite getUint_decimal. replace (0 <=? z) with true by (symmetry; apply Z.leb_le; lia).
    reflexivity.
Qed.

(** C8 (as amended): the delegation builder without a denom returns what
    it returns with "ahelios", a tail made of the length word 7 and the
    seven bytes of "ahelios" padded to 32; whenever the address word of
    the delegator and the uint word of the amount or id exist, the claim
    builder returns "0x", its selector and these two words and nothing
    else; whatever the claim builder returns is 4 + 2 * 32 = 68 bytes
    long, the selector, the address word and the uint word of the decimal
    text of the amount or id (the builder encodes
    claimAmountOrId.toString()).  For a string that text is the argument
    itself; for a number above 2^53 - 1, encodeUint of the number throws
    "overflow" while the builder goes by the text of the number. *)
Theorem C8_default_denom_and_claim_layout :
  (forall this dl v a,
     DelegationCalldataBuilder.buildDelegationCalldata this dl v a None
     = DelegationCalldataBuilder.buildDelegationCalldata this dl v a (Some (js "ahelios")))
  /\ (forall inexact target dl amount wa wu,
        encodeAddress dl = Ok wa ->
        encodeUint (match amount with
                    | DelegationCalldataBuilder.IdString s => BString s
                    | DelegationCalldataBuilder.IdNumber n => BNumber n
                    end) = Ok wu ->
        DelegationCalldataBuilder.buildClaimCalldata inexact
          (DelegationCalldataBuilder.new target) dl amount
        = Ok (js "0x" ++ js "2efe8a5f" ++ wa ++ wu))
  /\ (forall inexact target dl amount cd,
        DelegationCalldataBuilder.buildClaimCalldata inexact
          (DelegationCalldataBuilder.new target) dl amount = Ok cd ->
        exists wa wu,
          encodeAddress dl = Ok wa /\ is_word wa /\ is_word wu
          /\ cd = js "0x" ++ js "2efe8a5f" ++ wa ++ wu
          /\ List.length cd = (2 + 2 * 68)%nat
          /\ encodeUint (BString (DelegationCalldataBuilder.toString inexact amount))
             = Ok wu)
  /\ (forall target dl v a cd,
        DelegationCalldataBuilder.buildDelegationCalldata
          (DelegationCalldataBuilder.new target) dl v a None = Ok cd ->
        from_byte 128 (parameter_area cd)
        = word_of 7 ++ js "6168656c696f73" ++ repeat 48 50)
  /\ (forall inexact target dl s,
        DelegationCalldataBuilder.buildClaimCalldata inexact
          (DelegationCalldataBuilder.new target) dl (DelegationCalldataBuilder.IdString s)
        = (wa <- encodeAddress dl ;;
           wu <- encodeUint (BString s) ;;
           Ok (js "0x" ++ js "2efe8a5f" ++ wa ++ wu)))
  /\ (forall inexact target dl z,
        MAX_SAFE_INTEGER < z ->
        encodeUint (BNumber (NInt z)) = invalid_argument "overflow"
        /\ DelegationCalldataBuilder.buildClaimCalldata inexact
             (DelegationCalldataBuilder.new target) dl
             (DelegationCalldataBuilder.IdNumber (NInt z))
           = (wa <- encodeAddress dl ;;
              wu <- encodeUint (BString (inexact (NInt z))) ;;
              Ok (js "0x" ++ js "2efe8a5f" ++ wa ++ wu))).
Proof.
  split; [reflexivity | split; [|split; [|split; [|split]]]].
  - intros inexact target dl amount wa wu Ha Hu.
    unfold DelegationCalldataBuilder.buildClaimCalldata.
    rewrite Ha, bind_Ok, (toString_same_word inexact amount wu Hu), bind_Ok. reflexivity.
  - intros inexact target dl amount cd H.
    destruct (claim_layout inexact _ dl amount cd H) as (w1 & w2 & E1 & E2 & ->).
    pose proof (encodeAddress_word _ _ E1) as W1.
    pose proof (encodeUint_word _ _ E2) as W2.
    exists w1, w2. repeat split; try assumption; try apply W1; try apply W2.
    destruct W1 as [L1 _], W2 as [L2 _].
    cbn [DelegationCalldataBuilder.CLAIM_SELECTOR DelegationCalldataBuilder.new].
    rewrite !length_app, L1, L2. reflexivity.
  - intros target dl v a cd H.
    destruct (delegation_layout _ dl v a None cd H) as (w1 & w2 & w3 & e & E1 & E2 & E3 & Ee & ->).
    apply encodeAddress_word in E1, E2. apply encodeUint_word in E3.
    destruct E1 as [L1 _], E2 as [L2 _], E3 as [L3 _].
    assert (He : encodeString (js "ahelios")
                 = Ok {| lengthHex := word_of 7;
                         paddedData := js "6168656c696f73" ++ repeat 48 50 |})
      by (vm_compute; reflexivity).
    rewrite He in Ee. apply Ok_inj in Ee. subst e. cbn [lengthHex paddedData].
    cbn [DelegationCalldataBuilder.DELEGATE_SELECTOR DelegationCalldataBuilder.new].
    rewrite parameter_area_0x by reflexivity.
    change 128 with (32 + (32 + (32 + (32 + 0)))).
    rewrite (from_byte_skip w1) by (assumption || lia).
    rewrite (from_byte_skip w2) by (assumption || lia).
    rewrite (from_byte_skip w3) by (assumption || lia).
    rewrite (from_byte_skip (word_of (32 + (32 + (32 + (32 + 0))))))
      by (reflexivity || lia).
    reflexivity.
  - reflexivity.
  - intros inexact target dl z Hz. split.
    + apply encodeUint_throw. unfold getUint, getBigInt.
      replace (z <=? MAX_SAFE_INTEGER) with false by (symmetry; apply Z.leb_gt; lia).
      rewrite andb_false_r. reflexivity.
    + unfold DelegationCalldataBuilder.buildClaimCalldata,
        DelegationCalldataBuilder.toString, Number_toString.
      replace (Z.abs z <=? MAX_SAFE_INTEGER) with false
        by (symmetry; apply Z.leb_gt; unfold MAX_SAFE_INTEGER in *; lia).
      reflexivity.
Qed.

(** The claim the bot makes: id 10 as a number. *)
Lemma C8_witness :
  DelegationCalldataBuilder.buildClaimCalldata (fun _ => []) delegation0 recipient
    (DelegationCalldataBuilder.IdNumber (NInt 10))
  = Ok (js "0x2efe8a5f"
        ++ js "0000000000000000000000008ba1f109551bd432803012645ac136ddd64dba72"
        ++ js "000000000000000000000000000000000000000000000000000000000000000a").
Proof.
  exact (proj1 (proj2 C8_default_denom_and_claim_layout) (fun _ => [])
           (js "0x0000000000000000000000000000000000000800") recipient
           (DelegationCalldataBuilder.IdNumber (NInt 10))
           (js "0000000000000000000000008ba1f109551bd432803012645ac136ddd64dba72")
           (js "000000000000000000000000000000000000000000000000000000000000000a")
           ltac:(vm_compute; reflexivity) ltac:(vm_compute; reflexivity)).
Defined.

(** C8 (as stated) fails: for the number 2^53, whose text is
    "9007199254740992", the claim builder returns a calldata of 68 bytes
    with the word of 2^53, and encodeUint of the number itself throws: the
    calldata is not selector ++ encodeAddress(delegator) ++
    encodeUint(amountOrId). *)
Lemma C8_counterexample :
  Number_toString decimal_toString (NInt 9007199254740992) = js "9007199254740992"
  /\ DelegationCalldataBuilder.buildClaimCalldata decimal_toString delegation0 recipient
       (DelegationCalldataBuilder.IdNumber (NInt 9007199254740992))
     = Ok (js "0x2efe8a5f"
           ++ js "0000000000000000000000008ba1f109551bd432803012645ac136ddd64dba72"
           ++ js "0000000000000000000000000000000000000000000000000020000000000000")
  /\ encodeUint (BNumber (NInt 9007199254740992)) = invalid_argument "overflow"
  /\ (wa <- encodeAddress recipient ;;
      wu <- encodeUint (BNumber (NInt 9007199254740992)) ;;
      Ok (js "0x" ++ js "2efe8a5f" ++ wa ++ wu))
     = invalid_argument "overflow".
Proof. vm_compute. repeat split. Qed.

(* ===================================================================== *)
(** * Part 18: determinism                                                *)
(* ===================================================================== *)

(** C9: what a builder returns is fixed by its arguments.  The bridge
    builder returns the same result in any two worlds (whatever the clock
    and the console hold), a second call after a first one included, and
    all it does to the world is to write one line; the delegation and
    claim builders return the same for any two instances made by the
    constructor, the vote and create-proposal builders for any two states
    of the service. *)
Theorem C9_builders_depend_on_arguments_only :
  (forall d t a f x w1 w2,
     fst (BridgeCalldataBuilder.buildBridgeCalldata d t a f x w1)
     = fst (BridgeCalldataBuilder.buildBridgeCalldata d t a f x w2))
  /\ (forall d t a f x w,
        fst (BridgeCalldataBuilder.buildBridgeCalldata d t a f x
               (snd (BridgeCalldataBuilder.buildBridgeCalldata d t a f x w)))
        = fst (BridgeCalldataBuilder.buildBridgeCalldata d t a f x w))
  /\ (forall d t a f x w,
        exists line,
          Helpers.console (snd (BridgeCalldataBuilder.buildBridgeCalldata d t a f x w))
          = Helpers.console w ++ [line])
  /\ (forall target1 target2 dl v a denom,
        DelegationCalldataBuilder.buildDelegationCalldata
          (DelegationCalldataBuilder.new target1) dl v a denom
        = DelegationCalldataBuilder.buildDelegationCalldata
            (DelegationCalldataBuilder.new target2) dl v a denom)
  /\ (forall inexact target1 target2 dl amount,
        DelegationCalldataBuilder.buildClaimCalldata inexact
          (DelegationCalldataBuilder.new target1) dl amount
        = DelegationCalldataBuilder.buildClaimCalldata inexact
            (DelegationCalldataBuilder.new target2) dl amount)
  /\ (forall this1 this2 voter pid support reason,
        GovernanceService.buildVoteCalldata this1 voter pid support reason
        = GovernanceService.buildVoteCalldata this2 voter pid support reason)
  /\ (forall (Messages : Type) J this1 this2 title description (m : Messages) deposit,
        GovernanceService.buildCreateProposalCalldata Messages J this1 title description
          m deposit
        = GovernanceService.buildCreateProposalCalldata Messages J this2 title description
            m deposit).
Proof.
  split; [|split; [|split; [|split; [|split; [|split]]]]].
  - intros. rewrite !buildBridgeCalldata_value. reflexivity.
  - intros. rewrite !buildBridgeCalldata_value. reflexivity.
  - intros d t a f x w. unfold BridgeCalldataBuilder.buildBridgeCalldata. cbv zeta.
    match goal with
    | |- exists _, Helpers.console (snd (match ?r with _ => _ end)) = _ => destruct r
    end; eexists; reflexivity.
  - reflexivity.
  - reflexivity.
  - reflexivity.
  - reflexivity.
Qed.

(* ===================================================================== *)
(** * Part 19: the offsets of create-proposal                             *)
(* ===================================================================== *)

(** The three offset words the builder emits: 160, then 160 + 32 and the
    number of UTF-16 code units of the title rounded up to 32, then that
    plus 32 and the number of code units of the description rounded up. *)
Lemma create_proposal_offsets (Messages : Type) J this title description (m : Messages)
    deposit cd :
  GovernanceService.buildCreateProposalCalldata Messages J this title description m deposit
    = Ok cd ->
  word_at 0 (parameter_area cd) = word_of 160
  /\ word_at 32 (parameter_area cd)
     = word_of (160 + 32 + roundUpTo32 (String_length title))
  /\ word_at 64 (parameter_area cd)
     = word_of (160 + 32 + roundUpTo32 (String_length title)
                + 32 + roundUpTo32 (String_length description)).
Proof.
  intros H.
  destruct (create_proposal_layout Messages J this title description m deposit cd H)
    as (w4 & et & ed & em & E4 & Et & Ed & Em & Hd & Hm & ->).
  rewrite parameter_area_0x by reflexivity.
  assert (H160 : List.length (word_of 160) = 64%nat) by reflexivity.
  pose proof (word_of_length' _ Hd) as Ld. pose proof (word_of_length' _ Hm) as Lm.
  unfold GovernanceService.messagesOffset, GovernanceService.descriptionOffset,
    GovernanceService.titleOffset in *.
  rewrite !ceil32_roundUpTo32 in *.
  split; [apply word_at_0, H160|]. split.
  - change 32 with (32 + 0) at 1. rewrite word_at_skip by (assumption || lia).
    apply word_at_0, Ld.
  - change 64 with (32 + (32 + 0)). rewrite !word_at_skip by (assumption || lia).
    apply word_at_0, Lm.
Qed.

(** The example of the specification: title "A", description "BB". *)
Example create_proposal_offsets_A_BB :
  GovernanceService.descriptionOffset (js "A") = 224
  /\ GovernanceService.messagesOffset (js "A") (js "BB") = 288.
Proof. split; reflexivity. Qed.

(** C1, at a title the bot's own generator can produce: the title has 32
    code units and 37 UTF-8 bytes, so the offset the claim asks for is
    160 + 32 + 64 = 256, and the length word of the description does sit
    at byte 256 of the parameter area; the builder emits 224 as
    descriptionOffset and 320 as messagesOffset (the claim: 352), and byte
    224 falls inside the padded title. *)
Theorem C1_offsets_count_code_units_not_bytes :
  String_length generated_title = 32
  /\ byteLength generated_title = 37
  /\ spec_descriptionOffset generated_title = 256
  /\ spec_messagesOffset generated_title generated_description = 352
  /\ exists cd,
       GovernanceService.buildCreateProposalCalldata unit (fun _ => Ok (Some (js "[]")))
         governance0 generated_title generated_description tt (js "1000000000000000000")
       = Ok cd
       /\ word_at 32 (parameter_area cd) = word_of 224
       /\ word_at 64 (parameter_area cd) = word_of 320
       /\ word_at 160 (parameter_area cd) = word_of 37
       /\ word_at 256 (parameter_area cd) = word_of 36
       /\ word_at 224 (parameter_area cd) = js "2023313233" ++ repeat 48 54.
Proof.
  repeat (split; [vm_compute; reflexivity|]).
  eexists. split; [vm_compute; reflexivity|].
  vm_compute. repeat split.
Qed.

(* ===================================================================== *)
(** * Part 20: bridge validation and its place in the service             *)
(* ===================================================================== *)

Lemma push_if_app test m errors :
  BridgeCalldataBuilder.push_if test m errors = errors ++ (if test then [m] else []).
Proof. unfold BridgeCalldataBuilder.push_if. destruct test; [reflexivity|]. symmetry. apply app_nil_r. Qed.

Lemma amount_check test s :
  numeric s ->
  (if negb (String_truthy s) then Ok true
   else v <- BigInt_of_string s ;; Ok (test v)) = Ok (amount_fails test s).
Proof.
  intros [v Hv]. destruct s as [|c r]; [reflexivity|].
  cbn [String_truthy negb amount_fails]. unfold BigInt_of_string. rewrite Hv. reflexivity.
Qed.

Lemma extra_check e :
  negb (String_truthy e) || negb (startsWith (js "0x") e) = negb (startsWith (js "0x") e).
Proof. destruct e; reflexivity. Qed.

(** On amounts BigInt() can read, validation throws exactly when a check
    fails, and the message lists the failed checks in order. *)
Lemma validateBridgeParams_spec d t a f e :
  numeric a -> numeric f ->
  BridgeCalldataBuilder.validateBridgeParams d t a f e =
  match violations d t a f e with
  | [] => Ok true
  | errors => Throw (Error (js "Bridge validation failed: " ++ join (js ", ") errors))
  end.
Proof.
  intros Ha Hf. unfold BridgeCalldataBuilder.validateBridgeParams. cbv zeta.
  rewrite (amount_check _ a Ha), bind_Ok, (amount_check _ f Hf), bind_Ok, extra_check.
  rewrite !push_if_app. cbn [app]. rewrite <- !app_assoc.
  change (violations d t a f e) with
    ((if negb (Number_truthy d) || Number_le0 d
      then [js "Invalid destination chain ID"] else [])
     ++ (if negb (Helpers.isValidAddress t) then [js "Invalid token address"] else [])
     ++ (if amount_fails (fun v => v <=? 0) a then [js "Invalid amount"] else [])
     ++ (if amount_fails (fun v => v <? 0) f then [js "Invalid fee/gas amount"] else [])
     ++ (if negb (startsWith (js "0x") e)
         then [js "Invalid extra string (must be hex address)"] else [])).
  match goal with |- context [(0 <? List.length ?l)%nat] => destruct l; reflexivity end.
Qed.

(** When validation throws, bridgeTokens resolves to the failure with that
    error, having written only its own failure line: the builder and the
    network are not reached. *)
Lemma bridgeTokens_validation_failure (Wallet Receipt : Type) send inexact
    (this : BridgeService.t Wallet) params w signer err :
  BridgeService.isInitialized Wallet this = true ->
  BridgeService.wallet Wallet this = Some signer ->
  BridgeCalldataBuilder.validateBridgeParams (BridgeService.destChainId params)
    (BridgeService.tokenAddress params) (BridgeService.amountWei params)
    (BridgeService.feeOrGas params) (BridgeService.extraString params) = Throw err ->
  BridgeService.bridgeTokens Wallet Receipt send inexact this params w
  = (Ok (BridgeService.Failure Receipt err),
     Helpers.log [Helpers.Text (js "Bridge transaction failed")] (Helpers.TypeOf err) w).
Proof.
  intros Hi Hw Hv. unfold BridgeService.bridgeTokens. rewrite Hi, Hw, Hv. reflexivity.
Qed.


(** C3 (as amended): for amountWei and feeOrGas that BigInt() can read
    (the empty string included), validateBridgeParams throws exactly when
    one of its checks fails: the chain id is 0, NaN or not above 0; the
    token address is refused by ethers.getAddress; amountWei is empty or
    not above 0; feeOrGas is empty or below 0 (a fee of "0" passes); the
    extra string does not start with "0x" (nothing more is asked of it).
    The error is a plain Error whose message is "Bridge validation
    failed: " and the messages of all the failed checks, in order, joined
    by ", ".  Validation encodes nothing, and the bridge service calls it
    first: when it throws, bridgeTokens returns the failure without
    reaching the builder. *)
Theorem C3_validation_lists_every_failed_check :
  (forall d t a f e,
     numeric a -> numeric f ->
     BridgeCalldataBuilder.validateBridgeParams d t a f e =
     match violations d t a f e with
     | [] => Ok true
     | errors => Throw (Error (js "Bridge validation failed: " ++ join (js ", ") errors))
     end)
  /\ (forall d t a f e,
        violations d t a f e <> [] <->
        (Number_truthy d = false \/ Number_le0 d = true
         \/ Helpers.isValidAddress t = false
         \/ amount_fails (fun v => v <=? 0) a = true
         \/ amount_fails (fun v => v <? 0) f = true
         \/ startsWith (js "0x") e = false))
  /\ (forall (Wallet Receipt : Type) send inexact (this : BridgeService.t Wallet)
             params w signer err,
        BridgeService.isInitialized Wallet this = true ->
        BridgeService.wallet Wallet this = Some signer ->
        BridgeCalldataBuilder.validateBridgeParams (BridgeService.destChainId params)
          (BridgeService.tokenAddress params) (BridgeService.amountWei params)
          (BridgeService.feeOrGas params) (BridgeService.extraString params) = Throw err ->
        BridgeService.bridgeTokens Wallet Receipt send inexact this params w
        = (Ok (BridgeService.Failure Receipt err),
           Helpers.log [Helpers.Text (js "Bridge transaction failed")]
             (Helpers.TypeOf err) w)).
Proof.
  split; [exact validateBridgeParams_spec | split].
  - intros d t a f e. unfold violations.
    destruct (Number_truthy d), (Number_le0 d), (Helpers.isValidAddress t),
      (amount_fails (fun v => v <=? 0) a), (amount_fails (fun v => v <? 0) f),
      (startsWith (js "0x") e); cbn;
      (split; [intros H; try (exfalso; apply H; reflexivity); tauto
              | intros H; try discriminate;
                repeat (destruct H as [H|H]; try discriminate)]).
  - exact bridgeTokens_validation_failure.
Qed.

(** Five failed checks at once, and a service whose validation fails. *)
Lemma C3_witness :
  BridgeCalldataBuilder.validateBridgeParams (NInt 0) (js "0x123") (js "-5") (js "")
    (js "abc")
  = Throw (Error (js "Bridge validation failed: Invalid destination chain ID, Invalid token address, Invalid amount, Invalid fee/gas amount, Invalid extra string (must be hex address)"))
  /\ BridgeService.bridgeTokens unit unit send0 (fun _ => []) service0
       (bridge_params (js "0")) world0
     = (Ok (BridgeService.Failure unit
              (Error (js "Bridge validation failed: Invalid amount"))),
        Helpers.log [Helpers.Text (js "Bridge transaction failed")]
          (Helpers.TypeOf (Error (js "Bridge validation failed: Invalid amount"))) world0).
Proof.
  split.
  - rewrite (proj1 C3_validation_lists_every_failed_check (NInt 0) (js "0x123") (js "-5")
               (js "") (js "abc") (ex_intro _ (-5) eq_refl) (ex_intro _ 0 eq_refl)).
    vm_compute. reflexivity.
  - assert (Hv : BridgeCalldataBuilder.validateBridgeParams
                   (BridgeService.destChainId (bridge_params (js "0")))
                   (BridgeService.tokenAddress (bridge_params (js "0")))
                   (BridgeService.amountWei (bridge_params (js "0")))
                   (BridgeService.feeOrGas (bridge_params (js "0")))
                   (BridgeService.extraString (bridge_params (js "0")))
                 = Throw (Error (js "Bridge validation failed: Invalid amount")))
      by (vm_compute; reflexivity).
    exact (proj2 (proj2 C3_validation_lists_every_failed_check) unit unit send0
             (fun _ => []) service0 (bridge_params (js "0")) world0 tt _
             eq_refl eq_refl Hv).
Defined.

(** C3 (as stated) fails: a fee of "0" is no positive integer and
    "0xnot-an-address" is no hex address, and validation returns true. *)
Lemma C3_counterexample :
  BridgeCalldataBuilder.validateBridgeParams (NInt 11155111) token_HLS
    (js "1000000000000000") (js "0") (js "0xnot-an-address") = Ok true
  /\ StringToBigInt (js "0") = Some 0
  /\ is_address (js "0xnot-an-address") = false
  /\ Helpers.isValidAddress (js "0xnot-an-address") = false.
Proof. vm_compute. repeat split. Qed.




(* ===================================================================== *)
(** * Part 21: further properties of the encoders                         *)
(* ===================================================================== *)

(** encodeBytes never throws: it returns two lower-case hexadecimal digits
    a byte, and reading them back gives the bytes. *)
Theorem encodeBytes_round_trip (bytes : list Z) :
  Forall (fun b => 0 <= b < 256) bytes ->
  exists hex,
    encodeBytes bytes = Ok hex
    /\ List.length hex = (2 * List.length bytes)%nat
    /\ forallb is_lower_hex hex = true
    /\ getBytes (BHex (js "0x" ++ hex)) = Ok bytes.
Proof.
  intros Hb. exists (hex_of_bytes bytes).
  split; [reflexivity|]. split; [apply hex_of_bytes_length|].
  split; [apply hex_of_bytes_lower | apply getBytes_hex_of_bytes, Hb].
Qed.

Lemma encodeBytes_round_trip_witness :
  exists hex, encodeBytes [0; 171; 255] = Ok hex
              /\ getBytes (BHex (js "0x" ++ hex)) = Ok [0; 171; 255].
Proof.
  destruct (encodeBytes_round_trip [0; 171; 255]
              ltac:(repeat constructor; lia)) as (hex & H1 & _ & _ & H2).
  exists hex. split; assumption.
Defined.

(** encodeBool never throws: true gives the word of 1 and false the word
    of 0, 64 digits that read back as 1 and 0; the governance copy agrees. *)
Theorem encodeBool_word (value : bool) :
  encodeBool value = Ok (word_of (if value then 1 else 0))
  /\ (forall this, GovernanceService.encodeBool this value = encodeBool value)
  /\ decode_word (word_of (if value then 1 else 0)) = Ok (if value then 1 else 0)
  /\ word_of (if value then 1 else 0) = repeat 48 63 ++ [if value then 49 else 48].
Proof. destruct value; repeat split. Qed.

(** The governance service's own encodeAddress, encodeUint and
    encodeString return what the functions of utils/encoding.js return, on
    every input, thrown errors included, although encodeString computes the
    length word and the padded data in the other order. *)
Theorem governance_encoders_agree :
  forall this,
    (forall addr, GovernanceService.encodeAddress this addr = encodeAddress addr)
    /\ (forall value, GovernanceService.encodeUint this value = encodeUint value)
    /\ (forall str, GovernanceService.encodeString this str = encodeString str).
Proof.
  intros this. split; [reflexivity | split; [reflexivity|]].
  intros str. apply governance_encodeString.
Qed.

(** encodeMessagesArray encodes the JSON text of the messages as a plain
    string field: it returns what encodeString returns on
    JSON.stringify(messages), rethrows what JSON.stringify throws, and
    throws ethers' invalid-argument error when JSON.stringify returns
    undefined. *)
Theorem encodeMessagesArray_is_encodeString (Messages : Type)
    (J : Messages -> Result (option JsString)) this (m : Messages) :
  (forall str, J m = Ok (Some str) ->
     GovernanceService.encodeMessagesArray Messages J this m = encodeString str)
  /\ (J m = Ok None ->
      GovernanceService.encodeMessagesArray Messages J this m
      = invalid_argument "invalid string value")
  /\ (forall e, J m = Throw e ->
      GovernanceService.encodeMessagesArray Messages J this m = Throw e).
Proof.
  rewrite encodeMessagesArray_eq.
  split; [|split]; intros; match goal with H : J m = _ |- _ => rewrite H end; reflexivity.
Qed.

Lemma encodeMessagesArray_is_encodeString_witness :
  GovernanceService.encodeMessagesArray unit (fun _ => Ok (Some (js "[]"))) governance0 tt
  = encodeString (js "[]").
Proof.
  exact (proj1 (encodeMessagesArray_is_encodeString unit (fun _ => Ok (Some (js "[]")))
                  governance0 tt) (js "[]") eq_refl).
Defined.

(* ===================================================================== *)
(** * Part 22: further properties of the builders                         *)
(* ===================================================================== *)

Lemma ceil32_unique n m : 0 <= n -> n <= m < n + 32 -> m mod 32 = 0 -> m = ceil32 n.
Proof.
  intros Hn Hm Hmod. destruct (ceil32_bounds n Hn) as [Hc Hcm].
  pose proof (Z.div_mod m 32 ltac:(lia)) as Dm.
  pose proof (Z.div_mod (ceil32 n) 32 ltac:(lia)) as Dc.
  rewrite Hmod in Dm. rewrite Hcm in Dc. lia.
Qed.

(** The padded data encodeString returns has twice ceil32(byte length)
    digits. *)
Lemma encodeString_padded_length str e :
  encodeString str = Ok e ->
  exists bytes,
    toUtf8Bytes str = Ok bytes
    /\ lengthHex e = word_of (String_length bytes)
    /\ String_length bytes <= MAX_SAFE_INTEGER
    /\ List.length (lengthHex e) = 64%nat
    /\ List.length (paddedData e) = Z.to_nat (2 * ceil32 (String_length bytes)).
Proof.
  intros H. destruct (encodeString_Ok str e H) as (bytes & k & Hb & Hs & Hl & Hp & Hm & Hk).
  destruct (encodeString_words str e H) as [[Hw _] _].
  exists bytes. repeat split; try assumption.
  rewrite Hp, hex_of_bytes_length, length_app, repeat_length.
  pose proof (String_length_nonneg bytes) as Hn.
  rewrite <- (ceil32_unique (String_length bytes) (String_length bytes + Z.of_nat k))
    by (assumption || lia).
  unfold String_length. lia.
Qed.

(** Whatever the bridge builder returns is 4 + 5 * 32 + 32 bytes and the
    UTF-8 bytes of the extra string rounded up to 32: the selector, five
    head words, the length word and the padded data. *)
Theorem bridge_calldata_length d t a f x w cd :
  fst (BridgeCalldataBuilder.buildBridgeCalldata d t a f x w) = Ok cd ->
  exists bytes,
    toUtf8Bytes x = Ok bytes
    /\ String_length cd = 2 + 2 * (4 + 5 * 32 + 32 + ceil32 (String_length bytes)).
Proof.
  intros H.
  destruct (bridge_layout d t a f x w cd H)
    as (w1 & w3 & w4 & w5 & e & E1 & E3 & E4 & E5 & Ee & ->).
  apply encodeUint_word in E1, E4, E5. apply encodeAddress_word in E3.
  destruct E1 as [L1 _], E3 as [L3 _], E4 as [L4 _], E5 as [L5 _].
  destruct (encodeString_padded_length x e Ee) as (bytes & Hb & _ & _ & Ll & Lp).
  exists bytes. split; [exact Hb|].
  pose proof (ceil32_bounds _ (String_length_nonneg bytes)) as [Hc _].
  pose proof (String_length_nonneg bytes).
  unfold String_length in *.
  rewrite !length_app, L1, L3, L4, L5, Ll, Lp.
  change (List.length (js "0x7ae4a8ff")) with 10%nat.
  change (List.length (word_of 160)) with 64%nat. lia.
Qed.

Lemma bridge_calldata_length_witness :
  exists cd,
    fst (BridgeCalldataBuilder.buildBridgeCalldata (NInt 11155111) token_HLS
           (js "1000000000000000") (js "500000000000000000") recipient world0) = Ok cd
    /\ String_length cd = 2 + 2 * (4 + 5 * 32 + 32 + 64).
Proof.
  destruct (fst (BridgeCalldataBuilder.buildBridgeCalldata (NInt 11155111) token_HLS
                   (js "1000000000000000") (js "500000000000000000") recipient world0))
    as [cd|err] eqn:E; [|vm_compute in E; discriminate E].
  exists cd. split; [reflexivity|].
  destruct (bridge_calldata_length _ _ _ _ _ _ cd E) as (bytes & Hb & Hl).
  assert (Hb' : toUtf8Bytes recipient = Ok (Uint8Array recipient)) by (vm_compute; reflexivity).
  rewrite Hb' in Hb. apply Ok_inj in Hb. subst bytes. exact Hl.
Defined.

Lemma getUint_getBigInt value v : getUint value = Ok v -> getBigInt value = Ok v.
Proof.
  unfold getUint. destruct (getBigInt value) as [z|e]; [|discriminate].
  rewrite bind_Ok. destruct (0 <=? z); [|discriminate]. exact (fun H => H).
Qed.

(** The head of a bridge calldata reads back as the arguments: the first
    word as the chain id, the third is the address word of the token, the
    fourth and fifth read back as the integers the amount and fee strings
    stand for. *)
Theorem bridge_head_reads_back d t a f x w cd :
  fst (BridgeCalldataBuilder.buildBridgeCalldata d t a f x w) = Ok cd ->
  exists chain amount fee,
    d = NInt chain
    /\ getBigInt (BString a) = Ok amount /\ getBigInt (BString f) = Ok fee
    /\ decode_word (word_at 0 (parameter_area cd)) = Ok chain
    /\ Ok (word_at 64 (parameter_area cd)) = encodeAddress t
    /\ decode_word (word_at 96 (parameter_area cd)) = Ok amount
    /\ decode_word (word_at 128 (parameter_area cd)) = Ok fee.
Proof.
  intros H.
  destruct (bridge_layout d t a f x w cd H)
    as (w1 & w3 & w4 & w5 & e & E1 & E3 & E4 & E5 & Ee & ->).
  pose proof (encodeUint_word _ _ E1) as [L1 _].
  pose proof (encodeAddress_word _ _ E3) as [L3 _].
  pose proof (encodeUint_word _ _ E4) as [L4 _].
  pose proof (encodeUint_word _ _ E5) as [L5 _].
  assert (L2 : List.length (word_of 160) = 64%nat) by reflexivity.
  destruct (encodeUint_Ok _ _ E1) as (chain & G1 & R1 & ->).
  destruct (encodeUint_Ok _ _ E4) as (amount & G4 & R4 & ->).
  destruct (encodeUint_Ok _ _ E5) as (fee & G5 & R5 & ->).
  exists chain, amount, fee.
  assert (Hd : d = NInt chain).
  { apply getUint_getBigInt in G1. unfold getBigInt in G1.
    destruct d as [z| | |]; try discriminate.
    destruct ((- MAX_SAFE_INTEGER <=? z) && (z <=? MAX_SAFE_INTEGER)); [|discriminate].
    apply Ok_inj in G1. subst z. reflexivity. }
  rewrite js_selector_split, <- app_assoc, parameter_area_0x by reflexivity.
  split; [exact Hd|].
  split; [apply getUint_getBigInt, G4|]. split; [apply getUint_getBigInt, G5|].
  split; [rewrite word_at_0 by assumption; apply decode_word_of; lia|].
  split.
  - change 64 with (32 + (32 + 0)). rewrite !word_at_skip by (assumption || lia).
    rewrite word_at_0 by assumption. symmetry. exact E3.
  - split.
    + change 96 with (32 + (32 + (32 + 0))). rewrite !word_at_skip by (assumption || lia).
      rewrite word_at_0 by assumption. apply decode_word_of; lia.
    + change 128 with (32 + (32 + (32 + (32 + 0)))).
      rewrite !word_at_skip by (assumption || lia).
      rewrite word_at_0 by assumption. apply decode_word_of; lia.
Qed.

Lemma bridge_head_reads_back_witness :
  exists cd,
    fst (BridgeCalldataBuilder.buildBridgeCalldata (NInt 11155111) token_HLS
           (js "1000000000000000") (js "500000000000000000") recipient world0) = Ok cd
    /\ decode_word (word_at 0 (parameter_area cd)) = Ok 11155111
    /\ decode_word (word_at 96 (parameter_area cd)) = Ok 1000000000000000
    /\ decode_word (word_at 128 (parameter_area cd)) = Ok 500000000000000000.
Proof.
  destruct (fst (BridgeCalldataBuilder.buildBridgeCalldata (NInt 11155111) token_HLS
                   (js "1000000000000000") (js "500000000000000000") recipient world0))
    as [cd|err] eqn:E; [|vm_compute in E; discriminate E].
  exists cd. split; [reflexivity|].
  destruct (bridge_head_reads_back _ _ _ _ _ _ cd E)
    as (chain & amount & fee & Hd & Ha & Hf & H0 & _ & H96 & H128).
  apply (f_equal (fun n => match n with NInt z => z | _ => 0 end)) in Hd. cbn in Hd.
  assert (Ha' : getBigInt (BString (js "1000000000000000")) = Ok 1000000000000000)
    by (vm_compute; reflexivity).
  assert (Hf' : getBigInt (BString (js "500000000000000000")) = Ok 500000000000000000)
    by (vm_compute; reflexivity).
  rewrite Ha' in Ha. rewrite Hf' in Hf. apply Ok_inj in Ha, Hf. subst chain amount fee.
  repeat split; assumption.
Defined.

(** Whatever the delegation builder and the vote builder return is
    4 + 4 * 32 + 32 bytes and the UTF-8 bytes of the denom, respectively
    of the reason, rounded up to 32; with an empty reason the vote
    calldata is exactly 4 + 5 * 32 bytes and ends in the length word 0. *)
Theorem delegation_and_vote_calldata_length :
  (forall target dl v a denom cd,
     DelegationCalldataBuilder.buildDelegationCalldata
       (DelegationCalldataBuilder.new target) dl v a denom = Ok cd ->
     exists bytes,
       toUtf8Bytes (match denom with Some d => d | None => js "ahelios" end) = Ok bytes
       /\ String_length cd = 2 + 2 * (4 + 4 * 32 + 32 + ceil32 (String_length bytes)))
  /\ (forall this voter pid support reason cd,
        GovernanceService.buildVoteCalldata this voter pid support reason = Ok cd ->
        exists bytes,
          toUtf8Bytes reason = Ok bytes
          /\ String_length cd = 2 + 2 * (4 + 4 * 32 + 32 + ceil32 (String_length bytes)))
  /\ (forall this voter pid support cd,
        GovernanceService.buildVoteCalldata this voter pid support [] = Ok cd ->
        String_length cd = 2 + 2 * (4 + 5 * 32)
        /\ from_byte 128 (parameter_area cd) = word_of 0).
Proof.
  assert (Hvote : forall this voter pid support reason cd,
            GovernanceService.buildVoteCalldata this voter pid support reason = Ok cd ->
            exists bytes,
              toUtf8Bytes reason = Ok bytes
              /\ String_length cd
                 = 2 + 2 * (4 + 4 * 32 + 32 + ceil32 (String_length bytes))).
  { intros this voter pid support reason cd H.
    destruct (vote_layout this voter pid support reason cd H)
      as (w1 & w2 & e & E1 & E2 & Ee & ->).
    apply encodeAddress_word in E1. apply encodeUint_word in E2.
    destruct E1 as [L1 _], E2 as [L2 _].
    assert (L3 : List.length (word_of (if support then 1 else 0)) = 64%nat)
      by (destruct support; reflexivity).
    destruct (encodeString_padded_length reason e Ee) as (bytes & Hb & _ & _ & Ll & Lp).
    exists bytes. split; [exact Hb|].
    pose proof (ceil32_bounds _ (String_length_nonneg bytes)) as [Hc _].
    pose proof (String_length_nonneg bytes).
    unfold String_length in *.
    rewrite !length_app, L1, L2, L3, Ll, Lp.
    change (List.length (js "0x")) with 2%nat.
    change (List.length (js "9ec4d363")) with 8%nat.
    change (List.length (word_of 128)) with 64%nat. lia. }
  split; [|split].
  - intros target dl v a denom cd H.
    destruct (delegation_layout _ dl v a denom cd H)
      as (w1 & w2 & w3 & e & E1 & E2 & E3 & Ee & ->).
    apply encodeAddress_word in E1, E2. apply encodeUint_word in E3.
    destruct E1 as [L1 _], E2 as [L2 _], E3 as [L3 _].
    destruct (encodeString_padded_length _ e Ee) as (bytes & Hb & _ & _ & Ll & Lp).
    exists bytes. split; [exact Hb|].
    pose proof (ceil32_bounds _ (String_length_nonneg bytes)) as [Hc _].
    pose proof (String_length_nonneg bytes).
    unfold String_length in *.
    cbn [DelegationCalldataBuilder.DELEGATE_SELECTOR DelegationCalldataBuilder.new].
    rewrite !length_app, L1, L2, L3, Ll, Lp.
    change (List.length (js "0x")) with 2%nat.
    change (List.length (js "f5e56040")) with 8%nat.
    change (List.length (word_of 128)) with 64%nat. lia.
  - exact Hvote.
  - intros this voter pid support cd H.
    destruct (Hvote this voter pid support [] cd H) as (bytes & Hb & Hl).
    apply Ok_inj in Hb. subst bytes. split; [exact Hl|].
    destruct (vote_layout this voter pid support [] cd H)
      as (w1 & w2 & e & E1 & E2 & Ee & ->).
    apply encodeAddress_word in E1. apply encodeUint_word in E2.
    destruct E1 as [L1 _], E2 as [L2 _].
    assert (L3 : List.length (word_of (if support then 1 else 0)) = 64%nat)
      by (destruct support; reflexivity).
    assert (L4 : List.length (word_of 128) = 64%nat) by reflexivity.
    apply Ok_inj in Ee. subst e.
    rewrite parameter_area_0x by reflexivity.
    change 128 with (32 + (32 + (32 + (32 + 0)))).
    rewrite !from_byte_skip by (assumption || lia).
    reflexivity.
Qed.

Lemma delegation_and_vote_calldata_length_witness :
  exists cd,
    GovernanceService.buildVoteCalldata governance0 recipient (NInt 12) true [] = Ok cd
    /\ String_length cd = 2 + 2 * (4 + 5 * 32).
Proof.
  destruct (GovernanceService.buildVoteCalldata governance0 recipient (NInt 12) true [])
    as [cd|err] eqn:E; [|vm_compute in E; discriminate E].
  exists cd. split; [reflexivity|].
  exact (proj1 (proj2 (proj2 delegation_and_vote_calldata_length) _ _ _ _ cd E)).
Defined.

Lemma utf8_ascii s : ascii_only s = true -> utf8 s = Some s.
Proof.
  unfold utf8. induction s as [|c s IH]; [reflexivity|].
  cbn [ascii_only forallb]. intros H. apply andb_true_iff in H. destruct H as [Hc Hs].
  specialize (IH Hs). bool_hyp Hc. cbn [utf16_decode].
  replace ((0 <=? c) && (c <? 0xD800) || (0xE000 <=? c) && (c <? 0x10000)) with true
    by (symmetry; apply orb_true_iff; left; apply andb_true_iff;
        split; [apply Z.leb_le | apply Z.ltb_lt]; lia).
  destruct (utf16_decode s) as [cps|]; [|discriminate].
  apply Some_inj in IH. cbn [option_map flat_map]. rewrite IH.
  unfold utf8_of_code_point.
  replace (c <? 0x80) with true by (symmetry; apply Z.ltb_lt; lia). reflexivity.
Qed.

Lemma from_byte_app (p rest : JsString) n m :
  0 <= n -> 0 <= m -> List.length p = Z.to_nat (2 * n) ->
  from_byte (n + m) (p ++ rest) = from_byte m rest.
Proof.
  intros Hn Hm Hp. unfold from_byte.
  replace (Z.to_nat (2 * (n + m))) with (Z.to_nat (2 * n) + Z.to_nat (2 * m))%nat by lia.
  apply skipn_plus, Hp.
Qed.

(** For a title and a description of ASCII characters, whatever the
    create-proposal builder returns has every offset word pointing at the
    length word of its field: the length word of the title is at byte 160,
    the one of the description at the emitted descriptionOffset, and the
    messages field starts at the emitted messagesOffset. *)
Theorem create_proposal_ascii_offsets_point_at_fields (Messages : Type) J this
    title description (m : Messages) deposit cd :
  ascii_only title = true -> ascii_only description = true ->
  GovernanceService.buildCreateProposalCalldata Messages J this title description m deposit
    = Ok cd ->
  exists em,
    GovernanceService.encodeMessagesArray Messages J this m = Ok em
    /\ word_at 32 (parameter_area cd) = word_of (GovernanceService.descriptionOffset title)
    /\ word_at 64 (parameter_area cd)
       = word_of (GovernanceService.messagesOffset title description)
    /\ word_at 160 (parameter_area cd) = word_of (String_length title)
    /\ word_at (GovernanceService.descriptionOffset title) (parameter_area cd)
       = word_of (String_length description)
    /\ from_byte (GovernanceService.messagesOffset title description) (parameter_area cd)
       = lengthHex em ++ paddedData em.
Proof.
  intros Ht Hd H.
  destruct (create_proposal_offsets Messages J this title description m deposit cd H)
    as (_ & O1 & O2).
  destruct (create_proposal_layout Messages J this title description m deposit cd H)
    as (w4 & et & ed & em & E4 & Et & Ed & Em & Bd & Bm & ->).
  exists em. split; [exact Em|].
  unfold GovernanceService.messagesOffset, GovernanceService.descriptionOffset,
    GovernanceService.titleOffset in *.
  rewrite !ceil32_roundUpTo32 in *.
  split; [exact O1|]. split; [exact O2|].
  apply encodeUint_word in E4. destruct E4 as [L4 _].
  destruct (encodeString_padded_length _ _ Et) as (bt & Hbt & Hlt & _ & Llt & Lpt).
  destruct (encodeString_padded_length _ _ Ed) as (bd & Hbd & Hld & _ & Lld & Lpd).
  rewrite (toUtf8Bytes_utf8 _ _ (utf8_ascii _ Ht)) in Hbt. apply Ok_inj in Hbt. subst bt.
  rewrite (toUtf8Bytes_utf8 _ _ (utf8_ascii _ Hd)) in Hbd. apply Ok_inj in Hbd. subst bd.
  rewrite ceil32_roundUpTo32 in Lpt, Lpd.
  assert (L160 : List.length (word_of 160) = 64%nat) by reflexivity.
  assert (L0 : List.length (word_of 0) = 64%nat) by reflexivity.
  pose proof (word_of_length' _ Bd) as Ld. pose proof (word_of_length' _ Bm) as Lm.
  pose proof (String_length_nonneg title) as Nt.
  pose proof (String_length_nonneg description) as Nd.
  assert (Rt : 0 <= roundUpTo32 (String_length title))
    by (rewrite <- ceil32_roundUpTo32; pose proof (ceil32_bounds _ Nt); lia).
  assert (Rd : 0 <= roundUpTo32 (String_length description))
    by (rewrite <- ceil32_roundUpTo32; pose proof (ceil32_bounds _ Nd); lia).
  rewrite parameter_area_0x by reflexivity.
  clear O1 O2 H.
  set (Wd := word_of (160 + 32 + roundUpTo32 (String_length title))) in *.
  set (Wm := word_of (160 + 32 + roundUpTo32 (String_length title) + 32
                      + roundUpTo32 (String_length description))) in *.
  clearbody Wd Wm.
  split; [|split].
  - change 160 with (32 + (32 + (32 + (32 + (32 + 0))))).
    rewrite !word_at_skip by (assumption || lia).
    rewrite word_at_0 by assumption. exact Hlt.
  - unfold word_at.
    replace (160 + 32 + roundUpTo32 (String_length title))
      with (32 + (32 + (32 + (32 + (32 + (32 + (roundUpTo32 (String_length title) + 0)))))))
      by lia.
    rewrite !from_byte_skip by (assumption || lia).
    rewrite from_byte_app by (assumption || lia).
    rewrite from_byte_0, firstn_exact by assumption. exact Hld.
  - replace (160 + 32 + roundUpTo32 (String_length title) + 32
             + roundUpTo32 (String_length description))
      with (32 + (32 + (32 + (32 + (32 + (32 + (roundUpTo32 (String_length title)
            + (32 + (roundUpTo32 (String_length description) + 0))))))))) by lia.
    rewrite !from_byte_skip by (assumption || lia).
    rewrite from_byte_app by (assumption || lia).
    rewrite from_byte_skip by (assumption || lia).
    rewrite from_byte_app by (assumption || lia).
    apply from_byte_0.
Qed.

Lemma create_proposal_ascii_offsets_witness :
  exists cd,
    GovernanceService.buildCreateProposalCalldata unit (fun _ => Ok (Some (js "[]")))
      governance0 (js "A") (js "BB") tt (js "1000000000000000000") = Ok cd
    /\ word_at 32 (parameter_area cd) = word_of 224
    /\ word_at 64 (parameter_area cd) = word_of 288
    /\ word_at 224 (parameter_area cd) = word_of 2.
Proof.
  destruct (GovernanceService.buildCreateProposalCalldata unit
              (fun _ => Ok (Some (js "[]"))) governance0 (js "A") (js "BB") tt
              (js "1000000000000000000"))
    as [cd|err] eqn:E; [|vm_compute in E; discriminate E].
  exists cd. split; [reflexivity|].
  destruct (create_proposal_ascii_offsets_point_at_fields unit
              (fun _ => Ok (Some (js "[]"))) governance0 (js "A") (js "BB") tt
              (js "1000000000000000000") cd eq_refl eq_refl E)
    as (em & _ & H1 & H2 & _ & H4 & _).
  repeat split; assumption.
Defined.

(* ===================================================================== *)
(** * Part 23: further properties of validation and of the bridge service *)
(* ===================================================================== *)

(** A non-empty amountWei that BigInt() cannot read (a decimal fraction,
    say) makes validateBridgeParams throw BigInt's SyntaxError instead of
    its own error: the failed checks collected so far are not reported.
    The same holds for feeOrGas once amountWei is readable. *)
Theorem validateBridgeParams_unreadable_amount d t a f e :
  (a <> [] -> StringToBigInt a = None ->
   BridgeCalldataBuilder.validateBridgeParams d t a f e = Throw (SyntaxError a))
  /\ (numeric a -> f <> [] -> StringToBigInt f = None ->
      BridgeCalldataBuilder.validateBridgeParams d t a f e = Throw (SyntaxError f)).
Proof.
  split.
  - intros Hne Hp. unfold BridgeCalldataBuilder.validateBridgeParams. cbv zeta.
    destruct a as [|c r]; [congruence|].
    cbn [String_truthy negb]. unfold BigInt_of_string. rewrite Hp. reflexivity.
  - intros Ha Hne Hp. unfold BridgeCalldataBuilder.validateBridgeParams. cbv zeta.
    rewrite (amount_check _ a Ha), bind_Ok.
    destruct f as [|c r]; [congruence|].
    cbn [String_truthy negb]. unfold BigInt_of_string. rewrite Hp. reflexivity.
Qed.

Lemma validateBridgeParams_unreadable_amount_witness :
  BridgeCalldataBuilder.validateBridgeParams (NInt 0) (js "0x123") (js "0.01")
    (js "500000000000000000") (js "abc") = Throw (SyntaxError (js "0.01")).
Proof.
  exact (proj1 (validateBridgeParams_unreadable_amount (NInt 0) (js "0x123") (js "0.01")
                  (js "500000000000000000") (js "abc"))
           ltac:(discriminate) eq_refl).
Defined.

(** isValidChainId holds exactly for the positive integers; the chain
    check of validateBridgeParams is weaker: it lets any positive number
    through, and on a number that is no integer the bridge builder then
    throws ethers' underflow error, whatever the other arguments. *)
Theorem chain_id_checks :
  (forall d, ValidationUtils.isValidChainId d = true <-> exists z, d = NInt z /\ 0 < z)
  /\ (forall d, ValidationUtils.isValidChainId d = true ->
        negb (Number_truthy d) || Number_le0 d = false)
  /\ negb (Number_truthy (NFrac false)) || Number_le0 (NFrac false) = false
  /\ (forall neg t a f x w,
        fst (BridgeCalldataBuilder.buildBridgeCalldata (NFrac neg) t a f x w)
        = invalid_argument "underflow").
Proof.
  split; [|split; [|split]].
  - intros d. unfold ValidationUtils.isValidChainId. split.
    + intros H. apply andb_true_iff in H. destruct H as [H Hi].
      apply andb_true_iff in H. destruct H as [_ Hle].
      destruct d as [z|neg|neg|]; try discriminate Hi.
      exists z. split; [reflexivity|].
      apply negb_true_iff in Hle. apply Z.leb_gt. exact Hle.
    + intros (z & -> & Hz). cbn [Number_truthy Number_le0 Number_isInteger].
      replace (z =? 0) with false by (symmetry; apply Z.eqb_neq; lia).
      replace (z <=? 0) with false by (symmetry; apply Z.leb_gt; lia). reflexivity.
  - intros d. unfold ValidationUtils.isValidChainId. intros H.
    apply andb_true_iff in H. destruct H as [H _].
    apply andb_true_iff in H. destruct H as [Ht Hl].
    apply negb_true_iff in Hl. rewrite Ht, Hl. reflexivity.
  - reflexivity.
  - intros. rewrite buildBridgeCalldata_value. reflexivity.
Qed.

Lemma chain_id_checks_witness :
  negb (Number_truthy (NInt 11155111)) || Number_le0 (NInt 11155111) = false.
Proof.
  exact (proj1 (proj2 chain_id_checks) (NInt 11155111) eq_refl).
Defined.

Lemma lower_hex_range c : is_lower_hex c = true -> (48 <= c <= 57) \/ (97 <= c <= 102).
Proof. unfold is_lower_hex. intros H. bool_hyp H. lia. Qed.

Lemma lower_hex_no_upper h :
  forallb is_lower_hex h = true -> existsb (fun c => (65 <=? c) && (c <=? 70)) h = false.
Proof.
  induction h as [|c h IH]; [reflexivity|]. cbn [forallb existsb]. intros H.
  apply andb_true_iff in H. destruct H as [Hc Hh]. rewrite (IH Hh), orb_false_r.
  apply lower_hex_range in Hc. apply andb_false_iff.
  destruct (Z.leb_spec 65 c); [right; apply Z.leb_gt; lia | left; reflexivity].
Qed.

Lemma forallb_lower_hex_is_hex h :
  forallb is_lower_hex h = true -> forallb is_hex_digit h = true.
Proof.
  induction h as [|c h IH]; [reflexivity|]. cbn [forallb]. intros H.
  apply andb_true_iff in H. destruct H as [Hc Hh].
  rewrite (lower_hex_is_hex c Hc), (IH Hh). reflexivity.
Qed.

(** Validation and the encoder disagree on a token address written
    without "0x": forty lower-case hexadecimal digits are a valid address
    for isValidAddress, and encodeAddress throws on them, so the bridge
    builder returns nothing for a token that validation has accepted. *)
Theorem prefixless_address_passes_validation_and_fails_encoding h :
  lower_hex40 h = true ->
  Helpers.isValidAddress h = true
  /\ encodeAddress h = invalid_argument "invalid BytesLike value"
  /\ (forall d a f x w,
        returns (fst (BridgeCalldataBuilder.buildBridgeCalldata d h a f x w)) = false).
Proof.
  intros H. unfold lower_hex40 in H. apply andb_true_iff in H. destruct H as [Hl Hh].
  apply Nat.eqb_eq in Hl.
  assert (Hx : matches_bytes_regex h = false /\ startsWith (js "0x") h = false).
  { destruct h as [|c0 [|c1 r]]; try discriminate.
    cbn [forallb] in Hh. bool_hyp Hh. destruct Hh as [_ [Hc1 _]].
    apply lower_hex_range in Hc1.
    assert (E1 : (c1 =? 120) = false) by (apply Z.eqb_neq; lia).
    assert (E2 : (c1 =? 88) = false) by (apply Z.eqb_neq; lia).
    assert (E3 : (120 =? c1) = false) by (apply Z.eqb_neq; lia).
    split.
    - unfold matches_bytes_regex. rewrite E1, E2. cbn [orb].
      rewrite andb_false_r. reflexivity.
    - change (js "0x") with [48; 120]. cbn [startsWith].
      rewrite E3. cbn [andb]. apply andb_false_r. }
  destruct Hx as [Hm Hs].
  assert (He : encodeAddress h = invalid_argument "invalid BytesLike value")
    by (rewrite encodeAddress_cases, Hm; reflexivity).
  split; [|split; [exact He|]].
  - unfold Helpers.isValidAddress, ValidationUtils.isValidAddress, getAddress.
    unfold matches_address_regex. rewrite Hl, Nat.eqb_refl, (forallb_lower_hex_is_hex h Hh).
    cbn [andb orb]. rewrite Hs.
    unfold matches_mixed_case_regex.
    change (existsb (fun c => (65 <=? c) && (c <=? 70)) (js "0x" ++ h))
      with (existsb (fun c => (65 <=? c) && (c <=? 70)) h).
    rewrite (lower_hex_no_upper h Hh). reflexivity.
  - intros d a f x w. rewrite buildBridgeCalldata_value.
    destruct (encodeUint (BNumber d)); [|reflexivity].
    rewrite bind_Ok. destruct (encodeUint (BNumber (NInt 0xa0))); [|reflexivity].
    rewrite bind_Ok, He. reflexivity.
Qed.

Lemma prefixless_address_witness :
  Helpers.isValidAddress (js "d4949664cd82660aae99bedc034a0dea8a0bd517") = true
  /\ encodeAddress (js "d4949664cd82660aae99bedc034a0dea8a0bd517")
     = invalid_argument "invalid BytesLike value".
Proof.
  destruct (prefixless_address_passes_validation_and_fails_encoding
              (js "d4949664cd82660aae99bedc034a0dea8a0bd517") eq_refl) as (H1 & H2 & _).
  split; assumption.
Defined.

(** isValidAddress refuses every "0x" hex string that is not 20 bytes
    long, among them the 19- and 21-byte strings encodeAddress accepts. *)
Theorem isValidAddress_rejects_other_lengths n a :
  n <> 20%nat -> is_hex_of_bytes n a = true -> Helpers.isValidAddress a = false.
Proof.
  intros Hn H. unfold is_hex_of_bytes in H. apply andb_true_iff in H.
  destruct H as [Hm Hl]. apply Nat.eqb_eq in Hl.
  destruct a as [|c0 [|c1 r]]; try discriminate.
  unfold matches_bytes_regex in Hm. bool_hyp Hm. destruct Hm as [[Hc0 Hc1] Hr].
  subst c0. cbn [List.length] in Hl.
  unfold Helpers.isValidAddress, ValidationUtils.isValidAddress, getAddress.
  assert (Hreg : matches_address_regex (48 :: c1 :: r) = false).
  { unfold matches_address_regex.
    assert (Hx : is_hex_digit c1 = false) by (destruct Hc1; subst c1; reflexivity).
    cbn [forallb]. rewrite Hx. cbn [andb]. rewrite andb_false_r. cbn [orb].
    change (slice 2 (48 :: c1 :: r)) with r.
    replace (List.length r =? 40)%nat with false
      by (symmetry; apply Nat.eqb_neq; lia).
    cbn [andb]. apply andb_false_r. }
  rewrite Hreg. reflexivity.
Qed.

Lemma isValidAddress_rejects_other_lengths_witness :
  Helpers.isValidAddress (js "0x11223344556677889900aabbccddeeff112233") = false.
Proof.
  exact (isValidAddress_rejects_other_lengths 19
           (js "0x11223344556677889900aabbccddeeff112233") ltac:(discriminate) eq_refl).
Defined.

Section BridgeServiceProperties.

Variables Wallet Receipt : Type.
Variable send :
  Wallet -> BridgeService.Config -> JsString -> BridgeService.BridgeParams ->
  Helpers.World -> Result Receipt * Helpers.World.
Variable inexact : JsNumber -> JsString.

(** bridgeTokens throws in two cases only, both before anything is
    logged: the service was not initialized, or it has no wallet; the
    world is then left as it was.  Every later failure (validation, an
    unsupported chain, the builder, the network) is caught and comes back
    as a result. *)
Theorem bridgeTokens_throws_only_on_guards this params w e :
  (fst (BridgeService.bridgeTokens Wallet Receipt send inexact this params w) = Throw e
   <-> (BridgeService.isInitialized Wallet this = false
        /\ e = Error (js "Bridge Service not initialized"))
       \/ (BridgeService.isInitialized Wallet this = true
           /\ BridgeService.wallet Wallet this = None
           /\ e = Error (js "Wallet not connected")))
  /\ (fst (BridgeService.bridgeTokens Wallet Receipt send inexact this params w) = Throw e ->
      snd (BridgeService.bridgeTokens Wallet Receipt send inexact this params w) = w).
Proof.
  unfold BridgeService.bridgeTokens.
  destruct (BridgeService.isInitialized Wallet this); cbn [negb].
  - destruct (BridgeService.wallet Wallet this) as [signer|].
    + split; [split|].
      * intros H.
        match type of H with
        | fst (match ?a with _ => _ end) = _ => destruct a as [[r|err] w']
        end; discriminate H.
      * intros [[H _]|(_ & H & _)]; discriminate H.
      * intros H.
        match type of H with
        | fst (match ?a with _ => _ end) = _ => destruct a as [[r|err] w']
        end; discriminate H.
    + cbn [fst snd]. split; [split|reflexivity].
      * intros H. right. split; [reflexivity|]. split; [reflexivity|]. congruence.
      * intros [[H _]|(_ & _ & ->)]; [discriminate H | reflexivity].
  - cbn [fst snd]. split; [split|reflexivity].
    + intros H. left. split; [reflexivity|]. congruence.
    + intros [[_ ->]|(H & _)]; [reflexivity | discriminate H].
Qed.

(** bridgeTokens reports success only for a transaction it has sent: the
    parameters passed validation, the destination chain is one of the
    configured ones, the builder returned calldata, and the receipt is the
    one the network gave for exactly that calldata. *)
Theorem bridgeTokens_success_means_sent this params w receipt d amount w' :
  BridgeService.bridgeTokens Wallet Receipt send inexact this params w = (Ok (BridgeService.Success Receipt receipt d amount), w') ->
  d = BridgeService.destChainId params
  /\ amount = BridgeService.amountWei params
  /\ (exists ok, BridgeCalldataBuilder.validateBridgeParams (BridgeService.destChainId params)
    (BridgeService.tokenAddress params) (BridgeService.amountWei params)
    (BridgeService.feeOrGas params) (BridgeService.extraString params) = Ok ok)
  /\ BridgeService.supported (BridgeService.config Wallet this)
       (BridgeService.destChainId params) = true
  /\ exists signer calldata w1,
       BridgeService.wallet Wallet this = Some signer
       /\ BridgeCalldataBuilder.buildBridgeCalldata (BridgeService.destChainId params)
         (BridgeService.tokenAddress params) (BridgeService.amountWei params)
         (BridgeService.feeOrGas params) (BridgeService.extraString params) w = (Ok calldata, w1)
       /\ send signer (BridgeService.config Wallet this) calldata params w1
          = (Ok receipt, w').
Proof.
  unfold BridgeService.bridgeTokens.
  destruct (BridgeService.isInitialized Wallet this); cbn [negb]; [|discriminate].
  destruct (BridgeService.wallet Wallet this) as [signer|]; [|discriminate].
  destruct (BridgeCalldataBuilder.validateBridgeParams _ _ _ _ _) as [ok|err];
    [|discriminate].
  destruct (BridgeService.supported _ _); cbn [negb]; [|discriminate].
  destruct (BridgeCalldataBuilder.buildBridgeCalldata _ _ _ _ _ w) as [[cd|err] w1];
    [|discriminate].
  destruct (send signer (BridgeService.config Wallet this) cd params w1)
    as [[r|err] w2] eqn:Es; [|discriminate].
  intros H.
  assert (Hr : r = receipt) by congruence.
  assert (Hd : BridgeService.destChainId params = d) by congruence.
  assert (Ha : BridgeService.amountWei params = amount) by congruence.
  assert (Hw : w2 = w') by congruence.
  subst r w2. split; [congruence|]. split; [congruence|].
  split; [exists ok; reflexivity|]. split; [reflexivity|].
  exists signer, cd, w1. split; [reflexivity|]. split; [reflexivity|]. exact Es.
Qed.

(** A destination chain that is not among the configured ones ends
    bridgeTokens after validation: the result is the failure "Unsupported
    destination chain: <id>", the only line logged is the failure line,
    and neither the builder nor the network is reached. *)
Theorem bridgeTokens_unsupported_chain this params w signer ok :
  BridgeService.isInitialized Wallet this = true ->
  BridgeService.wallet Wallet this = Some signer ->
  BridgeCalldataBuilder.validateBridgeParams (BridgeService.destChainId params)
    (BridgeService.tokenAddress params) (BridgeService.amountWei params)
    (BridgeService.feeOrGas params) (BridgeService.extraString params) = Ok ok ->
  BridgeService.supported (BridgeService.config Wallet this)
    (BridgeService.destChainId params) = false ->
  let error := Error (js "Unsupported destination chain: "
                      ++ Number_toString inexact (BridgeService.destChainId params)) in
  BridgeService.bridgeTokens Wallet Receipt send inexact this params w
  = (Ok (BridgeService.Failure Receipt error),
     Helpers.log [Helpers.Text (js "Bridge transaction failed")] (Helpers.TypeOf error) w).
Proof.
  intros Hi Hw Hv Hs error.
  unfold BridgeService.bridgeTokens. rewrite Hi, Hw, Hv, Hs. reflexivity.
Qed.

End BridgeServiceProperties.

Lemma bridgeTokens_throws_only_on_guards_witness :
  BridgeService.bridgeTokens unit unit send0 (fun _ => [])
    {| BridgeService.config := BridgeService.helios_testnet;
       BridgeService.isInitialized := true;
       BridgeService.wallet := None |}
    (bridge_params (js "1000000000000000")) world0
  = (Throw (Error (js "Wallet not connected")), world0).
Proof.
  set (this := {| BridgeService.config := BridgeService.helios_testnet;
                  BridgeService.isInitialized := true;
                  BridgeService.wallet := @None unit |}).
  set (p := bridge_params (js "1000000000000000")).
  destruct (bridgeTokens_throws_only_on_guards unit unit send0 (fun _ => []) this p world0
              (Error (js "Wallet not connected"))) as [[_ Hthrow] Hworld].
  assert (Hf : fst (BridgeService.bridgeTokens unit unit send0 (fun _ => []) this p world0)
               = Throw (Error (js "Wallet not connected")))
    by (apply Hthrow; right; repeat split).
  specialize (Hworld Hf).
  destruct (BridgeService.bridgeTokens unit unit send0 (fun _ => []) this p world0)
    as [r w'].
  cbn [fst snd] in Hf, Hworld. subst r w'. reflexivity.
Defined.

Lemma bridgeTokens_success_means_sent_witness :
  exists calldata w1,
    BridgeCalldataBuilder.buildBridgeCalldata (NInt 11155111) token_HLS
      (js "1000000000000000") (js "500000000000000000") recipient world0
    = (Ok calldata, w1).
Proof.
  set (p := bridge_params (js "1000000000000000")).
  assert (E : exists w',
             BridgeService.bridgeTokens unit unit send0 (fun _ => []) service0 p world0
             = (Ok (BridgeService.Success unit tt (NInt 11155111)
                      (js "1000000000000000")), w'))
    by (vm_compute; eexists; reflexivity).
  destruct E as [w' E].
  destruct (bridgeTokens_success_means_sent unit unit send0 (fun _ => []) service0 p
              world0 tt _ _ w' E) as (_ & _ & _ & _ & signer & cd & w1 & _ & Hb & _).
  exists cd, w1. exact Hb.
Defined.

Lemma bridgeTokens_unsupported_chain_witness :
  fst (BridgeService.bridgeTokens unit unit send0 (fun _ => []) service0
         {| BridgeService.destChainId := NInt 1;
            BridgeService.tokenAddress := token_HLS;
            BridgeService.amountWei := js "1000000000000000";
            BridgeService.feeOrGas := js "500000000000000000";
            BridgeService.extraString := recipient;
            BridgeService.gasLimit := None |} world0)
  = Ok (BridgeService.Failure unit (Error (js "Unsupported destination chain: 1"))).
Proof.
  set (p := {| BridgeService.destChainId := NInt 1;
               BridgeService.tokenAddress := token_HLS;
               BridgeService.amountWei := js "1000000000000000";
               BridgeService.feeOrGas := js "500000000000000000";
               BridgeService.extraString := recipient;
               BridgeService.gasLimit := None |}).
  assert (Hv : BridgeCalldataBuilder.validateBridgeParams
                 (BridgeService.destChainId p) (BridgeService.tokenAddress p)
                 (BridgeService.amountWei p) (BridgeService.feeOrGas p)
                 (BridgeService.extraString p) = Ok true)
    by (vm_compute; reflexivity).
  rewrite (bridgeTokens_unsupported_chain unit unit send0 (fun _ => []) service0 p
             world0 tt true eq_refl eq_refl Hv eq_refl).
  reflexivity.
Defined.
